(** * ophta-flow: the IOLMaster 700 report parser and the spreadsheet merge

    A shallow embedding of [backend/app/parsers/iol700.py], of the
    duplicate filter, the row writer and the new workbook of
    [backend/app/excel_handler.py] and of the endpoint of
    [backend/app/main.py], followed by the properties proved about them.

    Modelling conventions.
    - A Python [str] is a [string] holding the UTF-8 bytes of the text.
      Substring tests, [replace], [split] and [strip] act on ASCII patterns
      and so behave on the bytes as they do on the code points.
      [str.upper], [str.strip], [re.IGNORECASE], [\d] and [\s] are
      modelled on the ASCII range (the labels, eye markers, digits and
      separators the parser looks for are all ASCII); bytes above 127 are
      left unchanged by [upper], and are neither blanks nor digits. A text
      with a blank outside ASCII (U+00A0, U+0085), with a decimal digit
      outside ASCII, or with a letter whose upper case is not one letter
      (the German sharp s) is therefore read by the code in a way the model
      does not follow.
    - A pdfplumber table is a list of rows, a row a list of cells, a cell an
      optional string.
    - A [dict] with string keys is a [gmap string _]; its truth value is
      being different from the empty map.
    - Logging is dropped: it has no effect on any value. *)

From stdpp Require Import gmap strings list.
From Stdlib Require Import ZArith QArith Ascii String DecimalString.
From Stdlib Require DecimalFacts DecimalPos DecimalN.

Close Scope Q_scope.
Open Scope string_scope.
Open Scope nat_scope.

(** ** Python string primitives *)

Module Py.

Definition code (c : ascii) : nat := nat_of_ascii c.

(** [str.isspace] on the ASCII range: TAB..CR, FS..US and the blank. *)
Definition is_space (c : ascii) : bool :=
  let n := code c in
  ((9 <=? n) && (n <=? 13)) || ((28 <=? n) && (n <=? 32)).

Definition is_digit (c : ascii) : bool :=
  let n := code c in (48 <=? n) && (n <=? 57).

Definition is_upper (c : ascii) : bool :=
  let n := code c in (65 <=? n) && (n <=? 90).

Definition is_lower (c : ascii) : bool :=
  let n := code c in (97 <=? n) && (n <=? 122).

Definition upper_char (c : ascii) : ascii :=
  if is_lower c then ascii_of_nat (code c - 32) else c.

Definition lower_char (c : ascii) : ascii :=
  if is_upper c then ascii_of_nat (code c + 32) else c.

(** [s.upper()] *)
Fixpoint upper (s : string) : string :=
  match s with
  | EmptyString => EmptyString
  | String c s' => String (upper_char c) (upper s')
  end.

Definition is_empty (s : string) : bool :=
  match s with EmptyString => true | _ => false end.

(** The truth value of a string: [if s]. *)
Definition truthy (s : string) : bool := negb (is_empty s).

Fixpoint lstrip (s : string) : string :=
  match s with
  | String c s' => if is_space c then lstrip s' else s
  | EmptyString => EmptyString
  end.

Fixpoint rstrip (s : string) : string :=
  match s with
  | EmptyString => EmptyString
  | String c s' =>
      let r := rstrip s' in
      if is_space c && is_empty r then EmptyString else String c r
  end.

(** [s.strip()] *)
Definition strip (s : string) : string := rstrip (lstrip s).

(** [s.startswith(p)] *)
Fixpoint startswith (p s : string) : bool :=
  match p, s with
  | EmptyString, _ => true
  | String a p', String b s' => if Ascii.eqb a b then startswith p' s' else false
  | String _ _, EmptyString => false
  end.

(** [sub in s] *)
Fixpoint contains (sub s : string) : bool :=
  startswith sub s ||
  match s with
  | EmptyString => false
  | String _ s' => contains sub s'
  end.

(** [s.endswith(p)] *)
Fixpoint endswith (p s : string) : bool :=
  String.eqb p s ||
  match s with
  | EmptyString => false
  | String _ s' => endswith p s'
  end.

(** [s.replace(old, new)] for a non-empty [old]: the occurrences are taken
    from left to right and do not overlap. [skip] counts the characters of
    an occurrence still to be dropped. *)
Fixpoint replace_from (old new : string) (skip : nat) (s : string) : string :=
  match s with
  | EmptyString => EmptyString
  | String c s' =>
      match skip with
      | S k => replace_from old new k s'
      | O =>
          if startswith old s
          then new +:+ replace_from old new (String.length old - 1) s'
          else String c (replace_from old new 0 s')
      end
  end.

Definition replace (old new s : string) : string := replace_from old new 0 s.

(** [s.split(sep)] for a one-character separator; never the empty list. *)
Fixpoint split (sep : ascii) (s : string) : list string :=
  match s with
  | EmptyString => [EmptyString]
  | String c s' =>
      if Ascii.eqb c sep then EmptyString :: split sep s'
      else match split sep s' with
           | w :: ws => String c w :: ws
           | [] => [String c EmptyString]
           end
  end.

(** [sep.join(l)] *)
Fixpoint join (sep : string) (l : list string) : string :=
  match l with
  | [] => EmptyString
  | [x] => x
  | x :: rest => x +:+ sep +:+ join sep rest
  end.

(** [re.sub(r'\D', '', s)]: the digits of [s], in order. *)
Fixpoint digits_only (s : string) : string :=
  match s with
  | EmptyString => EmptyString
  | String c s' => if is_digit c then String c (digits_only s') else digits_only s'
  end.

Fixpoint str_take (n : nat) (s : string) : string :=
  match n, s with
  | S k, String c s' => String c (str_take k s')
  | _, _ => EmptyString
  end.

Definition nl : ascii := ascii_of_nat 10.

End Py.

(** ** Regular expressions

    The patterns of the parser use literals, character classes, [*], [+],
    [*?], bounded repetition of a class, alternation and capture groups.
    [rmatch] is a backtracking matcher in continuation-passing style with
    the priorities of Python's [re]: a greedy star tries the longest run
    first, a lazy star the shortest, an alternation its left branch. *)

Module Re.

Inductive regex : Type :=
| Eps
| Cls (p : ascii -> bool)
| Seq (r1 r2 : regex)
| Alt (r1 r2 : regex)
| Star (p : ascii -> bool)
| StarLazy (p : ascii -> bool)
| Grp (n : nat) (r : regex).

Definition captures := nat -> option string.

Definition no_captures : captures := fun _ => None.

Definition set_capture (n : nat) (v : string) (g : captures) : captures :=
  fun i => if Nat.eqb i n then Some v else g i.

Section Matcher.
Context {A : Type}.

Fixpoint star_greedy (p : ascii -> bool) (s : string) (k : string -> option A) : option A :=
  match s with
  | String c s' =>
      if p c then
        match star_greedy p s' k with
        | Some x => Some x
        | None => k s
        end
      else k s
  | EmptyString => k s
  end.

Fixpoint star_lazy (p : ascii -> bool) (s : string) (k : string -> option A) : option A :=
  match k s with
  | Some x => Some x
  | None =>
      match s with
      | String c s' => if p c then star_lazy p s' k else None
      | EmptyString => None
      end
  end.

Fixpoint rmatch (r : regex) (s : string) (g : captures)
    (k : string -> captures -> option A) : option A :=
  match r with
  | Eps => k s g
  | Cls p =>
      match s with
      | String c s' => if p c then k s' g else None
      | EmptyString => None
      end
  | Seq r1 r2 => rmatch r1 s g (fun s' g' => rmatch r2 s' g' k)
  | Alt r1 r2 =>
      match rmatch r1 s g k with
      | Some x => Some x
      | None => rmatch r2 s g k
      end
  | Star p => star_greedy p s (fun s' => k s' g)
  | StarLazy p => star_lazy p s (fun s' => k s' g)
  | Grp n r1 =>
      rmatch r1 s g
        (fun s' g' => k s' (set_capture n (Py.str_take (String.length s - String.length s') s) g'))
  end.

End Matcher.

(** [re.match(r, s)]: the captures and the unmatched rest of [s]. *)
Definition match_at (r : regex) (s : string) : option (captures * string) :=
  rmatch r s no_captures (fun s' g => Some (g, s')).

(** [re.search(r, s)]: the leftmost position at which [r] matches. *)
Fixpoint search (r : regex) (s : string) : option captures :=
  match match_at r s with
  | Some (g, _) => Some g
  | None =>
      match s with
      | String _ s' => search r s'
      | EmptyString => None
      end
  end.

(** [re.search(r, s).group(1)] when there is a match. *)
Definition search_group1 (r : regex) (s : string) : option string :=
  match search r s with
  | Some g => g 1
  | None => None
  end.

(** [re.findall(r, s)] for a pattern without groups whose matches are never
    empty: the matched substrings from left to right. The fuel bounds the
    number of scanning steps by the length of the text. *)
Fixpoint findall_fuel (fuel : nat) (r : regex) (s : string) : list string :=
  match fuel with
  | O => []
  | S f =>
      match match_at r s with
      | Some (_, rest) =>
          let n := String.length s - String.length rest in
          match n with
          | O => match s with
                 | String _ s' => findall_fuel f r s'
                 | EmptyString => []
                 end
          | S _ => Py.str_take n s :: findall_fuel f r rest
          end
      | None =>
          match s with
          | String _ s' => findall_fuel f r s'
          | EmptyString => []
          end
      end
  end.

Definition findall (r : regex) (s : string) : list string :=
  findall_fuel (S (String.length s)) r s.

(** Pattern builders. *)

Definition chr (a : ascii) : regex := Cls (Ascii.eqb a).

Definition ci (p : ascii -> bool) : ascii -> bool :=
  fun c => p c || p (Py.upper_char c) || p (Py.lower_char c).

(** A literal string; with [re.IGNORECASE], [lit_ci]. *)
Fixpoint lit (s : string) : regex :=
  match s with
  | EmptyString => Eps
  | String c s' => Seq (chr c) (lit s')
  end.

Fixpoint lit_ci (s : string) : regex :=
  match s with
  | EmptyString => Eps
  | String c s' => Seq (Cls (ci (Ascii.eqb c))) (lit_ci s')
  end.

Definition plus (p : ascii -> bool) : regex := Seq (Cls p) (Star p).
Definition opt (r : regex) : regex := Alt r Eps.

Definition any : ascii -> bool := fun _ => true.
Definition one_of (l : string) : ascii -> bool :=
  fun c => existsb (Ascii.eqb c) (list_ascii_of_string l).
Definition por (p q : ascii -> bool) : ascii -> bool := fun c => p c || q c.

Definition digit : ascii -> bool := Py.is_digit.
Definition space : ascii -> bool := Py.is_space.

(** [[\d,\.]] *)
Definition numchar : ascii -> bool := por digit (one_of ",.").
(** [[:\s]] *)
Definition colon_space : ascii -> bool := por (one_of ":") space.

Fixpoint seqs (l : list regex) : regex :=
  match l with
  | [] => Eps
  | [r] => r
  | r :: rest => Seq r (seqs rest)
  end.

End Re.

(** ** Python numbers: [float(s)], [int(s)] and [str(n)] *)

Module Num.

Import Py.

(** The rest of a [digitpart] after one of its digits: digits, each
    optionally preceded by one underscore. Returns the digits read and the
    unread text. *)
Fixpoint digitpart_rest (s : string) : string * string :=
  match s with
  | EmptyString => (EmptyString, EmptyString)
  | String c s' =>
      if is_digit c then
        let (d, r) := digitpart_rest s' in (String c d, r)
      else if Ascii.eqb c "_" then
        match s' with
        | String c2 s'' =>
            if is_digit c2 then
              let (d, r) := digitpart_rest s'' in (String c2 d, r)
            else (EmptyString, s)
        | EmptyString => (EmptyString, s)
        end
      else (EmptyString, s)
  end.

(** [digitpart ::= digit (["_"] digit)*] *)
Definition digitpart (s : string) : option (string * string) :=
  match s with
  | String c s' =>
      if is_digit c then
        let (d, r) := digitpart_rest s' in Some (String c d, r)
      else None
  | EmptyString => None
  end.

Definition digit_val (c : ascii) : Z := Z.of_nat (code c - 48).

(** The number written by a string of digits. *)
Fixpoint digits_acc (acc : Z) (s : string) : Z :=
  match s with
  | EmptyString => acc
  | String c s' => digits_acc (10 * acc + digit_val c)%Z s'
  end.

Definition digits_val (s : string) : Z := digits_acc 0 s.

(** [sign ::= "+" | "-"]; [true] for a minus sign. *)
Definition sign (s : string) : bool * string :=
  match s with
  | String c s' =>
      if Ascii.eqb c "-" then (true, s')
      else if Ascii.eqb c "+" then (false, s')
      else (false, s)
  | EmptyString => (false, s)
  end.

(** A float as [float()] reads it: the exact decimal value the literal
    denotes (which [float] then rounds to the nearest binary64 number), an
    infinity, or a NaN. *)
Inductive pyfloat : Type :=
| FNum (v : Q)
| FInf (negative : bool)
| FNan.

(** [number ::= [digitpart] "." digitpart | digitpart ["."]]: the integer
    digits, the fraction digits and the unread text. *)
Definition number (s : string) : option (string * string * string) :=
  match digitpart s with
  | Some (ip, r) =>
      match r with
      | String c r' =>
          if Ascii.eqb c "." then
            match digitpart r' with
            | Some (fp, r'') => Some (ip, fp, r'')
            | None => Some (ip, EmptyString, r')
            end
          else Some (ip, EmptyString, r)
      | EmptyString => Some (ip, EmptyString, r)
      end
  | None =>
      match s with
      | String c r' =>
          if Ascii.eqb c "." then
            match digitpart r' with
            | Some (fp, r'') => Some (EmptyString, fp, r'')
            | None => None
            end
          else None
      | EmptyString => None
      end
  end.

(** [exponent ::= ("e" | "E") [sign] digitpart]; an absent exponent is 0. *)
Definition exponent (s : string) : option (Z * string) :=
  match s with
  | String c s' =>
      if Ascii.eqb (upper_char c) "E" then
        let (neg, r) := sign s' in
        match digitpart r with
        | Some (d, r') => Some (if neg then (- digits_val d)%Z else digits_val d, r')
        | None => None
        end
      else Some (0%Z, s)
  | EmptyString => Some (0%Z, s)
  end.

Definition pow10 (e : Z) : Q :=
  if (0 <=? e)%Z then inject_Z (10 ^ e) else Qinv (inject_Z (10 ^ (- e))).

Definition absfloatvalue (s : string) : option pyfloat :=
  let u := upper s in
  if String.eqb u "INF" || String.eqb u "INFINITY" then Some (FInf false)
  else if String.eqb u "NAN" then Some FNan
  else
    match number s with
    | Some (ip, fp, r) =>
        match exponent r with
        | Some (e, EmptyString) =>
            let mant := digits_val (ip +:+ fp) in
            Some (FNum (inject_Z mant * pow10 (e - Z.of_nat (String.length fp)))%Q)
        | _ => None
        end
    | None => None
    end.

Definition fneg (f : pyfloat) : pyfloat :=
  match f with
  | FNum v => FNum (- v)%Q
  | FInf b => FInf (negb b)
  | FNan => FNan
  end.

(** The blanks [float] and [int] skip at both ends of an ASCII text: TAB..CR
    and the blank. The separators FS..US, which [str.strip] removes, are no
    blanks here: [float("95\x1c")] raises [ValueError]. *)
Definition is_blank (c : ascii) : bool :=
  let n := code c in ((9 <=? n) && (n <=? 13)) || (n =? 32).

Fixpoint skip_left (s : string) : string :=
  match s with
  | String c s' => if is_blank c then skip_left s' else s
  | EmptyString => EmptyString
  end.

Fixpoint skip_right (s : string) : string :=
  match s with
  | EmptyString => EmptyString
  | String c s' =>
      let r := skip_right s' in
      if is_blank c && is_empty r then EmptyString else String c r
  end.

Definition skip_blanks (s : string) : string := skip_right (skip_left s).

(** [float(s)]; [None] stands for [ValueError]. *)
Definition float (s : string) : option pyfloat :=
  let (neg, r) := sign (skip_blanks s) in
  match absfloatvalue r with
  | Some f => Some (if neg then fneg f else f)
  | None => None
  end.

(** [x > 0.5] for [x = float(s)]. Rounding to nearest-even is monotone and
    0.5 is a binary64 number whose successor is [0.5 + 2^-53], so the
    rounded value exceeds 0.5 exactly when the decimal value exceeds the
    midpoint [0.5 + 2^-54] (the tie rounds to the even neighbour, 0.5). *)
Definition gt_half (f : pyfloat) : bool :=
  match f with
  | FNum v => negb (Qle_bool v ((1 # 2) + (1 # 2 ^ 54)))
  | FInf negative => negb negative
  | FNan => false
  end.

(** [x < 100] for [x = float(s)]: 100 is a binary64 number whose
    predecessor is [100 - 2^-46], and the tie at [100 - 2^-47] rounds to
    the even neighbour, 100. *)
Definition lt_100 (f : pyfloat) : bool :=
  match f with
  | FNum v => negb (Qle_bool (100 - (1 # 2 ^ 47)) v)
  | FInf negative => negative
  | FNan => false
  end.

(** [int(s)] in base 10; [None] stands for [ValueError]. The interpreter's
    limit on the number of digits of an integer literal is not modelled. *)
Definition int (s : string) : option Z :=
  let (neg, r) := sign (skip_blanks s) in
  match digitpart r with
  | Some (d, EmptyString) => Some (if neg then (- digits_val d)%Z else digits_val d)
  | _ => None
  end.

(** [str(n)] for an integer [n]. *)
Definition str (n : Z) : string := DecimalString.NilZero.string_of_int (Z.to_int n).

End Num.

(** ** The IOLMaster 700 parser: [IOL700Parser] *)

Module IOL700Parser.

Import Py Re.

(** A table cell as pdfplumber yields it: a string or [None]. *)
Definition cell : Type := option string.
Definition row : Type := list cell.
Definition table : Type := list row.

(** [if cell]: the cell is neither [None] nor the empty string. *)
Definition cell_truthy (c : cell) : bool :=
  match c with
  | Some s => truthy s
  | None => false
  end.

(** [str(cell) if cell else ""] *)
Definition cell_text (c : cell) : string :=
  match c with
  | Some s => s
  | None => EmptyString
  end.

(** [row[i]] guarded by [i < len(row)]: a missing cell reads as [None]. *)
Definition cell_at (r : row) (i : nat) : cell :=
  match r !! i with
  | Some c => c
  | None => None
  end.

(** *** [_is_numeric] *)
Definition _is_numeric (value : string) : bool :=
  match Num.float (replace "," "." value) with
  | Some _ => true
  | None => false
  end.

(** *** [_extract_value_from_cell] *)

(** [val.replace("mm", "").replace("D", "").replace("°", "").strip()] *)
Definition strip_cell_units (val : string) : string :=
  strip (replace "°" "" (replace "D" "" (replace "mm" "" val))).

Definition numeric_cell (c : cell) : option string :=
  if cell_truthy c then
    let val := strip_cell_units (strip (cell_text c)) in
    if _is_numeric val then Some val else None
  else None.

Definition _extract_value_from_cell (r : row) (col_idx : nat) (t : table) (row_idx : nat) : string :=
  match numeric_cell (cell_at r col_idx) with
  | Some val => val
  | None =>
      match numeric_cell (cell_at r (col_idx + 1)) with
      | Some val => val
      | None =>
          match t !! (row_idx + 1) with
          | Some below =>
              match numeric_cell (cell_at below col_idx) with
              | Some val => val
              | None => EmptyString
              end
          | None => EmptyString
          end
      end
  end.

(** *** [_extract_value_from_text] *)

(** [rf"{label}\s*[:=]\s*([\d,\.]+)"]; the labels passed are plain
    alphanumeric words, which stand for themselves in a pattern. *)
Definition pattern1 (label : string) : regex :=
  seqs [lit label; Star space; Cls (one_of ":="); Star space; Grp 1 (plus numchar)].

(** [rf"{label}.*?([\d,\.]+)"] with [re.DOTALL] *)
Definition pattern2 (label : string) : regex :=
  seqs [lit label; StarLazy any; Grp 1 (plus numchar)].

(** [r"[\d,\.]+"] *)
Definition number_token : regex := plus numchar.

(** The cleaning of a captured value: units removed, then the decimal
    comma turned into a point. *)
Definition clean_value (val : string) : string :=
  replace "," "."
    (strip (replace "°" "" (replace "D" "" (replace "µ" "" (replace "µm" ""
      (replace "mm" "" val)))))).

(** One capture strategy: search, clean, accept only a numeric value. *)
Definition capture_value (r : regex) (text_upper : string) : option string :=
  match search_group1 r text_upper with
  | Some g =>
      let val := clean_value (strip g) in
      if _is_numeric val then Some val else None
  | None => None
  end.

(** [num_val > 0.5 and num_val < 100] for [num_val = float(val)] *)
Definition plausible (val : string) : bool :=
  match Num.float val with
  | Some f => Num.gt_half f && Num.lt_100 f
  | None => false
  end.

(** The loop of pattern 3 over the tokens of [re.findall]. *)
Fixpoint first_plausible (numbers : list string) : string :=
  match numbers with
  | [] => EmptyString
  | num_str :: rest =>
      let val := strip (replace "," "." num_str) in
      if _is_numeric val && plausible val then val else first_plausible rest
  end.

Definition _extract_value_from_text (text label : string) : string :=
  let text_upper := upper text in
  match capture_value (pattern1 label) text_upper with
  | Some val => val
  | None =>
      match capture_value (pattern2 label) text_upper with
      | Some val => val
      | None => first_plausible (findall number_token text)
      end
  end.

(** *** [_extract_modele_implante] *)

(** [r"@\s*(\d+)\s*°"] *)
Definition axis_degree : regex :=
  seqs [chr "@"; Star space; Grp 1 (plus digit); Star space; lit "°"].

(** [r"@\s*(\d+)"] *)
Definition axis_plain : regex :=
  seqs [chr "@"; Star space; Grp 1 (plus digit)].

Definition search_next_cell (p : regex) (r : row) (col_idx : nat) : option string :=
  if cell_truthy (cell_at r (col_idx + 1))
  then search_group1 p (cell_text (cell_at r (col_idx + 1)))
  else None.

Definition _extract_modele_implante (cell_text : string) (r : row) (col_idx : nat) : string :=
  match search_group1 axis_degree cell_text with
  | Some v => v
  | None =>
      match search_next_cell axis_degree r col_idx with
      | Some v => v
      | None =>
          match search_group1 axis_plain cell_text with
          | Some v => v
          | None =>
              match search_next_cell axis_plain r col_idx with
              | Some v => v
              | None => EmptyString
              end
          end
      end
  end.

(** *** [datetime.strptime] for the directives [%d], [%m], [%Y], [%y]

    [strptime] turns the format into a regular expression, one named group
    per directive, matches it at the start of the text, and refuses text
    left over after the match. *)

Record date : Type := Date { year : Z; month : Z; day : Z }.

Definition range_cls (lo hi : nat) : ascii -> bool :=
  fun c => (lo <=? code c) && (code c <=? hi).

(** [(?P<d>3[0-1]|[1-2]\d|0[1-9]|[1-9]| [1-9])] *)
Definition directive_d : regex :=
  Grp 1
    (Alt (Seq (chr "3") (Cls (range_cls 48 49)))
    (Alt (Seq (Cls (range_cls 49 50)) (Cls digit))
    (Alt (Seq (chr "0") (Cls (range_cls 49 57)))
    (Alt (Cls (range_cls 49 57))
         (Seq (chr " ") (Cls (range_cls 49 57))))))).

(** [(?P<m>1[0-2]|0[1-9]|[1-9])] *)
Definition directive_m : regex :=
  Grp 2
    (Alt (Seq (chr "1") (Cls (range_cls 48 50)))
    (Alt (Seq (chr "0") (Cls (range_cls 49 57)))
         (Cls (range_cls 49 57)))).

(** [(?P<Y>\d\d\d\d)] *)
Definition directive_Y : regex :=
  Grp 3 (seqs [Cls digit; Cls digit; Cls digit; Cls digit]).

(** [(?P<y>\d\d)] *)
Definition directive_y : regex :=
  Grp 4 (Seq (Cls digit) (Cls digit)).

(** The regular expression of a format: a directive after [%], any other
    character as a literal. *)
Fixpoint format_regex (fmt : string) : regex :=
  match fmt with
  | EmptyString => Eps
  | String c rest =>
      if Ascii.eqb c "%" then
        match rest with
        | String k rest' =>
            let d :=
              if Ascii.eqb k "d" then directive_d
              else if Ascii.eqb k "m" then directive_m
              else if Ascii.eqb k "Y" then directive_Y
              else if Ascii.eqb k "y" then directive_y
              else chr k in
            Seq d (format_regex rest')
        | EmptyString => chr c
        end
      else Seq (chr c) (format_regex rest)
  end.

Definition group_int (g : captures) (n : nat) : option Z :=
  match g n with
  | Some s => Num.int s
  | None => None
  end.

Definition is_leap (y : Z) : bool :=
  ((y mod 4 =? 0) && (negb (y mod 100 =? 0) || (y mod 400 =? 0)))%Z.

Definition days_in_month (y m : Z) : Z :=
  if (m =? 2)%Z then (if is_leap y then 29 else 28)%Z
  else if ((m =? 4) || (m =? 6) || (m =? 9) || (m =? 11))%Z then 30%Z
  else 31%Z.

(** The checks of the [datetime] constructor. *)
Definition valid_date (y m d : Z) : bool :=
  ((1 <=? y) && (y <=? 9999) && (1 <=? m) && (m <=? 12) &&
   (1 <=? d) && (d <=? days_in_month y m))%Z.

Definition make_date (y m d : Z) : option date :=
  if valid_date y m d then Some (Date y m d) else None.

(** The year of a match: four digits as they are; two digits by the POSIX
    pivot (00..68 in the 2000s, 69..99 in the 1900s); 1900 without a year. *)
Definition match_year (g : captures) : Z :=
  match group_int g 3 with
  | Some y => y
  | None =>
      match group_int g 4 with
      | Some y => if (y <=? 68)%Z then (y + 2000)%Z else (y + 1900)%Z
      | None => 1900%Z
      end
  end.

(** [datetime.strptime(s, fmt)]; [None] stands for [ValueError]. *)
Definition strptime (s fmt : string) : option date :=
  match match_at (format_regex fmt) s with
  | Some (g, EmptyString) =>
      make_date (match_year g)
                (default 1%Z (group_int g 2))
                (default 1%Z (group_int g 1))
  | _ => None
  end.

(** [d.replace(year=y)] *)
Definition replace_year (d : date) (y : Z) : option date :=
  make_date y (month d) (day d).

(** *** [_calculate_age] *)

Definition date_formats : list string :=
  ["%d.%m.%Y"; "%d/%m/%Y"; "%d-%m-%Y";
   "%d.%m.%y"; "%d/%m/%y"; "%d-%m-%y";
   "%Y.%m.%d"; "%Y/%m/%d"; "%Y-%m-%d"].

(** The body of the [try] for one format: parse, then shift a two-digit
    year below 1950 by a century; a [ValueError] of either step moves on
    to the next format. *)
Definition try_format (birth_date_str fmt : string) : option date :=
  match strptime birth_date_str fmt with
  | Some birth_date =>
      if endswith "%y" fmt && (year birth_date <? 1950)%Z
      then replace_year birth_date (year birth_date + 100)
      else Some birth_date
  | None => None
  end.

Fixpoint parse_birth_date (fmts : list string) (birth_date_str : string) : option date :=
  match fmts with
  | [] => None
  | fmt :: rest =>
      match try_format birth_date_str fmt with
      | Some d => Some d
      | None => parse_birth_date rest birth_date_str
      end
  end.

(** [(today.month, today.day) < (birth_date.month, birth_date.day)] *)
Definition month_day_before (a b : date) : bool :=
  ((month a <? month b) || ((month a =? month b) && (day a <? day b)))%Z.

(** [_calculate_age]; [today] is the value of [datetime.now()]. *)
Definition _calculate_age (today : date) (birth_date_str : string) : string :=
  if is_empty birth_date_str then EmptyString
  else
    match parse_birth_date date_formats birth_date_str with
    | None => EmptyString
    | Some birth_date =>
        let age := (year today - year birth_date)%Z in
        let age := if month_day_before today birth_date then (age - 1)%Z else age in
        Num.str age
    end.

(** *** [_extract_from_tables] *)

(** An eye's accumulator: [od_data], [os_data]. *)
Abbreviation record := (gmap string string).

(** [if excel_col not in data: data[excel_col] = val] *)
Definition set_if_absent (excel_col val : string) (data : record) : record :=
  match data !! excel_col with
  | Some _ => data
  | None => <[excel_col := val]> data
  end.

(** [excel_col in data] *)
Definition has_key (excel_col : string) (data : record) : bool :=
  match data !! excel_col with
  | Some _ => true
  | None => false
  end.

(** [if data]: the dict is not empty. *)
Definition nonempty (data : record) : bool := negb (bool_decide (data = ∅)).

(** The label list of the three header-anchored patterns. *)
Definition meas_labels : list (string * string) :=
  [("AL", "AL"); ("CCT", "PACHY (mm)"); ("ACD", "ACD epit"); ("LT", "LT");
   ("K1", "K1"); ("K2", "K2"); ("WTW", "WTW (mm)")].

Definition FIELD_MAPPING : list (string * string) :=
  [("ID Patient", "ID Patient"); ("Né(e) le", "Âge"); ("AL", "AL");
   ("CCT", "PACHY (mm)"); ("ACD", "ACD epit"); ("LT", "LT"); ("K1", "K1");
   ("K2", "K2"); ("WTW", "WTW (mm)"); ("Modèle implanté", "Axe")].

(** [FIELD_MAPPING.get(k, k)] *)
Definition field_mapping_get (k : string) : string :=
  match find (fun kv => String.eqb (fst kv) k) FIELD_MAPPING with
  | Some kv => snd kv
  | None => k
  end.

(** [" ".join([str(cell) if cell else "" for cell in row]).upper()] *)
Definition row_text (r : row) : string := upper (join " " (map cell_text r)).

(** The column state [(od_col_idx, os_col_idx)] while a header is resolved. *)
Definition columns : Type := (option nat * option nat)%type.

(** [x is not None] *)
Definition is_set (x : option nat) : bool :=
  match x with
  | Some _ => true
  | None => false
  end.

(** One cell of the header row (lines 180-193). *)
Definition header_cell (col_idx : nat) (c : cell) (st : columns) : columns :=
  let '(od_col_idx, os_col_idx) := st in
  if negb (cell_truthy c) then st
  else
    let cell_text := upper (cell_text c) in
    if contains "OD" cell_text && negb (contains "OS" cell_text) && negb (is_set od_col_idx)
    then (Some col_idx, os_col_idx)
    else if contains "OS" cell_text && negb (is_set os_col_idx)
    then (if negb (contains "OD" cell_text) then (od_col_idx, Some col_idx) else st)
    else st.

(** [for col_idx, cell in enumerate(row)] over the header row, from column
    [col_idx] on. *)
Fixpoint header_cells (col_idx : nat) (cells : row) (st : columns) : columns :=
  match cells with
  | [] => st
  | c :: rest => header_cells (S col_idx) rest (header_cell col_idx c st)
  end.

(** The column scan of a header row, from no column known. *)
Definition scan_header (r : row) : columns := header_cells 0 r (None, None).

(** [od_col_idx == os_col_idx and od_col_idx is not None] *)
Definition same_column (st : columns) : bool :=
  match st with
  | (Some a, Some b) => a =? b
  | _ => false
  end.

(** The update shared by the two data-row probes (lines 220-227, 236-243):
    a column in the left half may lower the OD column, one in the right
    half may set the OS column. *)
Definition assign_side (width col_idx : nat) (st : columns) : columns :=
  let '(od_col_idx, os_col_idx) := st in
  if col_idx <? width / 2 then
    match od_col_idx with
    | None => (Some col_idx, os_col_idx)
    | Some o => if col_idx <? o then (Some col_idx, os_col_idx) else st
    end
  else
    match os_col_idx with
    | None => (od_col_idx, Some col_idx)
    | Some _ => if default 0 od_col_idx <? col_idx then (od_col_idx, Some col_idx) else st
    end.

(** [r"AL:\s*([\d,\.]+)"] *)
Definition al_colon : regex :=
  seqs [lit "AL:"; Star space; Grp 1 (plus numchar)].

(** Lines 205-229 for one cell: an "AL:" value that [float] accepts. *)
Definition probe_al (width col_idx : nat) (c : cell) (st : columns) : columns :=
  let cell_upper := upper (cell_text c) in
  if contains "AL:" cell_upper then
    match search_group1 al_colon cell_upper with
    | Some g =>
        match Num.float (replace "," "." g) with
        | Some _ => assign_side width col_idx st
        | None => st
        end
    | None => st
    end
  else st.

(** Lines 232-243 for one cell: a multi-line cell naming AL or CCT. *)
Definition probe_multiline (width col_idx : nat) (c : cell) (st : columns) : columns :=
  let cell_val := cell_text c in
  if contains (String nl "") cell_val &&
     (contains "AL" (upper cell_val) || contains "CCT" (upper cell_val))
  then assign_side width col_idx st
  else st.

Fixpoint probe_cells (probe : nat -> nat -> cell -> columns -> columns)
    (width col_idx : nat) (cells : row) (st : columns) : columns :=
  match cells with
  | [] => st
  | c :: rest => probe_cells probe width (S col_idx) rest (probe width col_idx c st)
  end.

(** [od is not None and os is not None and od != os] *)
Definition separated (st : columns) : bool :=
  match st with
  | (Some a, Some b) => negb (a =? b)
  | _ => false
  end.

(** Lines 199-246: the rows below a combined header cell, until the two
    columns are told apart. *)
Fixpoint probe_rows (rows : list row) (st : columns) : columns :=
  match rows with
  | [] => st
  | check_row :: rest =>
      if List.length check_row <? 2 then probe_rows rest st
      else
        let n := List.length check_row in
        let st := probe_cells probe_al n 0 check_row st in
        let st := probe_cells probe_multiline n 0 check_row st in
        if separated st then st else probe_rows rest st
  end.

(** [max(len(row) for row in table if row)] *)
Definition max_cols (t : table) : nat := foldr Nat.max 0 (map (List.length (A:=cell)) t).

(** Lines 249-259: the positional guess. *)
Definition positional_columns (t : table) : columns :=
  if 4 <=? max_cols t then (Some 0, Some 4)
  else (Some 0, Some (if 1 <? max_cols t then max_cols t - 1 else 1)).

(** [range(a + 1, min(a + n, len(table)))] as the rows it visits. *)
Definition rows_after (t : table) (a n : nat) : list row :=
  take (n - 1) (drop (S a) t).

(** Lines 176-259 for the header row at [row_idx]. *)
Definition resolve_columns (t : table) (row_idx : nat) (r : row) : columns :=
  let st := scan_header r in
  let st := if same_column st then probe_rows (rows_after t row_idx 10) st else st in
  if same_column st then positional_columns t else st.

(** [has_od or has_os] for a row. *)
Definition has_eye_marker (r : row) : bool :=
  contains "OD" (row_text r) || contains "OS" (row_text r).

(** Lines 165-261: the first non-empty row with an eye marker is the
    header; the scan stops there. *)
Fixpoint find_header (t : table) (row_idx : nat) (rows : list row) : option (nat * columns) :=
  match rows with
  | [] => None
  | r :: rest =>
      match r with
      | [] => find_header t (S row_idx) rest
      | _ :: _ =>
          if has_eye_marker r then Some (row_idx, resolve_columns t row_idx r)
          else find_header t (S row_idx) rest
      end
  end.

(** Lines 269-279: the OS column when the header gave none. Both outcomes
    of the probe for "AL:" in column 4 are column 4. *)
Definition default_os_column (t : table) (header_row_idx : nat) : nat :=
  if existsb
       (fun check_row =>
          (4 <? List.length check_row) && cell_truthy (cell_at check_row 4) &&
          contains "AL:" (upper (cell_text (cell_at check_row 4))))
       (rows_after t header_row_idx 6)
  then 4 else 4.

(** The two accumulators [(od_data, os_data)]. *)
Definition eyes : Type := (record * record)%type.

(** [for col_idx, cell in enumerate(row)] with a loop body [f]. *)
Fixpoint for_cells {St : Type} (f : nat -> cell -> St -> St) (col_idx : nat)
    (cells : row) (st : St) : St :=
  match cells with
  | [] => st
  | c :: rest => for_cells f (S col_idx) rest (f col_idx c st)
  end.

(** Lines 311-326: the accumulator an inline match goes to. *)
Definition write_by_column (od_col_idx os_col_idx col_idx : nat)
    (excel_col val : string) (st : eyes) : eyes :=
  let '(od_data, os_data) := st in
  if col_idx =? od_col_idx then (set_if_absent excel_col val od_data, os_data)
  else if col_idx =? os_col_idx then (od_data, set_if_absent excel_col val os_data)
  else if col_idx <? 4 then (set_if_absent excel_col val od_data, os_data)
  else (od_data, set_if_absent excel_col val os_data).

(** Pattern 1 (lines 294-326): "LABEL: value" inside a cell. *)
Definition inline_label (od_col_idx os_col_idx col_idx : nat) (cell_text : string)
    (st : eyes) (lbl : string * string) : eyes :=
  let '(meas_label, excel_col) := lbl in
  if contains (meas_label +:+ ":") (upper cell_text) then
    let val := _extract_value_from_text cell_text meas_label in
    if truthy val then write_by_column od_col_idx os_col_idx col_idx excel_col val st
    else st
  else st.

Definition inline_cell (od_col_idx os_col_idx col_idx : nat) (c : cell) (st : eyes) : eyes :=
  if negb (cell_truthy c) then st
  else foldl (inline_label od_col_idx os_col_idx col_idx (cell_text c)) st meas_labels.

(** Lines 357-364: the accumulator a multi-line match goes to. *)
Definition write_by_half (col_idx : nat) (excel_col val : string) (st : eyes) : eyes :=
  let '(od_data, os_data) := st in
  if col_idx <? 4 then (set_if_absent excel_col val od_data, os_data)
  else (od_data, set_if_absent excel_col val os_data).

(** Pattern 2 (lines 330-364): a multi-line cell, label on its first
    non-blank line, value on the second. *)
Definition multiline_label (col_idx : nat) (cell_str first_line second_line : string)
    (st : eyes) (lbl : string * string) : eyes :=
  let '(meas_label, excel_col) := lbl in
  if contains meas_label first_line then
    let val := _extract_value_from_text second_line meas_label in
    let val := if truthy val then val else _extract_value_from_text cell_str meas_label in
    if truthy val then write_by_half col_idx excel_col val st else st
  else st.

Definition multiline_cell (col_idx : nat) (c : cell) (st : eyes) : eyes :=
  if negb (cell_truthy c) then st
  else
    let cell_str := cell_text c in
    if contains (String nl "") cell_str then
      match List.filter truthy (map strip (split nl cell_str)) with
      | l0 :: second_line :: _ =>
          foldl (multiline_label col_idx cell_str (upper l0) second_line) st meas_labels
      | _ => st
      end
    else st.

(** Pattern 3 (lines 368-412), one label in one cell. *)
Definition column_label (cell_text : string) (data : record) (lbl : string * string) : record :=
  let '(meas_label, excel_col) := lbl in
  if contains meas_label (upper cell_text) && negb (has_key excel_col data) then
    let val := _extract_value_from_text cell_text meas_label in
    if truthy val then <[excel_col := val]> data else data
  else data.

(** The axis next to K1 (lines 386-390 and 408-412). *)
Definition column_axis (cell_text : string) (r : row) (col_idx : nat) (data : record) : record :=
  if contains "K1" (upper cell_text) && negb (has_key "Axe" data) then
    let modele_val := _extract_modele_implante cell_text r col_idx in
    if truthy modele_val then <["Axe" := modele_val]> data else data
  else data.

Definition column_side (r : row) (col_idx : nat) (cell_text : string) (data : record) : record :=
  column_axis cell_text r col_idx (foldl (column_label cell_text) data meas_labels).

Definition column_cell (r : row) (col_idx : nat) (c : cell) (st : eyes) : eyes :=
  let '(od_data, os_data) := st in
  if negb (cell_truthy c) then st
  else if col_idx <? 4 then (column_side r col_idx (cell_text c) od_data, os_data)
  else (od_data, column_side r col_idx (cell_text c) os_data).

(** The body of the loop over the rows below the header (lines 284-412). *)
Definition extract_row (od_col_idx os_col_idx : nat) (st : eyes) (r : row) : eyes :=
  match r with
  | [] => st
  | _ :: _ =>
      let st := for_cells (inline_cell od_col_idx os_col_idx) 0 r st in
      let st := for_cells multiline_cell 0 r st in
      for_cells (column_cell r) 0 r st
  end.

(** Lines 161-412: header search, column defaults, and the scan of
    [range(header_row_idx + 1, min(header_row_idx + 20, len(table)))]. *)
Definition extract_structured (t : table) (st : eyes) : eyes :=
  match find_header t 0 t with
  | Some (header_row_idx, (od_col_idx, os_col_idx)) =>
      let od_col_idx := default 0 od_col_idx in
      let os_col_idx :=
        match os_col_idx with
        | Some c => c
        | None => default_os_column t header_row_idx
        end in
      foldl (extract_row od_col_idx os_col_idx) st (rows_after t header_row_idx 20)
  | None => st
  end.

(** Lines 432-437 and 445-450: the unguarded write of the fallback. *)
Definition fallback_write (has_od has_os : bool) (width col_idx : nat)
    (excel_col val : string) (st : eyes) : eyes :=
  let '(od_data, os_data) := st in
  if has_od && (col_idx <? width / 2) then (<[excel_col := val]> od_data, os_data)
  else if has_os && (width / 2 <=? col_idx) then (od_data, <[excel_col := val]> os_data)
  else st.

Definition fallback_labels : list (string * string) :=
  [("CCT", "CCT"); ("ACD", "ACD"); ("LT", "LT"); ("K1", "K1"); ("K2", "K2"); ("WTW", "WTW")].

Definition fallback_label (t : table) (row_idx : nat) (r : row) (has_od has_os : bool)
    (col_idx : nat) (cell_text : string) (st : eyes) (lbl : string * string) : eyes :=
  let '(field_key, field_label) := lbl in
  if contains field_label cell_text then
    fallback_write has_od has_os (List.length r) col_idx (field_mapping_get field_label)
      (_extract_value_from_cell r col_idx t row_idx) st
  else st.

Definition fallback_cell (t : table) (row_idx : nat) (r : row) (has_od has_os : bool)
    (col_idx : nat) (c : cell) (st : eyes) : eyes :=
  let cell_text := upper (cell_text c) in
  let st :=
    if contains "AL" cell_text then
      fallback_write has_od has_os (List.length r) col_idx "AL"
        (_extract_value_from_cell r col_idx t row_idx) st
    else st in
  foldl (fallback_label t row_idx r has_od has_os col_idx cell_text) st fallback_labels.

(** Lines 417-450: every row of the table that carries an eye marker. *)
Fixpoint fallback_rows (t : table) (row_idx : nat) (rows : list row) (st : eyes) : eyes :=
  match rows with
  | [] => st
  | r :: rest =>
      let has_od := contains "OD" (row_text r) in
      let has_os := contains "OS" (row_text r) in
      let st :=
        match r with
        | [] => st
        | _ :: _ =>
            if has_od || has_os
            then for_cells (fallback_cell t row_idx r has_od has_os) 0 r st
            else st
        end in
      fallback_rows t (S row_idx) rest st
  end.

(** The body of the loop over the tables (lines 147-450). *)
Definition process_table (st : eyes) (t : table) : eyes :=
  if List.length t <? 2 then st
  else
    let st := extract_structured t st in
    if negb (nonempty (fst st)) && negb (nonempty (snd st))
    then fallback_rows t 0 t st
    else st.

(** Lines 455-485 for one eye: a default record for an empty accumulator,
    else the identity fields and the three keys that are always present. *)
Definition finalize (eye patient_id age : string) (data : record) : record :=
  if negb (nonempty data) then
    <["Axe" := ""]> (<["K2" := ""]> (<["K1" := ""]> (<["Âge" := age]>
      (<["ID Patient" := patient_id]> (<["Œil" := eye]> ∅)))))
  else
    set_if_absent "Axe" "" (set_if_absent "K2" "" (set_if_absent "K1" ""
      (<["Âge" := age]> (<["ID Patient" := patient_id]> (<["Œil" := eye]> data))))).

(** The accumulators after all tables. *)
Definition accumulate (tables : list table) : eyes := foldl process_table (∅, ∅) tables.

(** [_extract_from_tables]; [None] stands for the pair [(None, None)]. *)
Definition _extract_from_tables (tables : list table) (patient_id age : string)
    : option (record * record) :=
  let '(od_data, os_data) := accumulate tables in
  if nonempty od_data || nonempty os_data
  then Some (finalize "OD" patient_id age od_data, finalize "OS" patient_id age os_data)
  else None.

(** *** [_extract_field], [_extract_numeric_field], [_extract_eye_data]

    Every pattern below is searched with [re.IGNORECASE]; [re.MULTILINE] has
    no effect on them (no anchors), and [re.DOTALL] lets [.] match a line
    break. *)

Definition _extract_field (text : string) (pattern : regex) : string :=
  match search_group1 pattern text with
  | Some g => strip g
  | None => EmptyString
  end.

Definition _extract_numeric_field (text : string) (pattern : regex) : string :=
  match search_group1 pattern text with
  | Some g =>
      let value := replace "," "." (strip g) in
      match Num.float value with
      | Some _ => value
      | None => EmptyString
      end
  | None => EmptyString
  end.

(** [a] when it is a non-empty string, else [b]: the chain
    [x = f(p1); if not x: x = f(p2)]. *)
Definition or_else (a b : string) : string := if truthy a then a else b.

(** [rf"{eye}[:\s]*"] *)
Definition eye_pattern (eye : string) : regex := Seq (lit_ci eye) (Star colon_space).

(** [rf"{eye_pattern}.*?LABEL[:\s]+([\d.,]+)"] *)
Definition eye_then_label (eye label : string) : regex :=
  seqs [eye_pattern eye; StarLazy any; lit_ci label; plus colon_space; Grp 1 (plus numchar)].

(** [rf"LABEL[:\s]+([\d.,]+).*?{eye}"] *)
Definition label_then_eye (eye label : string) : regex :=
  seqs [lit_ci label; plus colon_space; Grp 1 (plus numchar); StarLazy any; lit_ci eye].

(** [rf"{eye_pattern}.*?AL[:\s]+([\d.,]+)\s*mm"] *)
Definition eye_then_al_mm (eye : string) : regex :=
  seqs [eye_pattern eye; StarLazy any; lit_ci "AL"; plus colon_space;
        Grp 1 (plus numchar); Star space; lit_ci "mm"].

(** [rf"{eye_pattern}.*?ACD\s+epit[:\s]+([\d.,]+)"] *)
Definition eye_then_acd_epit (eye : string) : regex :=
  seqs [eye_pattern eye; StarLazy any; lit_ci "ACD"; plus space; lit_ci "epit";
        plus colon_space; Grp 1 (plus numchar)].

(** [rf"{eye_pattern}.*?@\s*(\d+)\s*°"] and the same without the degree
    mark. *)
Definition eye_then_axis_degree (eye : string) : regex :=
  seqs [eye_pattern eye; StarLazy any; axis_degree].

Definition eye_then_axis_plain (eye : string) : regex :=
  seqs [eye_pattern eye; StarLazy any; axis_plain].

(** The two proximity patterns every field tries first. *)
Definition two_patterns (text eye label : string) : string :=
  or_else (_extract_numeric_field text (eye_then_label eye label))
          (_extract_numeric_field text (label_then_eye eye label)).

Definition axe_match (text eye : string) : option string :=
  match search_group1 (eye_then_axis_degree eye) text with
  | Some v => Some v
  | None =>
      match search_group1 axis_degree text with
      | Some v => Some v
      | None =>
          match search_group1 (eye_then_axis_plain eye) text with
          | Some v => Some v
          | None => search_group1 axis_plain text
          end
      end
  end.

Definition _extract_eye_data (text eye : string) : record :=
  let al := or_else (two_patterns text eye "AL")
                    (_extract_numeric_field text (eye_then_al_mm eye)) in
  let data : record := <["AL" := replace "," "." al]> ∅ in
  let cct := or_else (two_patterns text eye "CCT")
                     (_extract_numeric_field text (eye_then_label eye "PACHY")) in
  let data := <["PACHY (mm)" := replace "," "." cct]> data in
  let acd := or_else (two_patterns text eye "ACD")
                     (_extract_numeric_field text (eye_then_acd_epit eye)) in
  let data := <["ACD epit" := replace "," "." acd]> data in
  let data := <["LT" := replace "," "." (two_patterns text eye "LT")]> data in
  let data := <["K1" := replace "," "." (two_patterns text eye "K1")]> data in
  let data := <["K2" := replace "," "." (two_patterns text eye "K2")]> data in
  let data := <["WTW (mm)" := replace "," "." (two_patterns text eye "WTW")]> data in
  <["Axe" := default "" (axe_match text eye)]> data.

(** *** [parse] *)

(** A page of the opened PDF: what [extract_tables] and [extract_text]
    return for it. *)
Record page : Type := Page { page_tables : list table; page_text : option string }.

Definition all_tables (pdf : list page) : list table := List.concat (map page_tables pdf).

Definition full_text (pdf : list page) : string :=
  foldr (fun pg acc => cell_text (page_text pg) +:+ acc) "" pdf.

(** [[A-Z0-9_\-\s]] under [re.IGNORECASE] *)
Definition id_char : ascii -> bool :=
  ci (por is_upper (por digit (por (one_of "_-") space))).

(** [r"ID\s+Patient[:\s]+([A-Z0-9_\-\s]+)"] *)
Definition id_patient_pattern : regex :=
  seqs [lit_ci "ID"; plus space; lit_ci "Patient"; plus colon_space; Grp 1 (plus id_char)].

(** [r"Patient[:\s]+ID[:\s]+([A-Z0-9_\-\s]+)"] *)
Definition patient_id_pattern : regex :=
  seqs [lit_ci "Patient"; plus colon_space; lit_ci "ID"; plus colon_space; Grp 1 (plus id_char)].

(** [r"ID\s+patient[:\s]+([A-Z0-9_\-\s]+)"] *)
Definition id_patient_lower_pattern : regex :=
  seqs [lit_ci "ID"; plus space; lit_ci "patient"; plus colon_space; Grp 1 (plus id_char)].

(** [(\d{1,2}[/\-\.]\d{1,2}[/\-\.]\d{2,4})] *)
Definition date_capture : regex :=
  let d := Cls digit in
  let sep := Cls (one_of "/-.") in
  Grp 1 (seqs [d; opt d; sep; d; opt d; sep; d; d; opt (Seq d (opt d))]).

(** [r"Né\(e\)\s+le[:\s]+(...)"]; the accented letter matches in either
    case. *)
Definition ne_le_pattern : regex :=
  seqs [lit_ci "N"; Alt (lit "é") (lit "É"); lit_ci "(e)"; plus space; lit_ci "le";
        plus colon_space; date_capture].

(** [r"Date\s+de\s+naissance[:\s]+(...)"] *)
Definition naissance_pattern : regex :=
  seqs [lit_ci "Date"; plus space; lit_ci "de"; plus space; lit_ci "naissance";
        plus colon_space; date_capture].

(** Lines 53-65. *)
Definition extract_patient_id (text : string) : string :=
  let patient_id :=
    or_else (_extract_field text id_patient_pattern)
      (or_else (_extract_field text patient_id_pattern)
               (_extract_field text id_patient_lower_pattern)) in
  if truthy patient_id then
    let digits := digits_only patient_id in
    if truthy digits then digits else strip patient_id
  else patient_id.

(** Lines 75-84 for the rows of one table: the value taken at the first
    row that names the birth date and has a third cell, where the row loop
    is left. *)
Fixpoint birth_date_in_rows (rows : list row) : option string :=
  match rows with
  | [] => None
  | r :: rest =>
      let first_cell := strip (cell_text (cell_at r 0)) in
      if (3 <=? List.length r) &&
         (contains "Né(e) le" first_cell || contains "Né" first_cell) &&
         cell_truthy (cell_at r 2)
      then Some (strip (cell_text (cell_at r 2)))
      else birth_date_in_rows rest
  end.

(** Lines 74-88 over the tables: the first table that yields a non-empty
    value. *)
Fixpoint birth_date_in_tables (tables : list table) : string :=
  match tables with
  | [] => EmptyString
  | t :: rest =>
      match birth_date_in_rows t with
      | Some v => if truthy v then v else birth_date_in_tables rest
      | None => birth_date_in_tables rest
      end
  end.

(** Lines 68-89. *)
Definition extract_birth_date (text : string) (tables : list table) : string :=
  let birth_date_str :=
    or_else (_extract_field text ne_le_pattern) (_extract_field text naissance_pattern) in
  if truthy birth_date_str then birth_date_str else birth_date_in_tables tables.

(** Lines 111-121 and 125-135: the record of the text fallback for one
    eye. *)
Definition text_record (text eye patient_id age : string) : record :=
  set_if_absent "Axe" "" (set_if_absent "K2" "" (set_if_absent "K1" ""
    (<["Œil" := eye]> (<["Âge" := age]> (<["ID Patient" := patient_id]>
      (_extract_eye_data text eye)))))).

(** The path [parse] takes. *)
Inductive path : Type := TablePath | TextPath.

(** [parse] together with the path it took; [today] is [datetime.now()]. *)
Definition parse_with_path (today : date) (pdf : list page) : path * list record :=
  let tables := all_tables pdf in
  let text := full_text pdf in
  let patient_id := extract_patient_id text in
  let birth_date_str := extract_birth_date text tables in
  let age := if truthy birth_date_str then _calculate_age today birth_date_str else "" in
  let fallback :=
    (TextPath, [text_record text "OD" patient_id age; text_record text "OS" patient_id age]) in
  match tables with
  | [] => fallback
  | _ :: _ =>
      match _extract_from_tables tables patient_id age with
      | Some (od_data, os_data) =>
          if nonempty od_data && nonempty os_data
          then (TablePath, [od_data; os_data])
          else fallback
      | None => fallback
      end
  end.

Definition parse (today : date) (pdf : list page) : list record :=
  snd (parse_with_path today pdf).

End IOL700Parser.

(** ** The spreadsheet merge: [excel_handler.merge_excel_data]

    The sheet "donnée" of the existing workbook is modelled by the cells
    that exist in it, each with its value; a workbook without that sheet
    gives the empty sheet. Asking for a cell ([ws.cell(row, column)]) creates
    it when it does not exist, which can move [max_row] and [max_column]: the
    accesses of the header scan and of the formatting copy are recorded for
    that reason. The reads of the loops over the data rows stay within the
    rows up to [max_row] and the columns of the header scan, so they move
    neither and are not recorded. Styles are not modelled, and saving and
    loading the workbook is taken to keep the cells (a cell holding the
    empty string comes back empty, which every read of the merge treats
    alike). The call without an existing workbook builds the sheet of
    [create_excel_from_rows]. *)

Module ExcelHandler.

Import Py.

(** A cell value: [None], a string, an integer, the float [float(literal)],
    or another object that is true (a date, [True]), given by its [str()]. *)
Inductive value : Type :=
| VNone
| VStr (s : string)
| VInt (n : Z)
| VFloat (literal : string)
| VOther (text : string).

Abbreviation worksheet := (gmap (nat * nat) value).
Abbreviation record := (gmap string string).
Abbreviation keys := (gset (string * string)).

(** [ws.max_row] and [ws.max_column]: 1 for a sheet without cells. *)
Definition max_row (ws : worksheet) : nat :=
  map_fold (fun k _ acc => Nat.max (fst k) acc) 1 ws.

Definition max_column (ws : worksheet) : nat :=
  map_fold (fun k _ acc => Nat.max (snd k) acc) 1 ws.

(** [ws.cell(row=r, column=c)]: the cell is created empty if it is new. *)
Definition touch (r c : nat) (ws : worksheet) : worksheet :=
  match ws !! (r, c) with
  | Some _ => ws
  | None => <[(r, c) := VNone]> ws
  end.

(** [ws.cell(row=r, column=c).value] *)
Definition cell_value (ws : worksheet) (r c : nat) : value :=
  default VNone (ws !! (r, c)).

(** [range(a, b)] *)
Definition range (a b : nat) : list nat := seq a (b - a).

Section Merge.

(** [str(x or "")] for the float [x = float(literal)]: its shortest
    round-trip text, or the empty string for a zero. *)
Variable float_text : string -> string.

(** [str(v or "")] *)
Definition text_or_empty (v : value) : string :=
  match v with
  | VNone => EmptyString
  | VStr s => s
  | VInt n => if (n =? 0)%Z then EmptyString else Num.str n
  | VFloat literal => float_text literal
  | VOther text => text
  end.

(** [v is not None and str(v).strip()] *)
Definition has_text (v : value) : bool :=
  match v with
  | VNone => false
  | VStr s => truthy (strip s)
  | VInt _ => true
  | VFloat _ => true
  | VOther text => truthy (strip text)
  end.

(** Lines 66-72 and 78-84: one header cell. *)
Definition read_header (header_row : nat) (st : gmap string nat * worksheet) (col_idx : nat)
    : gmap string nat * worksheet :=
  let '(column_map, ws) := st in
  let ws := touch header_row col_idx ws in
  let header_value := strip (text_or_empty (cell_value ws header_row col_idx)) in
  if truthy header_value then (<[header_value := col_idx]> column_map, ws)
  else (column_map, ws).

Definition read_headers (header_row max_cols_to_check : nat) (ws : worksheet)
    : gmap string nat * worksheet :=
  foldl (read_header header_row) (∅, ws) (range 1 (max_cols_to_check + 1)).

(** Lines 55-86: the header row, its column map, and the sheet after the
    header cells were looked at. *)
Definition locate_headers (ws : worksheet) : nat * gmap string nat * worksheet :=
  let max_cols_to_check := Nat.max (max_column ws) 100 in
  let '(column_map, ws2) := read_headers 2 max_cols_to_check ws in
  if bool_decide (column_map = ∅) then
    let '(column_map, ws1) := read_headers 1 max_cols_to_check ws2 in
    (1, column_map, ws1)
  else (2, column_map, ws2).

(** Lines 97-106. *)
Definition row_has_data (ws : worksheet) (column_map : gmap string nat) (row_idx : nat) : bool :=
  existsb (fun kv => has_text (cell_value ws row_idx (snd kv))) (map_to_list column_map).

Definition last_data_row (ws : worksheet) (column_map : gmap string nat) (header_row : nat) : nat :=
  foldl (fun last row_idx => if row_has_data ws column_map row_idx then row_idx else last)
        header_row (range (header_row + 1) (max_row ws + 1)).

(** [str(ws.cell(row, column).value or "").strip()] *)
Definition key_text (ws : worksheet) (row_idx col : nat) : string :=
  strip (text_or_empty (cell_value ws row_idx col)).

(** Lines 110-124. *)
Definition first_available_row (ws : worksheet) (column_map : gmap string nat)
    (header_row : nat) : nat :=
  let last := last_data_row ws column_map header_row in
  let after_data := if header_row <? last then last + 1 else header_row + 1 in
  match column_map !! "ID Patient", column_map !! "Œil" with
  | Some id_patient_col, Some oeil_col =>
      match find (fun row_idx => is_empty (key_text ws row_idx id_patient_col) &&
                                 is_empty (key_text ws row_idx oeil_col))
                 (range (header_row + 1) (max_row ws + 1)) with
      | Some row_idx => row_idx
      | None => after_data
      end
  | _, _ => after_data
  end.

(** Lines 129-137: the (patient id, eye) pairs of the data rows; none when
    a key column is missing. *)
Definition existing_keys (ws : worksheet) (column_map : gmap string nat)
    (header_row : nat) : keys :=
  match column_map !! "ID Patient", column_map !! "Œil" with
  | Some id_patient_col, Some oeil_col =>
      foldl (fun (ks : keys) row_idx =>
               let patient_id := key_text ws row_idx id_patient_col in
               let eye := key_text ws row_idx oeil_col in
               if truthy patient_id && truthy eye then {[ (patient_id, eye) ]} ∪ ks else ks)
            ∅ (range (header_row + 1) (max_row ws + 1))
  | _, _ => ∅
  end.

End Merge.

(** [str(row.get(k, "")).strip()] *)
Definition row_key (row : record) (k : string) : string := strip (default "" (row !! k)).

(** The (patient id, eye) pair of an incoming record. *)
Definition row_pair (row : record) : string * string :=
  (row_key row "ID Patient", row_key row "Œil").

(** Lines 139-151: the incoming records that are kept. *)
Fixpoint filter_new_rows (existing_keys : keys) (new_rows : list record) : list record :=
  match new_rows with
  | [] => []
  | row :: rest =>
      let patient_id := row_key row "ID Patient" in
      let eye := row_key row "Œil" in
      if truthy patient_id && truthy eye && negb (bool_decide ((patient_id, eye) ∈ existing_keys))
      then row :: filter_new_rows ({[ (patient_id, eye) ]} ∪ existing_keys) rest
      else filter_new_rows existing_keys rest
  end.

(** The fields written as numbers (line 263). *)
Definition numeric_fields : list string :=
  ["AL"; "ACD epit"; "LT"; "PACHY (mm)"; "WTW (mm)"; "PUISSANCE IOL";
   "TORIQUE PROG EDOF"; "K1"; "K2"; "Âge"].

(** Lines 236-273: the cell value written for a field. *)
Definition convert_value (field_name val : string) : value :=
  if is_empty val then VStr val
  else if String.eqb field_name "ID Patient" then
    let digits := digits_only val in
    if truthy digits then
      match Num.int digits with
      | Some n => VInt n
      | None => VStr digits
      end
    else VStr (strip val)
  else if String.eqb field_name "Modèle implanté" then
    let digits := digits_only val in
    if truthy digits then
      match Num.int digits with
      | Some n => VInt n
      | None => VStr (strip val)
      end
    else VStr (strip val)
  else if existsb (String.eqb field_name) numeric_fields then
    let num_str := strip (replace "," "." val) in
    if contains "." num_str then
      match Num.float num_str with
      | Some _ => VFloat num_str
      | None => VStr val
      end
    else
      match Num.int num_str with
      | Some n => VInt n
      | None => VStr val
      end
  else VStr val.

(** [max(column_map.values()) if column_map else 0] *)
Definition max_mapped_column (column_map : gmap string nat) : nat :=
  map_fold (fun _ col acc => Nat.max col acc) 0 column_map.

(** Lines 192-224: the cells the copy of the formatting looks at. *)
Definition copy_format (column_map : gmap string nat) (sample_row new_row_idx : nat)
    (ws : worksheet) : worksheet :=
  let max_col_to_copy := Nat.max (max_column ws) (Nat.max (max_mapped_column column_map) 100) in
  foldl (fun ws col_idx => touch new_row_idx col_idx (touch sample_row col_idx ws))
        ws (range 1 (max_col_to_copy + 1)).

(** Lines 230-279: one field of a record; a field without a column is
    skipped. *)
Definition write_field (column_map : gmap string nat) (new_row_idx : nat)
    (ws : worksheet) (kv : string * string) : worksheet :=
  match column_map !! fst kv with
  | Some col_idx => <[(new_row_idx, col_idx) := convert_value (fst kv) (snd kv)]> ws
  | None => ws
  end.

(** Lines 177-282: one record written at [new_row_idx]. The fields go to
    pairwise different columns, so their order does not matter. *)
Definition write_row (column_map : gmap string nat) (sample_row : option nat)
    (new_row_idx : nat) (row_data : record) (ws : worksheet) : worksheet :=
  let ws :=
    match sample_row with
    | Some sr =>
        if (0 <? sr) && (sr <=? max_row ws) then copy_format column_map sr new_row_idx ws else ws
    | None => ws
    end in
  foldl (write_field column_map new_row_idx) ws (map_to_list row_data).

Fixpoint write_rows (column_map : gmap string nat) (sample_row : option nat)
    (current_row : nat) (filtered_rows : list record) (ws : worksheet) : worksheet :=
  match filtered_rows with
  | [] => ws
  | row_data :: rest =>
      write_rows column_map sample_row (S current_row) rest
        (write_row column_map sample_row current_row row_data ws)
  end.

Section MergeCall.

Variable float_text : string -> string.

(** The pairs a call reads from the sheet: [existing_keys] before the
    incoming records are looked at. *)
Definition call_keys (ws : worksheet) : keys :=
  let '(header_row, column_map, ws) := locate_headers float_text ws in
  existing_keys float_text ws column_map header_row.

(** The records a call writes: [filtered_rows]. *)
Definition rows_to_add (ws : worksheet) (new_rows : list record) : list record :=
  filter_new_rows (call_keys ws) new_rows.

(** [merge_excel_data] on the sheet "donnée" of an existing workbook: the
    sheet that is saved. *)
Definition merge_excel_data (ws : worksheet) (new_rows : list record) : worksheet :=
  let '(header_row, column_map, ws) := locate_headers float_text ws in
  let first_row := first_available_row float_text ws column_map header_row in
  let last := last_data_row ws column_map header_row in
  let filtered_rows :=
    filter_new_rows (existing_keys float_text ws column_map header_row) new_rows in
  match filtered_rows with
  | [] => ws
  | _ :: _ =>
      let sample_row :=
        if header_row <? last then Some last
        else if header_row <=? max_row ws then Some header_row
        else None in
      write_rows column_map sample_row first_row filtered_rows ws
  end.

End MergeCall.

(** *** [create_excel_from_rows] *)

(** [enumerate(l, start)] *)
Definition enumerate {A : Type} (start : nat) (l : list A) : list (nat * A) :=
  zip (seq start (List.length l)) l.

(** The columns of a new workbook (lines 322-325). *)
Definition columns : list string :=
  ["ID Patient"; "Âge"; "Œil"; "AL"; "PACHY (mm)"; "ACD epit";
   "LT"; "PUISSANCE IOL"; "TORIQUE PROG EDOF"; "WTW (mm)"].

(** [create_excel_from_rows]: the sheet "donnée" of the new workbook, as it
    is saved. Row 1 holds empty strings, row 2 the column names, and every
    record of [new_rows] one row from row 3 on, each value as the text the
    record has ([row_data.get(col_name, "")]). The values are taken to be
    texts a cell accepts. *)
Definition create_excel_from_rows (new_rows : list record) : worksheet :=
  let ws : worksheet := ∅ in
  let ws :=
    foldl (fun (ws : worksheet) '(col_idx, _) => <[(1, col_idx) := VStr ""]> ws)
          ws (enumerate 1 columns) in
  let ws :=
    foldl (fun (ws : worksheet) '(col_idx, col_name) => <[(2, col_idx) := VStr col_name]> ws)
          ws (enumerate 1 columns) in
  foldl (fun (ws : worksheet) '(row_idx, row_data) =>
           foldl (fun (ws : worksheet) '(col_idx, col_name) =>
                    <[(row_idx, col_idx) := VStr (default "" (row_data !! col_name))]> ws)
                 ws (enumerate 1 columns))
        ws (enumerate 3 new_rows).

End ExcelHandler.

(** ** The endpoint: [main.extract_data]

    The uploads are given by what the endpoint reads from them: a report by
    the pages pdfplumber yields, the workbook by its sheet "donnée". A
    report or a workbook that cannot be read (an answer with status 500) is
    outside the model, and the answer is given by the sheet it carries. *)

Module Main.

Import Py IOL700Parser ExcelHandler.

(** What the endpoint answers: an HTTP error, or the workbook it sends. *)
Inductive response : Type :=
| HTTPException (status_code : nat) (detail : string)
| Response (content : worksheet).

Section Extract.

(** [str(x or "")] for a float cell, and [datetime.now()]. *)
Variable float_text : string -> string.
Variable today : date.

(** Lines 73-94: the records of all reports, in the order of the upload. *)
Definition all_rows (pdf_files : list (list page)) : list record :=
  foldl (fun all_rows pdf_file => (all_rows ++ parse today pdf_file)%list) [] pdf_files.

(** [extract_data]: each uploaded report is given by the pages pdfplumber
    reads from it, the uploaded workbook by its sheet "donnée". *)
Definition extract_data (machine_type : string) (pdf_files : list (list page))
    (excel_file : option worksheet) : response :=
  match pdf_files with
  | [] => HTTPException 400 "At least one PDF file is required"
  | _ :: _ =>
      if String.eqb machine_type "IOL700" then
        match excel_file with
        | Some ws => Response (merge_excel_data float_text ws (all_rows pdf_files))
        | None => Response (create_excel_from_rows (all_rows pdf_files))
        end
      else HTTPException 400 ("Unsupported machine type: " +:+ machine_type)
  end.

End Extract.

End Main.

(** ** Definitions used to state the properties *)

Module Props.

Import Py Re IOL700Parser.

(** The index, counted from [i], of the first cell that satisfies [p]. *)
Fixpoint first_index_from (i : nat) (p : cell -> bool) (cells : row) : option nat :=
  match cells with
  | [] => None
  | c :: rest => if p c then Some i else first_index_from (S i) p rest
  end.

Definition first_index (p : cell -> bool) (cells : row) : option nat :=
  first_index_from 0 p cells.

(** The cell's text contains the marker, whatever the case of its letters. *)
Definition mentions (marker : string) (c : cell) : bool :=
  contains marker (upper (cell_text c)).

(** "contains OD but not OS", and the reverse. *)
Definition od_only (c : cell) : bool := mentions "OD" c && negb (mentions "OS" c).
Definition os_only (c : cell) : bool := mentions "OS" c && negb (mentions "OD" c).

(** The canonical output field names. *)
Definition canonical_fields : list string :=
  ["ID Patient"; "Âge"; "Œil"; "AL"; "PACHY (mm)"; "ACD epit"; "LT"; "K1"; "K2";
   "WTW (mm)"; "Axe"].

(** The fields both paths of [parse] always set. *)
Definition always_fields : list string :=
  ["ID Patient"; "Âge"; "Œil"; "K1"; "K2"; "Axe"].

(** Every field of [fields] is a key of the record. *)
Definition has_fields (fields : list string) (r : record) : Prop :=
  Forall (fun k => is_Some (r !! k)) fields.


(** The patient id and the age [parse] attaches to its records. *)
Definition patient_id_of (pdf : list page) : string := extract_patient_id (full_text pdf).

Definition age_of (today : date) (pdf : list page) : string :=
  let birth_date_str := extract_birth_date (full_text pdf) (all_tables pdf) in
  if truthy birth_date_str then _calculate_age today birth_date_str else "".

(** The birth date the spec describes: the formats tried in order, the
    first that [strptime] accepts giving the date. *)
Fixpoint first_strptime (fmts : list string) (s : string) : option date :=
  match fmts with
  | [] => None
  | fmt :: rest =>
      match strptime s fmt with
      | Some d => Some d
      | None => first_strptime rest s
      end
  end.

(** The (month, day) pair of [a] precedes the (month, day) pair of [b]. *)
Definition precedes (a b : date) : Prop :=
  (month a < month b \/ (month a = month b /\ day a < day b))%Z.

#[global] Instance precedes_dec (a b : date) : Decision (precedes a b).
Proof. unfold precedes. apply _. Defined.

(** Current year minus birth year, less one when today's (month, day)
    precedes the birth (month, day). *)
Definition age_on (today birth : date) : Z :=
  (year today - year birth - (if decide (precedes today birth) then 1 else 0))%Z.

(** The pattern of a format "%d<sep>%m<sep>%y". *)
Definition two_digit_regex (sep : ascii) : regex :=
  Seq directive_d (Seq (chr sep) (Seq directive_m (Seq (chr sep) (Seq directive_y Eps)))).

(** The century [strptime] gives a two-digit year. *)
Definition pivot (yy : Z) : Z := if (yy <=? 68)%Z then (yy + 2000)%Z else (yy + 1900)%Z.

(** Every character of the string satisfies [p]. *)
Fixpoint str_all (p : ascii -> bool) (s : string) : bool :=
  match s with
  | EmptyString => true
  | String c s' => p c && str_all p s'
  end.

(** The decimal comma turned into a point. *)
Definition comma_to_dot (tok : string) : string := replace "," "." tok.

(** The number a token denotes once its comma is a point: the exact
    decimal value of a token [float] reads as a finite number. *)
Definition decimal_value (tok : string) : option Q :=
  match Num.float (comma_to_dot tok) with
  | Some (Num.FNum v) => Some v
  | _ => None
  end.

(** [a < b] on rationals. *)
Definition Qltb (a b : Q) : bool := (Qnum a * QDen b <? Qnum b * QDen a)%Z.

(** The binary64 number nearest to [v] is strictly between 0.5 and 100.
    Both bounds are binary64 numbers; the numbers next to them are
    [0.5 + 2^-53] and [100 - 2^-46], and a value half that step or less away
    from a bound rounds to the bound. *)
Definition strictly_between (v : Q) : bool :=
  Qltb ((1 # 2) + (1 # 2 ^ 54)) v && Qltb v (100 - (1 # 2 ^ 47)).

(** The value of a token lies strictly between 0.5 and 100. *)
Definition in_range (tok : string) : bool :=
  match decimal_value tok with
  | Some v => strictly_between v
  | None => false
  end.

Definition dot_for_comma (c : ascii) : ascii := if Ascii.eqb c "," then "."%char else c.

Fixpoint str_map (f : ascii -> ascii) (s : string) : string :=
  match s with
  | EmptyString => EmptyString
  | String c s' => String (f c) (str_map f s')
  end.

(** Both parts of the record's (patient id, eye) pair are non-empty. *)
Definition valid_pair (row : gmap string string) : bool :=
  truthy (ExcelHandler.row_key row "ID Patient") && truthy (ExcelHandler.row_key row "Œil").

End Props.

(** ** What a match is

    The relation [matches r s g s' g'] says that [r] can match a prefix of
    [s], leaving [s'] unread and turning the captures [g] into [g']. The
    matcher is sound for it ([rmatch_sound] below), which is what the
    proofs about dates need to know of a match. *)

Module ReSpec.

Import Re.

Inductive matches : regex -> string -> captures -> string -> captures -> Prop :=
| M_Eps s g : matches Eps s g s g
| M_Cls p c s g : p c = true -> matches (Cls p) (String c s) g s g
| M_Seq r1 r2 s g s1 g1 s2 g2 :
    matches r1 s g s1 g1 -> matches r2 s1 g1 s2 g2 -> matches (Seq r1 r2) s g s2 g2
| M_AltL r1 r2 s g s' g' : matches r1 s g s' g' -> matches (Alt r1 r2) s g s' g'
| M_AltR r1 r2 s g s' g' : matches r2 s g s' g' -> matches (Alt r1 r2) s g s' g'
| M_Star0 p s g : matches (Star p) s g s g
| M_StarS p c s g s' :
    p c = true -> matches (Star p) s g s' g -> matches (Star p) (String c s) g s' g
| M_Lazy0 p s g : matches (StarLazy p) s g s g
| M_LazyS p c s g s' :
    p c = true -> matches (StarLazy p) s g s' g -> matches (StarLazy p) (String c s) g s' g
| M_Grp n r s g s' g' :
    matches r s g s' g' ->
    matches (Grp n r) s g s'
      (set_capture n (Py.str_take (String.length s - String.length s') s) g').

(** The groups a pattern can set. *)
Fixpoint groups (r : regex) : list nat :=
  match r with
  | Eps | Cls _ | Star _ | StarLazy _ => []
  | Seq r1 r2 | Alt r1 r2 => groups r1 ++ groups r2
  | Grp n r1 => n :: groups r1
  end.

End ReSpec.

(** ** Concrete reports, tables and rows used in the examples *)

Module Samples.

Import IOL700Parser.

Definition today : date := Date 2024 1 1.

(** A header naming both eyes in one cell, then the left eye alone. *)
Definition combined_header : row := [Some "OD / OS"; Some "OS"].

(** The layout of the device: OD in column 0, OS in column 4, one row of
    axial lengths. *)
Definition al_table : table :=
  [[Some "OD"; None; None; None; Some "OS"];
   [Some "AL: 23.50mm"; None; None; None; Some "AL: 23.80mm"]].

Definition al_report : list page :=
  [Page [al_table] (Some "ID Patient: 251-093")].

(** A table with a value for the right eye only. *)
Definition od_only_table : table := [[Some "OD"]; [Some "AL: 23.50mm"]].

Definition od_only_report : list page := [Page [od_only_table] (Some "")].

(** A report without tables. *)
Definition text_report : list page :=
  [Page [] (Some "ID Patient: 42 OD: AL: 23,5 mm K1: 44.5 D @ 105° OS: AL: 24,1 mm")].


Definition filler : row := [Some "x"].

(** A header, then a measurement 19, 20 and 25 rows below it. *)
Definition al_at_19 : table :=
  ([[Some "OD"; Some "OS"]] ++ replicate 18 filler ++ [[Some "AL: 23.50mm"]])%list.

Definition al_at_20 : table :=
  ([[Some "OD"; Some "OS"]] ++ replicate 19 filler ++ [[Some "AL: 23.50mm"]])%list.

Definition al_at_25 : table :=
  ([[Some "OD"; Some "OS"]] ++ replicate 24 filler ++ [[Some "OD AL"; Some "12"]])%list.

(** [str()] of a float, for the sample sheets: their floats are written
    from literals that are already the shortest text of their value. *)
Definition float_text (literal : string) : string := literal.

(** A sheet with the key columns and one measurement column, headers in
    row 2, no data row. *)
Definition keyed_sheet : gmap (nat * nat) ExcelHandler.value :=
  <[(2, 1) := ExcelHandler.VStr "ID Patient"]>
    (<[(2, 2) := ExcelHandler.VStr "Œil"]> (<[(2, 3) := ExcelHandler.VStr "AL"]> ∅)).


(** A right-eye record of the patient [id]. *)
Definition od_record (id : string) : gmap string string :=
  <["ID Patient" := id]> (<["Œil" := "OD"]> (<["AL" := "23.5"]> ∅)).

End Samples.

(** ** More definitions used to state properties *)

Module MoreProps.

Import Py Re IOL700Parser Props.

(** The string is a suffix of the text. *)
Fixpoint is_suffix (t s : string) : bool :=
  String.eqb t s ||
  match s with
  | EmptyString => false
  | String _ s' => is_suffix t s'
  end.

(** A non-empty run of decimal digits. *)
Definition is_number (s : string) : bool := truthy s && str_all is_digit s.

(** The field names of the measurements and of the axis. *)
Definition measurement_keys : list string :=
  ["AL"; "PACHY (mm)"; "ACD epit"; "LT"; "K1"; "K2"; "WTW (mm)"; "Axe"].

(** A measurement value is empty or numeric. *)
Definition plain_value (v : string) : Prop := v = "" \/ _is_numeric v = true.

(** Every entry of an accumulator is a measurement with a plain value. *)
Definition measured (data : gmap string string) : Prop :=
  map_Forall (fun k v => In k measurement_keys /\ plain_value v) data.

(** Every key of a record is a canonical field, and its measurements have
    plain values. *)
Definition well_formed (r : gmap string string) : Prop :=
  map_Forall (fun k v => In k canonical_fields /\ (In k measurement_keys -> plain_value v)) r.

Definition eyes_measured (st : eyes) : Prop := measured (fst st) /\ measured (snd st).

Definition dotted (x : string) : Prop := x = "" \/ (comma_to_dot x = x /\ is_Some (Num.float x)).

(** [a] is an earlier day than [b]. *)
Definition earlier (a b : date) : Prop :=
  (year a < year b \/
   (year a = year b /\ (month a < month b \/ (month a = month b /\ day a < day b))))%Z.


End MoreProps.

(** ** Definitions used to state the properties of the sheet *)

Module SheetProps.

Import Py Props ExcelHandler.

(** The stripped text of the header cell of a column. *)
Definition header_text (float_text : string -> string) (ws : gmap (nat * nat) value)
    (header_row col : nat) : string :=
  strip (text_or_empty float_text (cell_value ws header_row col)).

(** The number of columns a call looks at for headers. *)
Definition scan_width (ws : gmap (nat * nat) value) : nat := Nat.max (max_column ws) 100.

(** The header row, the column map and the first row a call writes. *)
Definition call_header_row (float_text : string -> string) (ws : gmap (nat * nat) value) : nat :=
  fst (fst (locate_headers float_text ws)).

Definition call_column_map (float_text : string -> string) (ws : gmap (nat * nat) value)
    : gmap string nat :=
  snd (fst (locate_headers float_text ws)).

Definition call_first_row (float_text : string -> string) (ws : gmap (nat * nat) value) : nat :=
  first_available_row float_text (snd (locate_headers float_text ws))
    (call_column_map float_text ws) (call_header_row float_text ws).

(** [name] heads column [c] and no later column below [bound]. *)
Definition last_headed (float_text : string -> string) (ws : gmap (nat * nat) value)
    (header_row bound : nat) (name : string) (c : nat) : Prop :=
  truthy name = true /\ 1 <= c < bound /\
  header_text float_text ws header_row c = name /\
  forall c', c < c' < bound -> header_text float_text ws header_row c' <> name.

(** What the header scan knows before column [a]. *)
Definition headers_read (float_text : string -> string) (ws0 : gmap (nat * nat) value)
    (h a : nat) (st : gmap string nat * gmap (nat * nat) value) : Prop :=
  (forall r c, cell_value (snd st) r c = cell_value ws0 r c) /\
  (forall name c, fst st !! name = Some c <-> last_headed float_text ws0 h a name c).

(** Every cell of the first sheet is a cell of the second. *)
Definition grows (ws ws' : gmap (nat * nat) value) : Prop :=
  forall k, is_Some (ws !! k) -> is_Some (ws' !! k).

(** A run of digits that does not start with a zero. *)
Definition canonical_id (s : string) : bool :=
  match s with
  | String c _ => negb (Ascii.eqb c "0") && str_all is_digit s
  | EmptyString => false
  end.

(** The text a later call reads from the cell a patient id was written to. *)
Definition id_read_back (float_text : string -> string) (id : string) : string :=
  strip (text_or_empty float_text (convert_value "ID Patient" id)).

End SheetProps.

(** ** Further sample sheets *)

Module MoreSamples.

Import ExcelHandler.

(** A sheet with the key columns in row 1 and nothing else. *)
Definition row_1_sheet : gmap (nat * nat) value :=
  <[(1, 1) := VStr "ID Patient"]> (<[(1, 2) := VStr "Œil"]> ∅).

End MoreSamples.

(** ** Properties of the parser *)

Section ParserFacts.

Import Py Re IOL700Parser Props.

(** *** Accumulator writes *)

Lemma set_if_absent_subseteq k v (m : gmap string string) : m ⊆ set_if_absent k v m.
Proof.
  unfold set_if_absent. destruct (m !! k) eqn:E; [done|].
  by apply insert_subseteq.
Qed.

Lemma set_if_absent_same k v (m : gmap string string) : is_Some (set_if_absent k v m !! k).
Proof.
  unfold set_if_absent. destruct (m !! k) eqn:E.
  - rewrite E. eauto.
  - rewrite lookup_insert_eq. eauto.
Qed.

Lemma set_if_absent_keeps k v k' (m : gmap string string) :
  is_Some (m !! k') -> is_Some (set_if_absent k v m !! k').
Proof.
  intros [x Hx]. exists x.
  eapply lookup_weaken; [exact Hx | apply set_if_absent_subseteq].
Qed.

Lemma set_if_absent_lookup k v k' x (m : gmap string string) :
  m !! k' = Some x -> set_if_absent k v m !! k' = Some x.
Proof. intros Hx. eapply lookup_weaken; [exact Hx | apply set_if_absent_subseteq]. Qed.

Lemma nonempty_true (m : gmap string string) : nonempty m = true <-> m <> ∅.
Proof.
  unfold nonempty. rewrite negb_true_iff, bool_decide_eq_false. done.
Qed.

Lemma nonempty_false (m : gmap string string) : nonempty m = false <-> m = ∅.
Proof.
  unfold nonempty. rewrite negb_false_iff, bool_decide_eq_true. done.
Qed.

Lemma nonempty_lookup k v (m : gmap string string) : m !! k = Some v -> nonempty m = true.
Proof.
  intros H. apply nonempty_true. intros ->. by rewrite lookup_empty in H.
Qed.

(** *** The finished records *)

Lemma finalize_eye eye pid age data : finalize eye pid age data !! "Œil" = Some eye.
Proof.
  unfold finalize. destruct (negb (nonempty data)).
  - by simplify_map_eq.
  - do 3 apply set_if_absent_lookup. by simplify_map_eq.
Qed.

Lemma finalize_nonempty eye pid age data : nonempty (finalize eye pid age data) = true.
Proof. eapply nonempty_lookup, finalize_eye. Qed.

Lemma finalize_always eye pid age data : has_fields always_fields (finalize eye pid age data).
Proof.
  unfold has_fields, always_fields, finalize.
  destruct (negb (nonempty data)).
  - repeat constructor; simplify_map_eq; eauto.
  - repeat constructor;
      repeat first
        [ apply set_if_absent_same
        | apply set_if_absent_keeps ];
      simplify_map_eq; eauto.
Qed.

Lemma text_record_eye text eye pid age : text_record text eye pid age !! "Œil" = Some eye.
Proof.
  unfold text_record. do 3 apply set_if_absent_lookup. by simplify_map_eq.
Qed.

Lemma text_record_canonical text eye pid age :
  has_fields canonical_fields (text_record text eye pid age).
Proof.
  unfold has_fields, canonical_fields, text_record, _extract_eye_data.
  repeat constructor; do 3 apply set_if_absent_keeps; simplify_map_eq; eauto.
Qed.

(** *** The two paths of [parse] *)

Lemma accumulate_nil : accumulate [] = (∅, ∅).
Proof. reflexivity. Qed.

Lemma parse_with_path_cases today pdf :
  parse_with_path today pdf =
    if nonempty (fst (accumulate (all_tables pdf))) || nonempty (snd (accumulate (all_tables pdf)))
    then (TablePath,
          [finalize "OD" (patient_id_of pdf) (age_of today pdf) (fst (accumulate (all_tables pdf)));
           finalize "OS" (patient_id_of pdf) (age_of today pdf) (snd (accumulate (all_tables pdf)))])
    else (TextPath,
          [text_record (full_text pdf) "OD" (patient_id_of pdf) (age_of today pdf);
           text_record (full_text pdf) "OS" (patient_id_of pdf) (age_of today pdf)]).
Proof.
  unfold parse_with_path, patient_id_of, age_of.
  destruct (all_tables pdf) as [|t ts] eqn:Et.
  - rewrite accumulate_nil. cbn [fst snd].
    replace (nonempty (∅ : gmap string string)) with false
      by (symmetry; by apply nonempty_false).
    reflexivity.
  - unfold _extract_from_tables.
    destruct (accumulate (t :: ts)) as [od os]. cbn [fst snd].
    destruct (nonempty od || nonempty os); [|reflexivity].
    by rewrite !finalize_nonempty.
Qed.

(** C1. [parse] always returns exactly two records, the first with
    "Œil" = "OD" and the second with "Œil" = "OS", whichever of the table
    path and the text fallback it took; the two eye sides differ, so no side
    is repeated and none is missing. *)
Theorem parse_two_records (today : date) (pdf : list page) :
  exists od_data os_data,
    parse today pdf = [od_data; os_data] /\
    od_data !! "Œil" = Some "OD" /\
    os_data !! "Œil" = Some "OS" /\
    od_data !! "Œil" <> os_data !! "Œil".
Proof.
  unfold parse. rewrite parse_with_path_cases.
  destruct (nonempty _ || nonempty _); cbn [snd];
    eexists; eexists; split; try reflexivity.
  - rewrite !finalize_eye. repeat split; congruence.
  - rewrite !text_record_eye. repeat split; congruence.
Qed.

(** C2, as the code has it. On the text fallback both records carry every
    canonical field; on the table path both carry the identity fields and
    "K1", "K2", "Axe", the other measurement fields being keys only when a
    value was extracted for them. *)
Theorem parse_fields_by_path (today : date) (pdf : list page) :
  match fst (parse_with_path today pdf) with
  | TextPath => Forall (has_fields canonical_fields) (parse today pdf)
  | TablePath => Forall (has_fields always_fields) (parse today pdf)
  end.
Proof.
  unfold parse. rewrite parse_with_path_cases.
  destruct (nonempty _ || nonempty _); cbn [fst snd].
  - constructor; [apply finalize_always|].
    constructor; [apply finalize_always|constructor].
  - constructor; [apply text_record_canonical|].
    constructor; [apply text_record_canonical|constructor].
Qed.

(** C4, as the code has it. [parse] returns the table-derived records
    exactly when at least one of the two accumulators is non-empty after
    all tables; an accumulator left empty is then replaced by its default
    record. Only when both are empty does the text fallback produce the two
    records. *)
Theorem parse_table_path_iff_either (today : date) (pdf : list page) :
  parse_with_path today pdf =
    if nonempty (fst (accumulate (all_tables pdf))) || nonempty (snd (accumulate (all_tables pdf)))
    then (TablePath,
          [finalize "OD" (patient_id_of pdf) (age_of today pdf) (fst (accumulate (all_tables pdf)));
           finalize "OS" (patient_id_of pdf) (age_of today pdf) (snd (accumulate (all_tables pdf)))])
    else (TextPath,
          [text_record (full_text pdf) "OD" (patient_id_of pdf) (age_of today pdf);
           text_record (full_text pdf) "OS" (patient_id_of pdf) (age_of today pdf)]).
Proof. apply parse_with_path_cases. Qed.

(** Both paths occur. *)
Example al_report_table_path :
  parse_with_path Samples.today Samples.al_report =
    (TablePath,
     [finalize "OD" "251093" "" {[ "AL" := "23.50" ]};
      finalize "OS" "251093" "" {[ "AL" := "23.80" ]}]).
Proof. vm_compute. reflexivity. Qed.

Example text_report_text_path :
  fst (parse_with_path Samples.today Samples.text_report) = TextPath /\
  map (fun r => r !! "AL") (parse Samples.today Samples.text_report) = [Some "23.5"; Some "24.1"].
Proof. vm_compute. split; reflexivity. Qed.

(** C2 fails on the table path: the records extracted from [al_table] have
    no "LT" key (nor "PACHY (mm)", "ACD epit", "WTW (mm)"). *)
Lemma table_path_omits_fields :
  fst (parse_with_path Samples.today Samples.al_report) = TablePath /\
  map (fun r => r !! "LT") (parse Samples.today Samples.al_report) = [None; None] /\
  map (fun r => r !! "AL") (parse Samples.today Samples.al_report) = [Some "23.50"; Some "23.80"].
Proof. vm_compute. repeat split; reflexivity. Qed.

(** C4 fails when one accumulator only is empty: [od_only_table] leaves the
    OS accumulator empty, and [parse] still returns the table records, the
    OS one being the default record. *)
Lemma one_empty_accumulator_keeps_table_path :
  nonempty (fst (accumulate (all_tables Samples.od_only_report))) = true /\
  nonempty (snd (accumulate (all_tables Samples.od_only_report))) = false /\
  fst (parse_with_path Samples.today Samples.od_only_report) = TablePath /\
  map (fun r => r !! "AL") (parse Samples.today Samples.od_only_report) = [Some "23.50"; None].
Proof. vm_compute. repeat split; reflexivity. Qed.

(** *** Header columns *)

Lemma falsy_cell_mentions marker c :
  marker <> "" -> cell_truthy c = false -> mentions marker c = false.
Proof.
  intros Hm Hc. unfold mentions.
  destruct c as [[|a s]|]; try discriminate Hc; destruct marker; done.
Qed.

Lemma header_cells_first_index cells : forall i od os,
  header_cells i cells (od, os) =
    (match od with Some _ => od | None => first_index_from i od_only cells end,
     match os with Some _ => os | None => first_index_from i os_only cells end).
Proof.
  induction cells as [|c rest IH]; intros i od os.
  - by destruct od, os.
  - cbn [header_cells first_index_from].
    unfold header_cell.
    destruct (cell_truthy c) eqn:Hc; cbn [negb].
    + unfold od_only, os_only, mentions.
      destruct (contains "OD" (upper (cell_text c))),
               (contains "OS" (upper (cell_text c))), od, os;
        cbn; rewrite IH; reflexivity.
    + unfold od_only, os_only.
      rewrite !(falsy_cell_mentions _ c) by done.
      cbn. rewrite IH. reflexivity.
Qed.

(** C5, as the code has it. The OD column of a header row is the index of
    the first cell that contains "OD" and not "OS"; the OS column is the
    index of the first cell that contains "OS" and not "OD". A cell naming
    both eyes sets neither column. *)
Theorem scan_header_columns (r : row) :
  scan_header r = (first_index od_only r, first_index os_only r).
Proof. unfold scan_header, first_index. by rewrite header_cells_first_index. Qed.

(** C5 fails for the OS column: in [combined_header] the first cell that
    contains "OS" is cell 0, which also contains "OD"; the OS column is 1. *)
Lemma combined_cell_sets_no_column :
  has_eye_marker Samples.combined_header = true /\
  first_index (mentions "OS") Samples.combined_header = Some 0 /\
  scan_header Samples.combined_header = (None, Some 1).
Proof. vm_compute. repeat split; reflexivity. Qed.

(** *** First writer wins in the header-anchored pass *)



















(** *** The rows the header-anchored pass reads *)

Lemma first_index_from_hit p cells : forall i a,
  first_index_from i p cells = Some a ->
  exists c, cells !! (a - i) = Some c /\ p c = true /\ i <= a.
Proof.
  induction cells as [|c rest IH]; intros i a H; cbn in H; [discriminate|].
  destruct (p c) eqn:Hp.
  - injection H as <-. exists c. rewrite Nat.sub_diag. auto.
  - apply IH in H as (c' & Hl & Hc' & Hle).
    exists c'. replace (a - i) with (S (a - S i)) by lia. cbn. repeat split; [done|done|lia].
Qed.

(** The header scan never puts both eyes in one column: the block that
    tells a combined column apart (lines 196-259) is never entered. *)
Lemma scan_header_separates r : same_column (scan_header r) = false.
Proof.
  rewrite scan_header_columns. unfold same_column, first_index.
  destruct (first_index_from 0 od_only r) as [a|] eqn:Ha; [|done].
  destruct (first_index_from 0 os_only r) as [b|] eqn:Hb; [|done].
  apply Nat.eqb_neq. intros ->.
  apply first_index_from_hit in Ha as (c & Hc & Hod & _).
  apply first_index_from_hit in Hb as (c' & Hc' & Hos & _).
  rewrite Hc in Hc'. injection Hc' as <-.
  unfold od_only, os_only in *.
  destruct (mentions "OD" c), (mentions "OS" c); discriminate.
Qed.

Lemma resolve_columns_scan t row_idx r : resolve_columns t row_idx r = scan_header r.
Proof. unfold resolve_columns. by rewrite !scan_header_separates. Qed.

Lemma default_os_column_4 t h : default_os_column t h = 4.
Proof. unfold default_os_column. by case_match. Qed.

(** The header found in [rows], the first of which has index [i]: its
    index, the row, and the columns its cells give. *)
Lemma find_header_found t rows : forall i h cols,
  find_header t i rows = Some (h, cols) ->
  i <= h /\ exists r, rows !! (h - i) = Some r /\ cols = scan_header r.
Proof.
  induction rows as [|r rest IH]; intros i h cols H; cbn in H; [discriminate|].
  assert (Hrec : find_header t (S i) rest = Some (h, cols) ->
                 i <= h /\ exists r0, (r :: rest) !! (h - i) = Some r0 /\ cols = scan_header r0).
  { intros H'. apply IH in H' as (Hle & r0 & Hr0 & ->).
    split; [lia|]. exists r0. replace (h - i) with (S (h - S i)) by lia. done. }
  destruct r as [|c r]; [by apply Hrec|].
  destruct (has_eye_marker (c :: r)); [|by apply Hrec].
  injection H as <- <-. split; [lia|].
  exists (c :: r). rewrite Nat.sub_diag, resolve_columns_scan. done.
Qed.

(** The header search reads the table up to the header row only. *)
Lemma find_header_prefix t t' rows : forall rows' i h cols,
  find_header t i rows = Some (h, cols) ->
  take (S h - i) rows = take (S h - i) rows' ->
  find_header t' i rows' = Some (h, cols).
Proof.
  induction rows as [|r rest IH]; intros rows' i h cols H Htake; [discriminate|].
  pose proof (find_header_found _ _ _ _ _ H) as [Hle _].
  replace (S h - i) with (S (h - i)) in Htake by lia.
  destruct rows' as [|r' rest']; [discriminate|].
  cbn [take] in Htake. injection Htake as <- Htake.
  cbn in H |- *.
  assert (Hrec : find_header t (S i) rest = Some (h, cols) ->
                 find_header t' (S i) rest' = Some (h, cols)).
  { intros H'. pose proof (find_header_found _ _ _ _ _ H') as [Hle' _].
    eapply IH; [exact H'|]. by replace (S h - S i) with (h - i) by lia. }
  destruct r as [|c r]; [by apply Hrec|].
  destruct (has_eye_marker (c :: r)); [|by apply Hrec].
  by rewrite resolve_columns_scan in *.
Qed.

(** C9, as the code has it. The header-anchored pass scans the rows at
    offsets 1 to 19 below the header row, every one of them and in order,
    and nothing beyond: two tables that agree on the header row and the 19
    rows below it give the same result, whatever the rows from offset 20
    on. *)
Theorem structured_pass_window (t t' : table) (h : nat) (cols : columns) (st : eyes) :
  find_header t 0 t = Some (h, cols) ->
  take (h + 20) t = take (h + 20) t' ->
  extract_structured t' st = extract_structured t st /\
  extract_structured t st =
    foldl (extract_row (default 0 (fst cols)) (default 4 (snd cols))) st
          (take 19 (drop (S h) t)).
Proof.
  intros Hh Htake.
  assert (Hh' : find_header t' 0 t' = Some (h, cols)).
  { eapply find_header_prefix; [exact Hh|].
    rewrite Nat.sub_0_r.
    replace (S h) with (Nat.min (S h) (h + 20)) by lia.
    by rewrite <- !take_take, Htake. }
  assert (Hrows : rows_after t' h 20 = rows_after t h 20).
  { unfold rows_after. cbn [Nat.sub].
    rewrite !take_drop_commute.
    replace (S h + 19) with (h + 20) by lia. by rewrite Htake. }
  unfold extract_structured. rewrite Hh, Hh'. destruct cols as [od os]. cbn [fst snd].
  rewrite Hrows, !default_os_column_4.
  split; [reflexivity|].
  unfold rows_after. cbn [Nat.sub]. by destruct os.
Qed.

(** The instance of C9's theorem at [al_at_20] and the same table without
    its row 20. *)
Lemma structured_pass_window_witness :
  extract_structured (take 20 Samples.al_at_20) (∅, ∅) =
    extract_structured Samples.al_at_20 (∅, ∅) /\
  extract_structured Samples.al_at_20 (∅, ∅) =
    foldl (extract_row 0 1) (∅, ∅) (take 19 (drop 1 Samples.al_at_20)).
Proof.
  apply (structured_pass_window Samples.al_at_20 (take 20 Samples.al_at_20) 0
           (Some 0, Some 1) (∅, ∅)); vm_compute; reflexivity.
Defined.

(** C9 fails at both ends of its window. A measurement 20 rows below the
    header is not read ([al_at_20]), though one 19 rows below is
    ([al_at_19]); and the fallback branch writes a value found 25 rows below
    the header ([al_at_25]). *)
Lemma window_is_19_rows_and_fallback_ignores_it :
  find_header Samples.al_at_20 0 Samples.al_at_20 = Some (0, (Some 0, Some 1)) /\
  Samples.al_at_20 !! 20 = Some [Some "AL: 23.50mm"] /\
  accumulate [Samples.al_at_20] = (∅, ∅) /\
  fst (accumulate [Samples.al_at_19]) !! "AL" = Some "23.50" /\
  find_header Samples.al_at_25 0 Samples.al_at_25 = Some (0, (Some 0, Some 1)) /\
  Samples.al_at_25 !! 25 = Some [Some "OD AL"; Some "12"] /\
  fst (accumulate [Samples.al_at_25]) !! "AL" = Some "12".
Proof. vm_compute. repeat split; reflexivity. Qed.

End ParserFacts.

(** ** Soundness of the matcher *)

Section MatcherFacts.

Import Py Re ReSpec.

Lemma star_greedy_sound {A : Type} p g (k : string -> option A) : forall s x,
  star_greedy p s k = Some x ->
  exists s', matches (Star p) s g s' g /\ k s' = Some x.
Proof.
  induction s as [|c s IH]; intros x H; cbn in H.
  - exists "". split; [constructor | done].
  - destruct (p c) eqn:Hp.
    + destruct (star_greedy p s k) as [y|] eqn:E.
      * injection H as <-. destruct (IH _ eq_refl) as (s' & Hm & Hk).
        exists s'. split; [by constructor | done].
      * exists (String c s). split; [constructor | done].
    + exists (String c s). split; [constructor | done].
Qed.

Lemma star_lazy_sound {A : Type} p g (k : string -> option A) : forall s x,
  star_lazy p s k = Some x ->
  exists s', matches (StarLazy p) s g s' g /\ k s' = Some x.
Proof.
  induction s as [|c s IH]; intros x H; cbn in H.
  - destruct (k "") eqn:E; [|discriminate].
    exists "". split; [constructor | congruence].
  - destruct (k (String c s)) eqn:E.
    + exists (String c s). split; [constructor | congruence].
    + destruct (p c) eqn:Hp; [|discriminate].
      destruct (IH _ H) as (s' & Hm & Hk).
      exists s'. split; [by constructor | done].
Qed.

(** A successful run of the matcher is a match, and the continuation
    succeeded on what the match left. *)
Lemma rmatch_sound {A : Type} r : forall s g (k : string -> captures -> option A) x,
  rmatch r s g k = Some x ->
  exists s' g', matches r s g s' g' /\ k s' g' = Some x.
Proof.
  induction r as [|p|r1 IH1 r2 IH2|r1 IH1 r2 IH2|p|p|n r IH]; intros s g k x H; cbn in H.
  - exists s, g. split; [constructor | done].
  - destruct s as [|c s]; [discriminate|].
    destruct (p c) eqn:Hp; [|discriminate].
    exists s, g. split; [by constructor | done].
  - apply IH1 in H as (s1 & g1 & Hm1 & H).
    apply IH2 in H as (s2 & g2 & Hm2 & H).
    exists s2, g2. split; [econstructor; eassumption | done].
  - destruct (rmatch r1 s g k) as [y|] eqn:E.
    + injection H as <-. apply IH1 in E as (s' & g' & Hm & Hk).
      exists s', g'. split; [by apply M_AltL | done].
    + apply IH2 in H as (s' & g' & Hm & Hk).
      exists s', g'. split; [by apply M_AltR | done].
  - apply (star_greedy_sound p g) in H as (s' & Hm & Hk). eauto.
  - apply (star_lazy_sound p g) in H as (s' & Hm & Hk). eauto.
  - apply IH in H as (s' & g' & Hm & Hk).
    eexists _, _. split; [by constructor | exact Hk].
Qed.

Lemma match_at_sound r s g rest :
  match_at r s = Some (g, rest) -> matches r s no_captures rest g.
Proof.
  intros H. apply rmatch_sound in H as (s' & g' & Hm & Hk).
  by injection Hk as <- <-.
Qed.

(** A match leaves alone the groups its pattern does not have. *)
Lemma matches_frame r s g s' g' :
  matches r s g s' g' -> forall n, n ∉ groups r -> g' n = g n.
Proof.
  induction 1; intros m Hm; cbn in Hm; try done.
  - rewrite IHmatches2, IHmatches1; set_solver.
  - apply IHmatches. set_solver.
  - apply IHmatches. set_solver.
  - unfold set_capture. destruct (Nat.eqb_spec m n) as [->|]; [set_solver|].
    apply IHmatches. set_solver.
Qed.

Lemma append_assoc (a b c : string) : (a +:+ b) +:+ c = a +:+ (b +:+ c).
Proof.
  induction a as [|x a IH]; [reflexivity|].
  change (String x ((a +:+ b) +:+ c) = String x (a +:+ (b +:+ c))).
  by rewrite IH.
Qed.

(** What a match read is a prefix of the text. *)
Lemma matches_prefix r s g s' g' :
  matches r s g s' g' -> exists pre, s = pre +:+ s'.
Proof.
  induction 1.
  - by exists "".
  - by exists (String c "").
  - destruct IHmatches1 as [p1 ->], IHmatches2 as [p2 ->].
    exists (p1 +:+ p2). by rewrite append_assoc.
  - done.
  - done.
  - by exists "".
  - destruct IHmatches as [p1 ->]. by exists (String c p1).
  - by exists "".
  - destruct IHmatches as [p1 ->]. by exists (String c p1).
  - done.
Qed.

End MatcherFacts.

(** ** Dates and ages *)

Section DateFacts.

Import Py Re ReSpec IOL700Parser Props.

Lemma is_digit_cases c :
  is_digit c = true ->
  In c (list_ascii_of_string "0123456789").
Proof.
  destruct c as [[] [] [] [] [] [] [] []]; vm_compute; intros H;
    first [discriminate H | tauto].
Qed.

(** Two digits read as a number from 0 to 99. *)
Lemma two_digits_int c1 c2 :
  is_digit c1 = true -> is_digit c2 = true ->
  Num.int (String c1 (String c2 "")) = Some (Num.digits_val (String c1 (String c2 ""))) /\
  (0 <= Num.digits_val (String c1 (String c2 "")) <= 99)%Z.
Proof.
  intros H1%is_digit_cases H2%is_digit_cases.
  cbn in H1, H2.
  repeat (destruct H1 as [<-|H1]; [|]); try contradiction;
    repeat (destruct H2 as [<-|H2]; [|]); try contradiction;
    vm_compute; (split; [reflexivity | split; discriminate]).
Qed.

Lemma two_digit_year_group sep s g :
  matches (two_digit_regex sep) s no_captures "" g ->
  g 3 = None /\
  exists pre c1 c2,
    s = pre +:+ String c1 (String c2 "") /\
    is_digit c1 = true /\ is_digit c2 = true /\
    g 4 = Some (String c1 (String c2 "")).
Proof.
  intros H. split.
  { rewrite (matches_frame _ _ _ _ _ H 3); [done|].
    cbn. rewrite !elem_of_cons, elem_of_nil. lia. }
  unfold two_digit_regex in H.
  inversion H as [| |? ? ? ? s1 g1 ? ? Hd H1| | | | | | |]; subst; clear H.
  inversion H1 as [| |? ? ? ? s2 g2 ? ? Hs1 H2| | | | | | |]; subst; clear H1.
  inversion H2 as [| |? ? ? ? s3 g3 ? ? Hm H3| | | | | | |]; subst; clear H2.
  inversion H3 as [| |? ? ? ? s4 g4 ? ? Hs2 H4| | | | | | |]; subst; clear H3.
  inversion H4 as [| |? ? ? ? s5 g5 ? ? Hy H5| | | | | | |]; subst; clear H4.
  inversion H5; subst; clear H5.
  unfold directive_y in Hy.
  inversion Hy as [| | | | | | | | |? ? ? ? ? ? Hyy]; subst; clear Hy.
  inversion Hyy as [| |? ? ? ? s6 g6 ? ? Hc1 Hc2| | | | | | |]; subst; clear Hyy.
  inversion Hc1; subst; clear Hc1.
  inversion Hc2; subst; clear Hc2.
  apply matches_prefix in Hd as [p1 ->], Hs1 as [p2 ->], Hm as [p3 ->], Hs2 as [p4 ->].
  exists (p1 +:+ p2 +:+ p3 +:+ p4), c, c0.
  rewrite !append_assoc. repeat split; try done.
Qed.

(** The formats with a two-digit year, by their separator. *)
Lemma two_digit_format_regex fmt :
  In fmt date_formats -> endswith "%y" fmt = true ->
  exists sep, format_regex fmt = two_digit_regex sep.
Proof.
  cbn. intros H. repeat (destruct H as [<-|H]; [|]); try contradiction;
    intros E; try discriminate E.
  - by exists "."%char.
  - by exists "/"%char.
  - by exists "-"%char.
Qed.

Lemma strptime_two_digit_year s fmt d :
  In fmt date_formats -> endswith "%y" fmt = true ->
  strptime s fmt = Some d ->
  exists pre yy,
    s = pre +:+ yy /\ String.length yy = 2 /\
    (0 <= Num.digits_val yy <= 99)%Z /\
    year d = pivot (Num.digits_val yy).
Proof.
  intros Hin Hy H.
  destruct (two_digit_format_regex _ Hin Hy) as [sep Hr].
  unfold strptime in H. rewrite Hr in H.
  destruct (match_at (two_digit_regex sep) s) as [[g rest]|] eqn:Hm; [|discriminate].
  destruct rest; [|discriminate].
  apply match_at_sound, two_digit_year_group in Hm as (H3 & pre & c1 & c2 & -> & Hc1 & Hc2 & H4).
  destruct (two_digits_int c1 c2 Hc1 Hc2) as [Hint Hrange].
  exists pre, (String c1 (String c2 "")).
  repeat split; try done; try lia.
  unfold make_date in H. destruct (valid_date _ _ _); [|discriminate].
  injection H as <-. cbn [year].
  unfold match_year, group_int. by rewrite H3, H4, Hint.
Qed.

Lemma try_format_strptime s fmt d :
  In fmt date_formats -> strptime s fmt = Some d -> try_format s fmt = Some d.
Proof.
  intros Hin H. unfold try_format. rewrite H.
  destruct (endswith "%y" fmt) eqn:Hy; [|done].
  destruct (strptime_two_digit_year _ _ _ Hin Hy H) as (pre & yy & _ & _ & Hr & Hyear).
  replace (year d <? 1950)%Z with false; [done|].
  symmetry. apply Z.ltb_ge. rewrite Hyear. unfold pivot. case_match; lia.
Qed.

Lemma parse_birth_date_first s : forall fmts,
  (forall f, In f fmts -> In f date_formats) ->
  parse_birth_date fmts s = first_strptime fmts s.
Proof.
  induction fmts as [|f fmts IH]; intros Hsub; [done|]. cbn.
  destruct (strptime s f) as [d|] eqn:E.
  - rewrite (try_format_strptime s f d); [done| |done]. apply Hsub. by left.
  - unfold try_format. rewrite E. apply IH. intros f' Hf'. apply Hsub. by right.
Qed.

Lemma strptime_empty fmt : In fmt date_formats -> strptime "" fmt = None.
Proof.
  cbn. intros H. repeat (destruct H as [<-|H]; [|]); try contradiction; reflexivity.
Qed.

Lemma first_strptime_empty : first_strptime date_formats "" = None.
Proof. reflexivity. Qed.

Lemma month_day_before_precedes a b : month_day_before a b = true <-> precedes a b.
Proof.
  unfold month_day_before, precedes.
  rewrite orb_true_iff, andb_true_iff, !Z.ltb_lt, Z.eqb_eq. tauto.
Qed.

Lemma calculate_age_on today s :
  _calculate_age today s =
    match first_strptime date_formats s with
    | Some birth_date => Num.str (age_on today birth_date)
    | None => ""
    end.
Proof.
  unfold _calculate_age.
  destruct s as [|c s]; [reflexivity|]. cbn [is_empty].
  rewrite parse_birth_date_first by done.
  destruct (first_strptime date_formats (String c s)) as [d|]; [|done].
  unfold age_on. pose proof (month_day_before_precedes today d) as Hp.
  destruct (month_day_before today d); destruct (decide (precedes today d)) as [Hd|Hd];
    f_equal; try lia.
  - exfalso. apply Hd. by apply Hp.
  - apply Hp in Hd. discriminate Hd.
Qed.

(** C7. The age is the current year minus the birth year, less one exactly
    when today's (month, day) pair precedes the birth (month, day) pair (an
    earlier month, or the same month and an earlier day), the birth date
    being the one the first listed format that parses gives; a string no
    format parses, the empty string among them, gives the empty age. On
    2024-01-01, "17.08.2010" gives "13" and "17.08.2024" gives "-1"; on the
    day before the birthday the year is not yet counted, on the birthday
    and after it is. *)
Theorem calculate_age_spec (today : date) (birth_date_str : string) :
  _calculate_age today birth_date_str =
    match first_strptime date_formats birth_date_str with
    | Some birth_date => Num.str (age_on today birth_date)
    | None => ""
    end /\
  _calculate_age today "" = "" /\
  _calculate_age Samples.today "17.08.2010" = "13" /\
  _calculate_age Samples.today "17.08.2024" = "-1" /\
  _calculate_age (Date 2024 8 16) "17.08.2010" = "13" /\
  _calculate_age (Date 2024 8 17) "17.08.2010" = "14" /\
  _calculate_age (Date 2024 9 1) "17.08.2010" = "14" /\
  _calculate_age (Date 2024 6 2) "01.01.2010" = "14" /\
  _calculate_age (Date 2024 7 20) "17.08.2010" = "13".
Proof.
  split; [apply calculate_age_on|]. by vm_compute.
Qed.

(** C8, as the code has it. For a string in a two-digit-year format, 100
    years are added exactly when the year [strptime] gives is below 1950.
    [strptime] reads the two digits 69..99 as 1969..1999 and 00..50 as
    2000..2050. *)
Theorem two_digit_year (s fmt : string) (d : date) :
  In fmt date_formats -> endswith "%y" fmt = true -> strptime s fmt = Some d ->
  try_format s fmt =
    (if (year d <? 1950)%Z then replace_year d (year d + 100) else Some d) /\
  exists pre yy,
    s = pre +:+ yy /\ String.length yy = 2 /\
    (0 <= Num.digits_val yy <= 99)%Z /\
    (69 <= Num.digits_val yy -> year d = 1900 + Num.digits_val yy)%Z /\
    (Num.digits_val yy <= 50 -> year d = 2000 + Num.digits_val yy)%Z.
Proof.
  intros Hin Hy H. split.
  { unfold try_format. by rewrite H, Hy. }
  destruct (strptime_two_digit_year _ _ _ Hin Hy H) as (pre & yy & Hs & Hlen & Hr & Hyear).
  exists pre, yy. repeat split; try done; try lia;
    intros Hyy; rewrite Hyear; unfold pivot; case_match; lia.
Qed.

(** The instance of C8's theorem at "17.08.85". *)
Lemma two_digit_year_witness :
  try_format "17.08.85" "%d.%m.%y" =
    (if (year (Date 1985 8 17) <? 1950)%Z
     then replace_year (Date 1985 8 17) (year (Date 1985 8 17) + 100)
     else Some (Date 1985 8 17)) /\
  exists pre yy,
    "17.08.85" = pre +:+ yy /\ String.length yy = 2 /\
    (0 <= Num.digits_val yy <= 99)%Z /\
    (69 <= Num.digits_val yy -> year (Date 1985 8 17) = 1900 + Num.digits_val yy)%Z /\
    (Num.digits_val yy <= 50 -> year (Date 1985 8 17) = 2000 + Num.digits_val yy)%Z.
Proof.
  apply (two_digit_year "17.08.85" "%d.%m.%y" (Date 1985 8 17)).
  - cbn. tauto.
  - reflexivity.
  - vm_compute. reflexivity.
Defined.

(** C8 fails for the years [strptime] puts at or above 1950 in the 1900s:
    "17.08.85" parses to 1985, which is not below 1950, and the birth year
    stays 1985. *)
Lemma year_85_stays_in_1900s :
  strptime "17.08.85" "%d.%m.%y" = Some (Date 1985 8 17) /\
  (1985 <? 1950)%Z = false /\
  parse_birth_date date_formats "17.08.85" = Some (Date 1985 8 17) /\
  _calculate_age Samples.today "17.08.85" = "38".
Proof. vm_compute. repeat split; reflexivity. Qed.

End DateFacts.

(** ** The value normalizer *)

Section ValueFacts.

Import Py Re ReSpec IOL700Parser Props.

Lemma comma_to_dot_map s : comma_to_dot s = str_map dot_for_comma s.
Proof.
  unfold comma_to_dot, replace.
  induction s as [|c s IH]; [reflexivity|].
  cbn [replace_from str_map startswith]. unfold dot_for_comma.
  rewrite Ascii.eqb_sym.
  destruct (Ascii.eqb c ","); cbn [String.length Nat.sub].
  - rewrite IH. reflexivity.
  - rewrite IH. reflexivity.
Qed.

Lemma numchar_dot c : numchar c = true ->
  is_space (dot_for_comma c) = false /\ dot_for_comma (dot_for_comma c) = dot_for_comma c.
Proof.
  destruct c as [[] [] [] [] [] [] [] []]; vm_compute; intros H;
    first [discriminate H | split; reflexivity].
Qed.

Lemma strip_no_space s : str_all (fun c => negb (is_space c)) s = true -> strip s = s.
Proof.
  intros H. unfold strip.
  assert (Hl : lstrip s = s).
  { destruct s as [|c s]; [done|]. cbn in H |- *.
    apply andb_true_iff in H as [Hc _]. by destruct (is_space c). }
  rewrite Hl. induction s as [|c s IH]; [done|].
  cbn in H |- *. apply andb_true_iff in H as [Hc Hs].
  destruct (is_space c); [discriminate|]. cbn.
  rewrite IH; [done|done|].
  destruct s as [|c' s]; [done|]. cbn in Hs |- *.
  apply andb_true_iff in Hs as [Hc' _]. by destruct (is_space c').
Qed.

Lemma blank_is_space c : Num.is_blank c = true -> is_space c = true.
Proof. destruct c as [[] [] [] [] [] [] [] []]; vm_compute; congruence. Qed.

Lemma skip_blanks_no_space s :
  str_all (fun c => negb (is_space c)) s = true -> Num.skip_blanks s = s.
Proof.
  intros H. unfold Num.skip_blanks.
  assert (Hb : forall c, is_space c = false -> Num.is_blank c = false).
  { intros c Hc. destruct (Num.is_blank c) eqn:E; [|done].
    apply blank_is_space in E. congruence. }
  assert (Hl : Num.skip_left s = s).
  { destruct s as [|c s]; [done|]. cbn in H |- *.
    apply andb_true_iff in H as [Hc _]. apply negb_true_iff in Hc. by rewrite (Hb c Hc). }
  rewrite Hl. clear Hl. induction s as [|c s IH]; [done|].
  cbn in H |- *. apply andb_true_iff in H as [Hc Hs]. apply negb_true_iff in Hc.
  rewrite (Hb c Hc). cbn. by rewrite IH.
Qed.

Lemma token_value tok :
  str_all numchar tok = true ->
  strip (comma_to_dot tok) = comma_to_dot tok /\
  comma_to_dot (comma_to_dot tok) = comma_to_dot tok.
Proof.
  intros H. rewrite !comma_to_dot_map. split.
  - apply strip_no_space. induction tok as [|c s IH]; [done|].
    cbn in H |- *. apply andb_true_iff in H as [Hc Hs].
    destruct (numchar_dot c Hc) as [-> _]. cbn. by apply IH.
  - induction tok as [|c s IH]; [done|].
    cbn in H |- *. apply andb_true_iff in H as [Hc Hs].
    destruct (numchar_dot c Hc) as [_ ->]. by rewrite IH.
Qed.

Lemma Qltb_lt a b : Qltb a b = true <-> (a < b)%Q.
Proof. unfold Qltb, Qlt. apply Z.ltb_lt. Qed.

Lemma strictly_between_spec v :
  strictly_between v = true <-> ((1 # 2) + (1 # 2 ^ 54) < v /\ v < 100 - (1 # 2 ^ 47))%Q.
Proof. unfold strictly_between. by rewrite andb_true_iff, !Qltb_lt. Qed.

(** The comparisons of the code with 0.5 and 100 decide
    [strictly_between]. *)
Lemma plausible_strictly_between val :
  plausible val =
    match Num.float val with
    | Some (Num.FNum v) => strictly_between v
    | _ => false
    end.
Proof.
  unfold plausible. destruct (Num.float val) as [[v|[]|]|]; try reflexivity.
  unfold Num.gt_half, Num.lt_100, strictly_between, Qltb, Qle_bool.
  by rewrite <- !Z.ltb_antisym.
Qed.

Lemma first_plausible_find tokens :
  Forall (fun tok => str_all numchar tok = true) tokens ->
  first_plausible tokens =
    match List.find in_range tokens with
    | Some tok => comma_to_dot tok
    | None => ""
    end.
Proof.
  induction 1 as [|tok tokens Htok _ IH]; [done|].
  cbn [first_plausible List.find].
  destruct (token_value tok Htok) as [Hstrip Hidem].
  fold (comma_to_dot tok). rewrite Hstrip.
  unfold _is_numeric. fold (comma_to_dot (comma_to_dot tok)). rewrite Hidem.
  rewrite plausible_strictly_between. unfold in_range, decimal_value.
  destruct (Num.float (comma_to_dot tok)) as [[v|[]|]|]; cbn; try exact IH.
  by destruct (strictly_between v).
Qed.

Lemma length_append (a b : string) : String.length (a +:+ b) = String.length a + String.length b.
Proof.
  induction a as [|c a IH]; [reflexivity|].
  change (S (String.length (a +:+ b)) = S (String.length a + String.length b)).
  by rewrite IH.
Qed.

Lemma str_take_append (a b : string) : str_take (String.length a) (a +:+ b) = a.
Proof.
  induction a as [|c a IH]; [by destruct b|].
  change (String c (str_take (String.length a) (a +:+ b)) = String c a).
  by rewrite IH.
Qed.

(** The run a star reads is made of characters of its class. *)
Lemma star_run p s g s' g' :
  matches (Star p) s g s' g' -> exists pre, s = pre +:+ s' /\ str_all p pre = true.
Proof.
  remember (Star p) as r eqn:Hr. induction 1; try discriminate Hr.
  - by exists "".
  - injection Hr as ->. destruct (IHmatches eq_refl) as (pre & -> & Hall).
    exists (String c pre). split; [done|]. cbn. by rewrite H, Hall.
Qed.

Lemma number_token_run s g rest :
  match_at number_token s = Some (g, rest) ->
  exists pre, s = pre +:+ rest /\ str_all numchar pre = true.
Proof.
  intros H%match_at_sound. unfold number_token, plus in H.
  inversion H as [| |? ? ? ? s1 g1 ? ? Hc Hs| | | | | | |]; subst; clear H.
  inversion Hc as [|? c ? ? Hp| | | | | | | |]; subst; clear Hc.
  apply star_run in Hs as (pre & -> & Hall).
  exists (String c pre). split; [done|]. cbn. by rewrite Hp, Hall.
Qed.

(** The tokens of [re.findall(r"[\d,\.]+", text)] are made of digits,
    commas and points. *)
Lemma findall_number_tokens fuel : forall s,
  Forall (fun tok => str_all numchar tok = true) (findall_fuel fuel number_token s).
Proof.
  induction fuel as [|fuel IH]; intros s; cbn [findall_fuel]; [constructor|].
  destruct (match_at number_token s) as [[g rest]|] eqn:Hm.
  - destruct (number_token_run _ _ _ Hm) as (pre & -> & Hall).
    rewrite length_append, Nat.add_sub.
    destruct (String.length pre) eqn:Hlen.
    + destruct (pre +:+ rest); [constructor | apply IH].
    + rewrite <- Hlen, str_take_append. constructor; [done | apply IH].
  - destruct s; [constructor | apply IH].
Qed.

(** A value in range is strictly between 0.5 and 100. *)
Lemma strictly_between_exact v :
  strictly_between v = true -> (1 # 2 < v /\ v < 100)%Q.
Proof.
  intros [Hlo Hhi]%strictly_between_spec. split.
  - eapply Qlt_trans; [|exact Hlo]. by vm_compute.
  - eapply Qlt_trans; [exact Hhi|]. by vm_compute.
Qed.

(** For a decimal number with at most 13 digits after the point, to be in
    range is to be strictly between 0.5 and 100: it is at least [10^-13]
    away from both bounds, more than half a step of binary64. *)
Lemma strictly_between_decimal (v : Q) (n : Z) (d : positive) :
  (v == n # d)%Q -> (Z.pos d <= 10 ^ 13)%Z ->
  (strictly_between v = true <-> (1 # 2 < v /\ v < 100)%Q).
Proof.
  intros Hv Hd. split; [apply strictly_between_exact|].
  rewrite strictly_between_spec, Hv. intros [Hlo Hhi].
  assert (E1 : ((1 # 2) + (1 # 2 ^ 54) == (2 ^ 53 + 1) # (2 ^ 54))%Q) by by vm_compute.
  assert (E2 : (100 - (1 # 2 ^ 47) == (100 * 2 ^ 47 - 1) # (2 ^ 47))%Q) by by vm_compute.
  rewrite E1, E2. unfold Qlt in *. cbn [Qnum Qden] in *.
  change (Z.pos (2 ^ 54)) with (2 ^ 54)%Z. change (Z.pos (2 ^ 47)) with (2 ^ 47)%Z.
  change (10 ^ 13)%Z with 10000000000000%Z in Hd.
  change (2 ^ 54)%Z with 18014398509481984%Z.
  change (2 ^ 53)%Z with 9007199254740992%Z.
  change (2 ^ 47)%Z with 140737488355328%Z.
  lia.
Qed.

(** C6. When neither the strict nor the lazy capture yields a numeric value,
    the normalizer returns the first number-like token of the text whose
    value, after the comma is turned into a point, is strictly greater than
    0.5 and strictly less than 100, and "" when there is none. The value of
    a token is the number [float] gives it: every token in range denotes a
    decimal number strictly between 0.5 and 100, and a token with at most
    13 digits after the point is in range exactly when the number it
    denotes is strictly between 0.5 and 100. The bounds themselves, a year
    and a small number are passed over. For each measurement label,
    "24,18mm" gives "24.18", "24.18 D" gives "24.18", and "abc" gives "". *)
Theorem extract_value_last_resort (text label : string) :
  capture_value (pattern1 label) (upper text) = None ->
  capture_value (pattern2 label) (upper text) = None ->
  _extract_value_from_text text label =
    match List.find in_range (findall number_token text) with
    | Some tok => comma_to_dot tok
    | None => ""
    end /\
  (forall tok, in_range tok = true ->
     exists v, decimal_value tok = Some v /\ (1 # 2 < v /\ v < 100)%Q) /\
  (forall tok v n d,
     decimal_value tok = Some v -> (v == n # d)%Q -> (Z.pos d <= 10 ^ 13)%Z ->
     (in_range tok = true <-> (1 # 2 < v /\ v < 100)%Q)) /\
  map in_range ["0.5"; "0,5"; "0.51"; "0,6"; "99.99"; "100"; "100,0"; "2024"; "0,3"; "1.2.3"; ","] =
    [false; false; true; true; true; false; false; false; false; false; false] /\
  _extract_value_from_text "x 0,3 7 24,18mm" "AL" = "7" /\
  _extract_value_from_text "x 2024 100 0.5 99,5 7" "AL" = "99.5" /\
  Forall (fun lbl =>
            _extract_value_from_text "24,18mm" (fst lbl) = "24.18" /\
            _extract_value_from_text "24.18 D" (fst lbl) = "24.18" /\
            _extract_value_from_text "abc" (fst lbl) = "") meas_labels.
Proof.
  intros H1 H2. split; [|split; [|split; [|split; [|split; [|split]]]]].
  - unfold _extract_value_from_text. rewrite H1, H2.
    apply first_plausible_find, findall_number_tokens.
  - intros tok. unfold in_range. destruct (decimal_value tok) as [v|]; [|discriminate].
    intros H. exists v. split; [done|]. by apply strictly_between_exact.
  - intros tok v n d Hv Heq Hd. unfold in_range. rewrite Hv.
    by apply (strictly_between_decimal v n d).
  - by vm_compute.
  - by vm_compute.
  - by vm_compute.
  - repeat constructor.
Qed.

(** The instance of C6's theorem at a text with three tokens, the second
    of which is returned. *)
Lemma extract_value_last_resort_witness :
  _extract_value_from_text "x 0,3 7 24,18mm" "AL" =
    match List.find in_range (findall number_token "x 0,3 7 24,18mm") with
    | Some tok => comma_to_dot tok
    | None => ""
    end /\
  (forall tok, in_range tok = true ->
     exists v, decimal_value tok = Some v /\ (1 # 2 < v /\ v < 100)%Q) /\
  (forall tok v n d,
     decimal_value tok = Some v -> (v == n # d)%Q -> (Z.pos d <= 10 ^ 13)%Z ->
     (in_range tok = true <-> (1 # 2 < v /\ v < 100)%Q)) /\
  map in_range ["0.5"; "0,5"; "0.51"; "0,6"; "99.99"; "100"; "100,0"; "2024"; "0,3"; "1.2.3"; ","] =
    [false; false; true; true; true; false; false; false; false; false; false] /\
  _extract_value_from_text "x 0,3 7 24,18mm" "AL" = "7" /\
  _extract_value_from_text "x 2024 100 0.5 99,5 7" "AL" = "99.5" /\
  Forall (fun lbl =>
            _extract_value_from_text "24,18mm" (fst lbl) = "24.18" /\
            _extract_value_from_text "24.18 D" (fst lbl) = "24.18" /\
            _extract_value_from_text "abc" (fst lbl) = "") meas_labels.
Proof.
  apply (extract_value_last_resort "x 0,3 7 24,18mm" "AL"); vm_compute; reflexivity.
Defined.

(** The tokens of the sample text and the one in range. *)
Example last_resort_skips_small :
  findall number_token "x 0,3 7 24,18mm" = ["0,3"; "7"; "24,18"] /\
  map in_range ["0,3"; "7"; "24,18"] = [false; true; true] /\
  _extract_value_from_text "x 0,3 7 24,18mm" "AL" = "7".
Proof. vm_compute. repeat split; reflexivity. Qed.

(** Half a step of binary64 above 0.5 the value of a token is still 0.5:
    such a token is passed over though the decimal number it denotes is
    greater than 0.5. *)
Example range_rounds :
  map in_range ["0.50000000000000001"; "0.5000000000000001";
                "99.999999999999999"; "99.99999999999999"] =
    [false; true; false; true].
Proof. vm_compute. reflexivity. Qed.

End ValueFacts.

(** ** The duplicate filter of the merge *)

Section ExcelFacts.

Import Py Props ExcelHandler.

Lemma filter_new_rows_spec new_rows : forall ks : gset (string * string),
  (filter_new_rows ks new_rows) `sublist_of` new_rows /\
  NoDup (row_pair <$> filter_new_rows ks new_rows) /\
  (forall p, p ∈ (row_pair <$> filter_new_rows ks new_rows) <->
             (p ∉ ks) /\ exists r, r ∈ new_rows /\ row_pair r = p /\ valid_pair r = true).
Proof.
  induction new_rows as [|r rest IH]; intros ks; cbn [filter_new_rows].
  - split; [constructor|]. split; [constructor|].
    intros p. cbn. rewrite elem_of_nil. split; [done|].
    intros (_ & r & Hr & _). by apply elem_of_nil in Hr.
  - fold (valid_pair r). fold (row_pair r).
    destruct (valid_pair r) eqn:Hv; cbn [andb].
    + destruct (bool_decide (row_pair r ∈ ks)) eqn:Hin; cbn [negb].
      * apply bool_decide_eq_true in Hin.
        destruct (IH ks) as (Hsub & Hnd & Hmem).
        split; [by apply sublist_cons|]. split; [done|].
        intros p. rewrite Hmem. split.
        -- intros (Hp & r' & Hr' & Heq & Hv'). split; [done|].
           exists r'. split; [by right | done].
        -- intros (Hp & r' & Hr' & Heq & Hv'). split; [done|].
           apply elem_of_cons in Hr' as [->|Hr']; [congruence|]. eauto.
      * apply bool_decide_eq_false in Hin.
        destruct (IH ({[row_pair r]} ∪ ks)) as (Hsub & Hnd & Hmem).
        split; [by apply sublist_skip|].
        split.
        -- cbn. constructor; [|done]. rewrite Hmem.
           intros [Hn _]. apply Hn, elem_of_union_l. by apply elem_of_singleton.
        -- intros p. cbn. rewrite elem_of_cons, Hmem. split.
           ++ intros [->|(Hp & r' & Hr' & Heq & Hv')].
              ** split; [done|]. exists r. split; [by left | done].
              ** split; [intros ?; by apply Hp, elem_of_union_r|].
                 exists r'. split; [by right | done].
           ++ intros (Hp & r' & Hr' & Heq & Hv').
              destruct (decide (p = row_pair r)) as [->|Hne]; [by left|].
              right. split; [by intros [?%elem_of_singleton|?]%elem_of_union|].
              apply elem_of_cons in Hr' as [->|Hr']; [congruence|]. eauto.
    + destruct (IH ks) as (Hsub & Hnd & Hmem).
      split; [by apply sublist_cons|]. split; [done|].
      intros p. rewrite Hmem. split.
      * intros (Hp & r' & Hr' & Heq & Hv'). split; [done|].
        exists r'. split; [by right | done].
      * intros (Hp & r' & Hr' & Heq & Hv'). split; [done|].
        apply elem_of_cons in Hr' as [->|Hr']; [congruence|]. eauto.
Qed.



(** A patient id that is its own integer text is found again. *)
Example second_call_adds_nothing :
  List.length (rows_to_add Samples.float_text Samples.keyed_sheet [Samples.od_record "7"]) = 1 /\
  cell_value (merge_excel_data Samples.float_text Samples.keyed_sheet [Samples.od_record "7"]) 3 1 = VInt 7 /\
  rows_to_add Samples.float_text
    (merge_excel_data Samples.float_text Samples.keyed_sheet [Samples.od_record "7"])
    [Samples.od_record "7"] = [].
Proof. vm_compute. repeat split; reflexivity. Qed.

End ExcelFacts.

(** ** Shapes of the values the parser returns *)

Section RecordFacts.

Import Py Re ReSpec IOL700Parser Props MoreProps.

Lemma str_all_digits_only s : str_all is_digit (digits_only s) = true.
Proof.
  induction s as [|c s IH]; [done|]. cbn.
  destruct (is_digit c) eqn:E; [|done]. cbn. by rewrite E, IH.
Qed.

Lemma digits_only_rstrip s : digits_only s = "" -> digits_only (rstrip s) = "".
Proof.
  induction s as [|c s IH]; [done|]. cbn.
  destruct (is_digit c) eqn:E; [discriminate|]. intros H.
  destruct (is_space c && is_empty (rstrip s)); [done|].
  cbn. rewrite E. by apply IH.
Qed.

Lemma digits_only_lstrip s : digits_only s = "" -> digits_only (lstrip s) = "".
Proof.
  induction s as [|c s IH]; [done|]. cbn.
  destruct (is_digit c) eqn:E; [discriminate|]. intros H.
  destruct (is_space c); [by apply IH|]. cbn. by rewrite E.
Qed.

Lemma digits_only_strip s : digits_only s = "" -> digits_only (strip s) = "".
Proof. intros H. by apply digits_only_rstrip, digits_only_lstrip. Qed.

(** The patient id [parse] attaches is either a non-empty run of digits or
    a text without any digit (the empty text when no label matched): digits
    are never mixed with other characters. *)
Theorem patient_id_digits_or_none (text : string) :
  is_number (extract_patient_id text) = true \/
  digits_only (extract_patient_id text) = "".
Proof.
  unfold extract_patient_id.
  set (raw := or_else _ _).
  destruct (truthy raw) eqn:Hraw.
  - destruct (truthy (digits_only raw)) eqn:Hd.
    + left. unfold is_number. by rewrite Hd, str_all_digits_only.
    + right. apply digits_only_strip. by destruct (digits_only raw).
  - right. by destruct raw.
Qed.

Lemma dot_for_comma_idem c : dot_for_comma (dot_for_comma c) = dot_for_comma c.
Proof.
  unfold dot_for_comma. destruct (Ascii.eqb c ",") eqn:E; [reflexivity|]. by rewrite E.
Qed.

Lemma comma_to_dot_idem s : comma_to_dot (comma_to_dot s) = comma_to_dot s.
Proof.
  rewrite !comma_to_dot_map. induction s as [|c s IH]; [done|].
  cbn. by rewrite dot_for_comma_idem, IH.
Qed.

Lemma capture_value_numeric r text v :
  capture_value r text = Some v ->
  _is_numeric v = true /\ is_Some (Num.float v).
Proof.
  unfold capture_value. destruct (search_group1 r text) as [g|]; [|discriminate].
  destruct (_is_numeric _) eqn:E; [|discriminate]. intros [= <-].
  split; [done|]. unfold _is_numeric, clean_value in E.
  fold (comma_to_dot (strip (replace "°" "" (replace "D" "" (replace "µ" ""
         (replace "µm" "" (replace "mm" "" (strip g))))))) ) in E |- *.
  fold (comma_to_dot (comma_to_dot (strip (replace "°" "" (replace "D" "" (replace "µ" ""
         (replace "µm" "" (replace "mm" "" (strip g)))))))) ) in E.
  rewrite comma_to_dot_idem in E.
  destruct (Num.float _); [eauto | discriminate].
Qed.

Lemma first_plausible_numeric numbers :
  first_plausible numbers = "" \/
  (_is_numeric (first_plausible numbers) = true /\
   plausible (first_plausible numbers) = true).
Proof.
  induction numbers as [|n rest IH]; [by left|]. cbn [first_plausible].
  destruct (_is_numeric _ && plausible _) eqn:E; [|exact IH].
  right. by apply andb_true_iff in E.
Qed.

Lemma extract_value_shape (text label : string) :
  _extract_value_from_text text label = "" \/
  (_is_numeric (_extract_value_from_text text label) = true /\
   is_Some (Num.float (_extract_value_from_text text label))).
Proof.
  unfold _extract_value_from_text.
  destruct (capture_value (pattern1 label) (upper text)) as [v|] eqn:E1.
  { right. by eapply capture_value_numeric. }
  destruct (capture_value (pattern2 label) (upper text)) as [v|] eqn:E2.
  { right. by eapply capture_value_numeric. }
  destruct (first_plausible_numeric (findall number_token text)) as [->|[H1 H2]];
    [by left|].
  right. split; [done|]. unfold plausible in H2.
  destruct (Num.float _); [eauto | discriminate].
Qed.

Lemma search_sound r : forall s g,
  search r s = Some g ->
  exists s0 rest, is_suffix s0 s = true /\ matches r s0 no_captures rest g.
Proof.
  induction s as [|c s IH]; intros g H; cbn in H.
  - destruct (match_at r "") as [[g' rest]|] eqn:E; [|discriminate].
    injection H as <-. apply match_at_sound in E.
    exists "", rest. split; [reflexivity | exact E].
  - destruct (match_at r (String c s)) as [[g' rest]|] eqn:E.
    + injection H as <-. apply match_at_sound in E.
      exists (String c s), rest. split; [|done].
      cbn [is_suffix]. by rewrite String.eqb_refl.
    + apply IH in H as (s0 & rest & Hs & Hm).
      exists s0, rest. split; [|done]. cbn [is_suffix]. by rewrite Hs, orb_true_r.
Qed.

Lemma plus_run p s g s' g' :
  matches (plus p) s g s' g' ->
  g' = g /\ exists pre, s = pre +:+ s' /\ str_all p pre = true /\ truthy pre = true.
Proof.
  unfold plus. intros H.
  inversion H as [| |? ? ? ? s1 g1 ? ? Hc Hs| | | | | | |]; subst; clear H.
  inversion Hc as [|? c ? ? Hp| | | | | | | |]; subst; clear Hc.
  assert (g' = g1) as ->.
  { remember (Star p) as r eqn:Hr. clear Hp. induction Hs; try discriminate Hr; auto. }
  split; [done|].
  apply star_run in Hs as (pre & -> & Hall).
  exists (String c pre). split; [done|]. split; [|done]. cbn. by rewrite Hp, Hall.
Qed.

(** What a group around a run captures. *)
Lemma group_of_run n p s g s' g' :
  matches (Grp n (plus p)) s g s' g' ->
  exists d, g' n = Some d /\ str_all p d = true /\ truthy d = true.
Proof.
  intros H. inversion H as [| | | | | | | | |? ? ? ? ? g0 Hr]; subst; clear H.
  apply plus_run in Hr as (-> & pre & -> & Hall & Hne).
  exists pre. rewrite length_append, Nat.add_sub, str_take_append.
  unfold set_capture. by rewrite Nat.eqb_refl.
Qed.

(** *** The characters of a value read from text *)













Lemma axis_degree_group s g rest g' :
  matches axis_degree s g rest g' -> exists d, g' 1 = Some d /\ is_number d = true.
Proof.
  unfold axis_degree. cbn [seqs]. intros H.
  inversion H as [| |? ? ? ? s1 g1 ? ? H1 H2| | | | | | |]; subst; clear H.
  inversion H2 as [| |? ? ? ? s2 g2 ? ? H3 H4| | | | | | |]; subst; clear H2.
  inversion H4 as [| |? ? ? ? s3 g3 ? ? H5 H6| | | | | | |]; subst; clear H4.
  apply group_of_run in H5 as (d & Hd & Hall & Hne).
  exists d. split.
  - rewrite (matches_frame _ _ _ _ _ H6 1); [done|]. cbn. apply not_elem_of_nil.
  - unfold is_number. unfold digit in Hall. by rewrite Hne, Hall.
Qed.

Lemma axis_plain_group s g rest g' :
  matches axis_plain s g rest g' -> exists d, g' 1 = Some d /\ is_number d = true.
Proof.
  unfold axis_plain. cbn [seqs]. intros H.
  inversion H as [| |? ? ? ? s1 g1 ? ? H1 H2| | | | | | |]; subst; clear H.
  inversion H2 as [| |? ? ? ? s2 g2 ? ? H3 H4| | | | | | |]; subst; clear H2.
  apply group_of_run in H4 as (d & Hd & Hall & Hne).
  exists d. split; [done|]. unfold is_number. unfold digit in Hall. by rewrite Hne, Hall.
Qed.

Lemma search_axis_degree s v : search_group1 axis_degree s = Some v -> is_number v = true.
Proof.
  unfold search_group1. destruct (search axis_degree s) as [g|] eqn:E; [|discriminate].
  apply search_sound in E as (s0 & rest & _ & Hm).
  apply axis_degree_group in Hm as (d & Hd & Hn). congruence.
Qed.

Lemma search_axis_plain s v : search_group1 axis_plain s = Some v -> is_number v = true.
Proof.
  unfold search_group1. destruct (search axis_plain s) as [g|] eqn:E; [|discriminate].
  apply search_sound in E as (s0 & rest & _ & Hm).
  apply axis_plain_group in Hm as (d & Hd & Hn). congruence.
Qed.

Lemma modele_implante_shape (cell_text : string) (r : row) (col_idx : nat) :
  _extract_modele_implante cell_text r col_idx = "" \/
  is_number (_extract_modele_implante cell_text r col_idx) = true.
Proof.
  unfold _extract_modele_implante, search_next_cell.
  set (next := IOL700Parser.cell_text (cell_at r (col_idx + 1))).
  destruct (search_group1 axis_degree cell_text) as [v|] eqn:E1;
    [right; by eapply search_axis_degree|].
  destruct (search_group1 axis_plain cell_text) as [v|] eqn:E3.
  - destruct (cell_truthy (cell_at r (col_idx + 1))).
    + destruct (search_group1 axis_degree next) as [w|] eqn:E2; right;
        [by eapply search_axis_degree | by eapply search_axis_plain].
    + right. by eapply search_axis_plain.
  - destruct (cell_truthy (cell_at r (col_idx + 1))); [|by left].
    destruct (search_group1 axis_degree next) as [w|] eqn:E2;
      [right; by eapply search_axis_degree|].
    destruct (search_group1 axis_plain next) as [w|] eqn:E4;
      [right; by eapply search_axis_plain | by left].
Qed.

(** The axis read next to K1 is either empty or a non-empty run of
    digits. *)
Theorem modele_implante_digits (cell_text : string) (r : row) (col_idx : nat) :
  _extract_modele_implante cell_text r col_idx = "" \/
  is_number (_extract_modele_implante cell_text r col_idx) = true.
Proof. apply modele_implante_shape. Qed.

Lemma digit_plain c : is_digit c = true ->
  is_space c = false /\ dot_for_comma c = c /\ upper_char c = c /\
  Ascii.eqb c "-" = false /\ Ascii.eqb c "+" = false /\
  Ascii.eqb c "I" = false /\ Ascii.eqb c "N" = false.
Proof.
  intros H%is_digit_cases. cbn in H.
  repeat (destruct H as [<-|H]; [by vm_compute|]). contradiction.
Qed.

Lemma digitpart_rest_digits s : str_all is_digit s = true -> Num.digitpart_rest s = (s, "").
Proof.
  induction s as [|c s IH]; [done|]. cbn. intros [Hc Hs]%andb_true_iff.
  by rewrite Hc, IH.
Qed.

Lemma digits_no_space s :
  str_all is_digit s = true -> str_all (fun c => negb (is_space c)) s = true.
Proof.
  induction s as [|c s IH]; [done|]. cbn. intros [Hc Hs]%andb_true_iff.
  destruct (digit_plain c Hc) as (-> & _). by rewrite IH.
Qed.

Lemma digits_no_comma s : str_all is_digit s = true -> comma_to_dot s = s.
Proof.
  rewrite comma_to_dot_map.
  induction s as [|c s IH]; [done|]. cbn. intros [Hc Hs]%andb_true_iff.
  destruct (digit_plain c Hc) as (_ & -> & _). by rewrite IH.
Qed.

(** A run of digits is read by [float] and by [int]. *)
Lemma number_float s : is_number s = true -> is_Some (Num.float s).
Proof.
  unfold is_number. intros [Hne Hall]%andb_true_iff.
  unfold Num.float. rewrite skip_blanks_no_space by by apply digits_no_space.
  destruct s as [|c s]; [discriminate|]. cbn in Hall.
  apply andb_true_iff in Hall as [Hc Hs].
  destruct (digit_plain c Hc) as (_ & _ & Hu & Hm & Hp & Hi & Hn).
  unfold Num.sign. rewrite Hm, Hp.
  unfold Num.absfloatvalue. cbn [upper]. rewrite Hu.
  cbn [String.eqb]. rewrite Hi, Hn. cbn [orb andb].
  unfold Num.number, Num.digitpart. rewrite Hc, digitpart_rest_digits by done.
  cbn. eauto.
Qed.

Lemma number_int s : is_number s = true -> Num.int s = Some (Num.digits_val s).
Proof.
  unfold is_number. intros [Hne Hall]%andb_true_iff.
  unfold Num.int. rewrite skip_blanks_no_space by by apply digits_no_space.
  destruct s as [|c s]; [discriminate|]. cbn in Hall.
  apply andb_true_iff in Hall as [Hc Hs].
  destruct (digit_plain c Hc) as (_ & _ & Hu & Hm & Hp & Hi & Hn).
  unfold Num.sign. rewrite Hm, Hp.
  unfold Num.digitpart. by rewrite Hc, digitpart_rest_digits.
Qed.

Lemma number_numeric s : is_number s = true -> _is_numeric s = true.
Proof.
  intros H. unfold _is_numeric. fold (comma_to_dot s).
  rewrite digits_no_comma by (unfold is_number in H; by apply andb_true_iff in H as [_ ?]).
  by destruct (number_float s H) as [f ->].
Qed.

Lemma foldl_keeps {A B : Type} (P : A -> Prop) (Q : B -> Prop) (f : A -> B -> A) l :
  (forall a x, Q x -> P a -> P (f a x)) -> Forall Q l -> forall a, P a -> P (foldl f a l).
Proof.
  intros Hstep Hl. induction Hl as [|x l Hx _ IH]; intros a Ha; cbn; [done|].
  apply IH. by apply Hstep.
Qed.

Lemma for_cells_keeps {A : Type} (P : A -> Prop) (f : nat -> cell -> A -> A) :
  (forall i c a, P a -> P (f i c a)) ->
  forall cells i a, P a -> P (for_cells f i cells a).
Proof.
  intros Hstep cells. induction cells as [|c cells IH]; intros i a Ha; cbn; [done|].
  apply IH. by apply Hstep.
Qed.

Lemma measured_insert k v data :
  In k measurement_keys -> plain_value v -> measured data -> measured (<[k := v]> data).
Proof. intros Hk Hv Hd. by apply map_Forall_insert_2. Qed.

Lemma measured_set_if_absent k v data :
  In k measurement_keys -> plain_value v -> measured data -> measured (set_if_absent k v data).
Proof.
  intros Hk Hv Hd. unfold set_if_absent. destruct (data !! k); [done|].
  by apply measured_insert.
Qed.

Lemma extract_value_plain text label : plain_value (_extract_value_from_text text label).
Proof. destruct (extract_value_shape text label) as [H|[H _]]; [by left | by right]. Qed.

Lemma modele_implante_plain text r col : plain_value (_extract_modele_implante text r col).
Proof.
  destruct (modele_implante_shape text r col) as [H|H]; [by left|].
  right. by apply number_numeric.
Qed.

Lemma extract_value_from_cell_plain r col t row_idx :
  plain_value (_extract_value_from_cell r col t row_idx).
Proof.
  assert (Hn : forall c v, numeric_cell c = Some v -> _is_numeric v = true).
  { intros c v. unfold numeric_cell. destruct (cell_truthy c); [|discriminate].
    destruct (_is_numeric _) eqn:E; [|discriminate]. by intros [= <-]. }
  unfold _extract_value_from_cell.
  destruct (numeric_cell (cell_at r col)) eqn:E1; [right; by eapply Hn|].
  destruct (numeric_cell (cell_at r (col + 1))) eqn:E2; [right; by eapply Hn|].
  destruct (t !! (row_idx + 1)) as [below|]; [|by left].
  destruct (numeric_cell (cell_at below col)) eqn:E3; [right; by eapply Hn | by left].
Qed.

Lemma meas_labels_keys : Forall (fun lbl : string * string => In (snd lbl) measurement_keys) meas_labels.
Proof.
  unfold meas_labels.
  repeat (apply Forall_cons_2; [cbn; repeat first [left; reflexivity | right]|]).
  apply Forall_nil_2.
Qed.

Lemma fallback_labels_keys :
  Forall (fun lbl : string * string => In (field_mapping_get (snd lbl)) measurement_keys)
         fallback_labels.
Proof.
  unfold fallback_labels.
  repeat (apply Forall_cons_2; [vm_compute; repeat first [left; reflexivity | right]|]).
  apply Forall_nil_2.
Qed.

Lemma write_by_column_measured od_col os_col col k v st :
  In k measurement_keys -> plain_value v -> eyes_measured st ->
  eyes_measured (write_by_column od_col os_col col k v st).
Proof.
  destruct st as [od os]. intros Hk Hv [Hod Hos]. unfold write_by_column.
  repeat case_match; split; cbn; try done; by apply measured_set_if_absent.
Qed.

Lemma write_by_half_measured col k v st :
  In k measurement_keys -> plain_value v -> eyes_measured st ->
  eyes_measured (write_by_half col k v st).
Proof.
  destruct st as [od os]. intros Hk Hv [Hod Hos]. unfold write_by_half.
  case_match; split; cbn; try done; by apply measured_set_if_absent.
Qed.

Lemma inline_cell_measured od_col os_col col c st :
  eyes_measured st -> eyes_measured (inline_cell od_col os_col col c st).
Proof.
  intros Hst. unfold inline_cell. case_match; [done|].
  eapply foldl_keeps; [|apply meas_labels_keys|done].
  intros a [lbl k] Hk Ha. unfold inline_label.
  repeat case_match; try done.
  apply write_by_column_measured; [done|apply extract_value_plain|done].
Qed.

Lemma multiline_cell_measured col c st :
  eyes_measured st -> eyes_measured (multiline_cell col c st).
Proof.
  intros Hst. unfold multiline_cell. repeat case_match; try done.
  eapply foldl_keeps; [|apply meas_labels_keys|done].
  intros a [lbl k] Hk Ha. unfold multiline_label.
  repeat case_match; try done;
    (apply write_by_half_measured; [done|apply extract_value_plain|done]).
Qed.

Lemma column_side_measured r col text data :
  measured data -> measured (column_side r col text data).
Proof.
  intros Hd. unfold column_side, column_axis.
  assert (Hf : measured (foldl (column_label text) data meas_labels)).
  { eapply foldl_keeps; [|apply meas_labels_keys|done].
    intros a [lbl k] Hk Ha. unfold column_label.
    repeat case_match; try done.
    apply measured_insert; [done|apply extract_value_plain|done]. }
  repeat case_match; try done.
  apply measured_insert; [cbn; tauto|apply modele_implante_plain|done].
Qed.

Lemma column_cell_measured r col c st :
  eyes_measured st -> eyes_measured (column_cell r col c st).
Proof.
  destruct st as [od os]. intros [Hod Hos]. unfold column_cell.
  repeat case_match; split; cbn; try done; by apply column_side_measured.
Qed.

Lemma extract_structured_measured t st :
  eyes_measured st -> eyes_measured (extract_structured t st).
Proof.
  intros Hst. unfold extract_structured.
  destruct (find_header t 0 t) as [[h [od os]]|]; [|done].
  eapply (foldl_keeps eyes_measured (fun _ => True)); [|by apply Forall_true|done].
  intros a r _ Ha. unfold extract_row. destruct r as [|c r]; [done|].
  apply for_cells_keeps; [intros; by apply column_cell_measured|].
  apply for_cells_keeps; [intros; by apply multiline_cell_measured|].
  apply for_cells_keeps; [intros; by apply inline_cell_measured|done].
Qed.

Lemma fallback_write_measured has_od has_os width col k v st :
  In k measurement_keys -> plain_value v -> eyes_measured st ->
  eyes_measured (fallback_write has_od has_os width col k v st).
Proof.
  destruct st as [od os]. intros Hk Hv [Hod Hos]. unfold fallback_write.
  repeat case_match; split; cbn; try done; by apply measured_insert.
Qed.

Lemma fallback_rows_measured t rows : forall row_idx st,
  eyes_measured st -> eyes_measured (fallback_rows t row_idx rows st).
Proof.
  induction rows as [|r rows IH]; intros row_idx st Hst; cbn [fallback_rows]; [done|].
  apply IH. destruct r as [|c r]; [done|].
  case_match; [|done].
  apply for_cells_keeps; [|done].
  intros i c0 a Ha. unfold fallback_cell.
  eapply foldl_keeps; [|apply fallback_labels_keys|].
  - intros b [key lbl] Hk Hb. unfold fallback_label. case_match; [|done].
    apply fallback_write_measured; [done|apply extract_value_from_cell_plain|done].
  - case_match; [|done].
    apply fallback_write_measured; [cbn; tauto|apply extract_value_from_cell_plain|done].
Qed.

Lemma process_table_measured st t : eyes_measured st -> eyes_measured (process_table st t).
Proof.
  intros Hst. unfold process_table. case_match; [done|].
  case_match; [|by apply extract_structured_measured].
  by apply fallback_rows_measured, extract_structured_measured.
Qed.

Lemma accumulate_measured tables : eyes_measured (accumulate tables).
Proof.
  unfold accumulate.
  eapply (foldl_keeps eyes_measured (fun _ => True)); [|by apply Forall_true|].
  - intros a t _ Ha. by apply process_table_measured.
  - split; apply map_Forall_empty.
Qed.

Lemma numeric_field_dotted text p : dotted (_extract_numeric_field text p).
Proof.
  unfold _extract_numeric_field. destruct (search_group1 p text) as [g|]; [|by left].
  fold (comma_to_dot (strip g)).
  destruct (Num.float (comma_to_dot (strip g))) eqn:E; [|by left].
  right. rewrite comma_to_dot_idem, E. eauto.
Qed.

Lemma or_else_dotted a b : dotted a -> dotted b -> dotted (or_else a b).
Proof. intros Ha Hb. unfold or_else. by destruct (truthy a). Qed.

Lemma dotted_plain x : dotted x -> plain_value (replace "," "." x).
Proof.
  fold (comma_to_dot x). intros [->|[Hx [f Hf]]]; [by left|].
  right. unfold _is_numeric. fold (comma_to_dot (comma_to_dot x)).
  by rewrite !Hx, Hf.
Qed.

Lemma two_patterns_dotted text eye label : dotted (two_patterns text eye label).
Proof. apply or_else_dotted; apply numeric_field_dotted. Qed.

Lemma axe_match_number text eye v : axe_match text eye = Some v -> is_number v = true.
Proof.
  assert (Hdeg : forall e s v, search_group1 (eye_then_axis_degree e) s = Some v -> is_number v = true).
  { intros e s w. unfold search_group1.
    destruct (search (eye_then_axis_degree e) s) as [g|] eqn:E; [|discriminate].
    apply search_sound in E as (s0 & rest & _ & Hm).
    unfold eye_then_axis_degree in Hm. cbn [seqs] in Hm.
    inversion Hm as [| |? ? ? ? s1 g1 ? ? H1 H2| | | | | | |]; subst; clear Hm.
    inversion H2 as [| |? ? ? ? s2 g2 ? ? H3 H4| | | | | | |]; subst; clear H2.
    apply axis_degree_group in H4 as (d & Hd & Hn). congruence. }
  assert (Hpl : forall e s v, search_group1 (eye_then_axis_plain e) s = Some v -> is_number v = true).
  { intros e s w. unfold search_group1.
    destruct (search (eye_then_axis_plain e) s) as [g|] eqn:E; [|discriminate].
    apply search_sound in E as (s0 & rest & _ & Hm).
    unfold eye_then_axis_plain in Hm. cbn [seqs] in Hm.
    inversion Hm as [| |? ? ? ? s1 g1 ? ? H1 H2| | | | | | |]; subst; clear Hm.
    inversion H2 as [| |? ? ? ? s2 g2 ? ? H3 H4| | | | | | |]; subst; clear H2.
    apply axis_plain_group in H4 as (d & Hd & Hn). congruence. }
  unfold axe_match.
  destruct (search_group1 (eye_then_axis_degree eye) text) eqn:E1;
    [intros [= <-]; by eapply Hdeg|].
  destruct (search_group1 axis_degree text) eqn:E2;
    [intros [= <-]; by eapply search_axis_degree|].
  destruct (search_group1 (eye_then_axis_plain eye) text) eqn:E3;
    [intros [= <-]; by eapply Hpl|].
  apply search_axis_plain.
Qed.

Lemma eye_data_measured text eye : measured (_extract_eye_data text eye).
Proof.
  unfold _extract_eye_data.
  repeat (apply measured_insert; [cbn; tauto| |]);
    try (apply dotted_plain; first [apply two_patterns_dotted
                                  | apply or_else_dotted;
                                    [apply two_patterns_dotted | apply numeric_field_dotted]]).
  - destruct (axe_match text eye) as [v|] eqn:E; [|by left].
    right. apply number_numeric. by eapply axe_match_number.
  - apply map_Forall_empty.
Qed.

Lemma measured_well_formed data : measured data -> well_formed data.
Proof.
  intros H. eapply map_Forall_impl; [exact H|].
  intros k v [Hk Hv]. split; [|done].
  cbn in Hk |- *. tauto.
Qed.

Lemma well_formed_identity k v r :
  In k ["ID Patient"; "Âge"; "Œil"] -> well_formed r -> well_formed (<[k := v]> r).
Proof.
  intros Hk Hr. apply map_Forall_insert_2; [|done]. split.
  - cbn in Hk |- *. tauto.
  - intros Hm. exfalso. cbn in Hk, Hm.
    destruct Hk as [<-|[<-|[<-|[]]]];
      repeat (destruct Hm as [Hm|Hm]; [discriminate Hm|]); done.
Qed.

Lemma well_formed_default k r :
  In k ["K1"; "K2"; "Axe"] -> well_formed r -> well_formed (set_if_absent k "" r).
Proof.
  intros Hk Hr. unfold set_if_absent. destruct (r !! k); [done|].
  apply map_Forall_insert_2; [|done]. split; [|by left].
  cbn in Hk |- *. tauto.
Qed.

Lemma finalize_well_formed eye pid age data :
  measured data -> well_formed (finalize eye pid age data).
Proof.
  intros Hd%measured_well_formed. unfold finalize.
  destruct (negb (nonempty data)).
  - repeat first
      [ apply well_formed_identity; [cbn; tauto|]
      | apply map_Forall_insert_2; [split; [cbn; tauto | by left]|] ].
    apply map_Forall_empty.
  - repeat (apply well_formed_default; [cbn; tauto|]).
    by repeat (apply well_formed_identity; [cbn; tauto|]).
Qed.

Lemma text_record_well_formed text eye pid age : well_formed (text_record text eye pid age).
Proof.
  unfold text_record.
  repeat (apply well_formed_default; [cbn; tauto|]).
  repeat (apply well_formed_identity; [cbn; tauto|]).
  apply measured_well_formed, eye_data_measured.
Qed.

(** Every key of a record [parse] returns is a canonical field name, and
    the value of every measurement field (the axis included) is either
    empty or numeric, on the table path and on the text fallback alike. *)
Theorem parse_records_well_formed (today : date) (pdf : list page) :
  Forall well_formed (parse today pdf).
Proof.
  unfold parse. rewrite parse_with_path_cases.
  destruct (accumulate_measured (all_tables pdf)) as [Hod Hos].
  destruct (nonempty _ || nonempty _); cbn [snd].
  - constructor; [by apply finalize_well_formed|].
    constructor; [by apply finalize_well_formed|constructor].
  - constructor; [apply text_record_well_formed|].
    constructor; [apply text_record_well_formed|constructor].
Qed.

Lemma finalize_identity eye pid age data :
  finalize eye pid age data !! "ID Patient" = Some pid /\
  finalize eye pid age data !! "Âge" = Some age.
Proof.
  unfold finalize. destruct (negb (nonempty data)).
  - by simplify_map_eq.
  - split; do 3 apply set_if_absent_lookup; by simplify_map_eq.
Qed.

Lemma text_record_identity text eye pid age :
  text_record text eye pid age !! "ID Patient" = Some pid /\
  text_record text eye pid age !! "Âge" = Some age.
Proof.
  unfold text_record. split; do 3 apply set_if_absent_lookup; by simplify_map_eq.
Qed.

(** Both records [parse] returns carry the same patient id and the same
    age. *)
Theorem parse_identity_fields (today : date) (pdf : list page) :
  Forall (fun r => r !! "ID Patient" = Some (patient_id_of pdf) /\
                   r !! "Âge" = Some (age_of today pdf)) (parse today pdf).
Proof.
  unfold parse. rewrite parse_with_path_cases.
  destruct (nonempty _ || nonempty _); cbn [snd];
    repeat (constructor; [first [apply finalize_identity | apply text_record_identity]|]);
    constructor.
Qed.

Lemma strptime_valid s fmt d :
  strptime s fmt = Some d -> valid_date (year d) (month d) (day d) = true.
Proof.
  unfold strptime. destruct (match_at _ s) as [[g [|]]|]; try discriminate.
  unfold make_date. destruct (valid_date _ _ _) eqn:E; [|discriminate].
  by intros [= <-].
Qed.

Lemma first_strptime_valid s : forall fmts d,
  first_strptime fmts s = Some d -> valid_date (year d) (month d) (day d) = true.
Proof.
  induction fmts as [|f fmts IH]; intros d H; cbn in H; [discriminate|].
  destruct (strptime s f) eqn:E; [|by apply IH].
  injection H as <-. by eapply strptime_valid.
Qed.

(** A birth date that parses is a real calendar date; the age is the text
    of an integer that is the difference of the years or one less, and that
    integer is negative exactly when today is an earlier day than the birth
    date: a birth date in the future gives a negative age, a birth date
    earlier in the current year the age 0. *)
Theorem age_of_real_date (today : date) (birth_date_str : string) (birth : date) :
  first_strptime date_formats birth_date_str = Some birth ->
  valid_date (year birth) (month birth) (day birth) = true /\
  (exists age, _calculate_age today birth_date_str = Num.str age /\
               (year today - year birth - 1 <= age <= year today - year birth)%Z /\
               ((age < 0)%Z <-> earlier today birth)) /\
  _calculate_age (Date 2024 9 1) "17.08.2024" = "0" /\
  _calculate_age (Date 2024 8 17) "17.08.2024" = "0" /\
  _calculate_age (Date 2024 8 16) "17.08.2024" = "-1" /\
  _calculate_age (Date 2023 9 1) "17.08.2024" = "-1".
Proof.
  intros H. split; [by eapply first_strptime_valid|]. split; [|by vm_compute].
  exists (age_on today birth). split; [|split].
  - by rewrite calculate_age_on, H.
  - unfold age_on. destruct (decide (precedes today birth)); lia.
  - unfold age_on, earlier. destruct (decide (precedes today birth)) as [Hp|Hp];
      unfold precedes in Hp; lia.
Qed.

(** The instance at a birth date earlier in the current year. *)
Lemma age_of_real_date_witness :
  valid_date (year (Date 2024 8 17)) (month (Date 2024 8 17)) (day (Date 2024 8 17)) = true /\
  (exists age, _calculate_age (Date 2024 9 1) "17.08.2024" = Num.str age /\
               (year (Date 2024 9 1) - year (Date 2024 8 17) - 1 <= age <=
                year (Date 2024 9 1) - year (Date 2024 8 17))%Z /\
               ((age < 0)%Z <-> earlier (Date 2024 9 1) (Date 2024 8 17))) /\
  _calculate_age (Date 2024 9 1) "17.08.2024" = "0" /\
  _calculate_age (Date 2024 8 17) "17.08.2024" = "0" /\
  _calculate_age (Date 2024 8 16) "17.08.2024" = "-1" /\
  _calculate_age (Date 2023 9 1) "17.08.2024" = "-1".
Proof.
  apply (age_of_real_date (Date 2024 9 1) "17.08.2024" (Date 2024 8 17)).
  vm_compute. reflexivity.
Defined.

End RecordFacts.

(** ** Integers and their text *)

Section NumberFacts.

Import Py IOL700Parser Props MoreProps ExcelHandler SheetProps.

Lemma digits_acc_uint d : forall acc,
  Num.digits_acc (Z.pos acc) (NilEmpty.string_of_uint d) = Z.pos (Pos.of_uint_acc d acc).
Proof.
  induction d as [|d IH|d IH|d IH|d IH|d IH|d IH|d IH|d IH|d IH|d IH]; intros acc;
    [done|..]; cbn [NilEmpty.string_of_uint Num.digits_acc Pos.of_uint_acc];
    rewrite <- IH; f_equal;
    match goal with |- context [Num.digit_val ?c] =>
      let v := eval vm_compute in (Num.digit_val c) in change (Num.digit_val c) with v
    end; lia.
Qed.

Lemma digits_val_uint d :
  Num.digits_val (NilEmpty.string_of_uint d) = Z.of_N (Pos.of_uint d).
Proof.
  unfold Num.digits_val.
  induction d as [|d IH|d IH|d IH|d IH|d IH|d IH|d IH|d IH|d IH|d IH];
    [done|exact IH|..]; cbn [NilEmpty.string_of_uint Num.digits_acc Pos.of_uint];
    apply (digits_acc_uint d).
Qed.

Lemma uint_digits d : str_all is_digit (NilEmpty.string_of_uint d) = true.
Proof. induction d; [done|..]; cbn [NilEmpty.string_of_uint str_all]; by rewrite IHd. Qed.

Lemma digits_uint s :
  str_all is_digit s = true -> exists d, s = NilEmpty.string_of_uint d.
Proof.
  induction s as [|c s IH]; [by exists Decimal.Nil|].
  cbn. intros [Hc Hs]%andb_true_iff. destruct (IH Hs) as [d ->].
  apply is_digit_cases in Hc. cbn in Hc.
  destruct Hc as [<-|[<-|[<-|[<-|[<-|[<-|[<-|[<-|[<-|[<-|[]]]]]]]]]]].
  - by exists (Decimal.D0 d).
  - by exists (Decimal.D1 d).
  - by exists (Decimal.D2 d).
  - by exists (Decimal.D3 d).
  - by exists (Decimal.D4 d).
  - by exists (Decimal.D5 d).
  - by exists (Decimal.D6 d).
  - by exists (Decimal.D7 d).
  - by exists (Decimal.D8 d).
  - by exists (Decimal.D9 d).
Qed.

Lemma pos_text_number p : is_number (NilEmpty.string_of_uint (Pos.to_uint p)) = true.
Proof.
  unfold is_number. rewrite uint_digits, andb_true_r.
  pose proof (DecimalPos.Unsigned.to_uint_nonnil p) as H.
  by destruct (Pos.to_uint p).
Qed.

Lemma pos_text p :
  NilZero.string_of_uint (Pos.to_uint p) = NilEmpty.string_of_uint (Pos.to_uint p).
Proof.
  pose proof (DecimalPos.Unsigned.to_uint_nonnil p) as H.
  by destruct (Pos.to_uint p).
Qed.

Lemma pos_text_val p : Num.digits_val (NilEmpty.string_of_uint (Pos.to_uint p)) = Z.pos p.
Proof. by rewrite digits_val_uint, DecimalPos.Unsigned.of_to. Qed.

(** [int(str(n)) == n] *)
Lemma int_str n : Num.int (Num.str n) = Some n.
Proof.
  destruct n as [|p|p]; [done| |].
  - unfold Num.str. cbn [Z.to_int NilZero.string_of_int]. rewrite pos_text.
    rewrite number_int by apply pos_text_number. by rewrite pos_text_val.
  - unfold Num.str. cbn [Z.to_int NilZero.string_of_int]. rewrite pos_text.
    pose proof (pos_text_number p) as Hn. pose proof (pos_text_val p) as Hv.
    set (ds := NilEmpty.string_of_uint (Pos.to_uint p)) in *.
    unfold is_number in Hn. apply andb_true_iff in Hn as [Hne Hall].
    unfold Num.int. rewrite skip_blanks_no_space.
    + change (Num.sign (String "-" ds)) with (true, ds).
      destruct ds as [|c ds]; [discriminate|]. cbn in Hall.
      apply andb_true_iff in Hall as [Hc Hs].
      unfold Num.digitpart. rewrite Hc, digitpart_rest_digits by done.
      by rewrite Hv.
    + cbn. by apply digits_no_space.
Qed.

Lemma str_no_space n : strip (Num.str n) = Num.str n.
Proof.
  apply strip_no_space. destruct n as [|p|p]; [done| |];
    unfold Num.str; cbn [Z.to_int NilZero.string_of_int]; rewrite pos_text.
  - apply digits_no_space, uint_digits.
  - cbn. apply digits_no_space, uint_digits.
Qed.

(** [str(int(s)) == s] for a run of digits without a leading zero. *)
Lemma str_int s : canonical_id s = true -> Num.str (Num.digits_val s) = s.
Proof.
  destruct s as [|c s]; [discriminate|]. unfold canonical_id.
  intros [Hc Hs]%andb_true_iff. destruct (digits_uint _ Hs) as [d Hd].
  rewrite Hd, digits_val_uint.
  assert (Hn : Decimal.unorm d = d /\ d <> Decimal.D0 Decimal.Nil /\ d <> Decimal.Nil).
  { destruct d; cbn in Hd; try (injection Hd as -> _; discriminate Hc); try discriminate Hd;
      (split; [done|split; discriminate]). }
  destruct Hn as (Hnorm & Hnz & Hnn).
  pose proof (DecimalPos.Unsigned.to_of d) as Hto. rewrite Hnorm in Hto.
  destruct (Pos.of_uint d) as [|p] eqn:E.
  - cbn in Hto. congruence.
  - cbn in Hto. unfold Num.str. cbn [Z.of_N Z.to_int NilZero.string_of_int].
    rewrite Hto. by destruct d.
Qed.

Lemma canonical_id_number s : canonical_id s = true -> is_number s = true.
Proof.
  destruct s as [|c s]; [discriminate|]. unfold canonical_id, is_number.
  by intros [_ ->]%andb_true_iff.
Qed.

Lemma canonical_id_positive s : canonical_id s = true -> Num.digits_val s <> 0%Z.
Proof.
  intros H. pose proof (str_int s H) as Hs. intros E. rewrite E in Hs.
  destruct s as [|c s]; [discriminate|]. injection Hs as <- _. discriminate H.
Qed.

Lemma sign_char_plain c :
  is_digit c || Ascii.eqb c "-" = true ->
  is_space c = false /\ dot_for_comma c = c /\ Ascii.eqb "." c = false.
Proof. destruct c as [[] [] [] [] [] [] [] []]; vm_compute; intros H; by first [discriminate H|idtac]. Qed.

Lemma str_chars n : str_all (fun c => is_digit c || Ascii.eqb c "-") (Num.str n) = true.
Proof.
  assert (H : forall s, str_all is_digit s = true ->
                str_all (fun c => is_digit c || Ascii.eqb c "-") s = true).
  { induction s as [|c s IH]; [done|]. cbn. intros [-> Hs]%andb_true_iff. by rewrite IH. }
  destruct n as [|p|p]; [done| |];
    unfold Num.str; cbn [Z.to_int NilZero.string_of_int]; rewrite pos_text.
  - apply H, uint_digits.
  - cbn. apply H, uint_digits.
Qed.

Lemma str_nonempty n : is_empty (Num.str n) = false.
Proof.
  destruct n as [|p|p]; [done| |done].
  unfold Num.str. cbn [Z.to_int NilZero.string_of_int]. rewrite pos_text.
  pose proof (pos_text_number p) as H. unfold is_number in H.
  apply andb_true_iff in H as [H _]. by destruct (NilEmpty.string_of_uint _).
Qed.

Lemma sign_chars_plain s :
  str_all (fun c => is_digit c || Ascii.eqb c "-") s = true ->
  replace "," "." s = s /\ contains "." s = false.
Proof.
  fold (comma_to_dot s). rewrite comma_to_dot_map.
  induction s as [|c s IH]; [done|]. cbn [str_all str_map contains startswith].
  intros [Hc Hs]%andb_true_iff. destruct (sign_char_plain c Hc) as (_ & -> & ->).
  destruct (IH Hs) as [-> ->]. done.
Qed.

(** The age [_calculate_age] returns is the text of an integer, and the
    merge writes that integer. *)
Theorem age_written_as_integer (today : date) (birth_date_str : string) :
  _calculate_age today birth_date_str = "" \/
  exists age, _calculate_age today birth_date_str = Num.str age /\
              Num.int (Num.str age) = Some age /\
              convert_value "Âge" (Num.str age) = VInt age.
Proof.
  unfold _calculate_age. destruct (is_empty birth_date_str); [by left|].
  destruct (parse_birth_date date_formats birth_date_str) as [birth|]; [|by left].
  right. eexists. split; [reflexivity|]. split; [apply int_str|].
  set (age := if month_day_before today birth then _ else _).
  unfold convert_value. rewrite str_nonempty.
  change (String.eqb "Âge" "ID Patient") with false.
  change (String.eqb "Âge" "Modèle implanté") with false.
  change (existsb (String.eqb "Âge") numeric_fields) with true. cbv iota.
  destruct (sign_chars_plain _ (str_chars age)) as [-> Hdot].
  rewrite str_no_space, Hdot. by rewrite int_str.
Qed.

End NumberFacts.

(** ** Properties of the sheet *)

Section SheetFacts.

Import Py IOL700Parser Props MoreProps ExcelHandler SheetProps.

Variable float_text : string -> string.

Lemma cell_value_touch r c ws r' c' : cell_value (touch r c ws) r' c' = cell_value ws r' c'.
Proof.
  unfold touch, cell_value. destruct (ws !! (r, c)) eqn:E; [done|].
  destruct (decide ((r, c) = (r', c'))) as [<-|Hne].
  - by rewrite lookup_insert_eq, E.
  - by rewrite lookup_insert_ne.
Qed.

Lemma read_header_step ws0 h a st :
  1 <= a -> headers_read float_text ws0 h a st ->
  headers_read float_text ws0 h (S a) (read_header float_text h st a).
Proof.
  intros Ha. destruct st as [cm ws]. intros [Hval Hmap].
  unfold read_header. cbn [fst snd] in *.
  assert (Hv : forall r c, cell_value (touch h a ws) r c = cell_value ws0 r c).
  { intros r c. by rewrite cell_value_touch. }
  rewrite Hv. fold (header_text float_text ws0 h a).
  destruct (truthy (header_text float_text ws0 h a)) eqn:Ht; split; cbn [fst snd]; try done.
  - intros name c. destruct (decide (header_text float_text ws0 h a = name)) as [<-|Hne].
    + rewrite lookup_insert_eq. split.
      * intros [= <-]. split; [done|]. split; [lia|]. split; [done|]. intros c' Hc'. lia.
      * intros (_ & Hc & Hn & Hlast). f_equal.
        destruct (decide (c = a)) as [->|Hca]; [done|].
        exfalso. apply (Hlast a); [lia|done].
    + rewrite lookup_insert_ne by done. rewrite Hmap. unfold last_headed. split.
      * intros (Htr & Hc & Hn & Hlast). split; [done|]. split; [lia|]. split; [done|].
        intros c' Hc'. destruct (decide (c' = a)) as [->|]; [done|]. apply Hlast. lia.
      * intros (Htr & Hc & Hn & Hlast). split; [done|].
        assert (c <> a) by (intros ->; done).
        split; [lia|]. split; [done|]. intros c' Hc'. apply Hlast. lia.
  - intros name c. rewrite Hmap. unfold last_headed. split.
    + intros (Htr & Hc & Hn & Hlast). split; [done|]. split; [lia|]. split; [done|].
      intros c' Hc'. destruct (decide (c' = a)) as [->|]; [|apply Hlast; lia].
      intros E. rewrite E in Ht. congruence.
    + intros (Htr & Hc & Hn & Hlast). split; [done|].
      assert (c <> a) by (intros ->; rewrite Hn in Ht; congruence).
      split; [lia|]. split; [done|]. intros c' Hc'. apply Hlast. lia.
Qed.

Lemma read_headers_fold ws0 h m : forall a st,
  1 <= a -> headers_read float_text ws0 h a st ->
  headers_read float_text ws0 h (a + m) (foldl (read_header float_text h) st (seq a m)).
Proof.
  induction m as [|m IH]; intros a st Ha Hst; cbn [foldl seq].
  - by rewrite Nat.add_0_r.
  - replace (a + S m) with (S a + m) by lia. apply IH; [lia|].
    by apply read_header_step.
Qed.

Lemma read_headers_spec ws h n :
  headers_read float_text ws h (S n) (read_headers float_text h n ws).
Proof.
  unfold read_headers, range.
  replace (n + 1 - 1) with n by lia.
  apply (read_headers_fold ws h n 1 (∅, ws)); [lia|].
  split; [done|]. intros name c. cbn [fst]. rewrite lookup_empty. split; [done|].
  intros (_ & Hc & _). lia.
Qed.

(** The scan changes no cell value. *)
Lemma locate_headers_values ws r c :
  cell_value (snd (locate_headers float_text ws)) r c = cell_value ws r c.
Proof.
  unfold locate_headers. fold (scan_width ws).
  pose proof (read_headers_spec ws 2 (scan_width ws)) as H2.
  destruct (read_headers float_text 2 (scan_width ws) ws) as [cm2 ws2].
  destruct H2 as [Hv2 _]. cbn [fst snd] in *.
  destruct (bool_decide (cm2 = ∅)); [|done].
  pose proof (read_headers_spec ws2 1 (scan_width ws)) as H1.
  destruct (read_headers float_text 1 (scan_width ws) ws2) as [cm1 ws1].
  destruct H1 as [Hv1 _]. cbn [fst snd] in *. by rewrite Hv1, Hv2.
Qed.

Lemma last_headed_ext ws ws' h a name c :
  (forall col, cell_value ws' h col = cell_value ws h col) ->
  last_headed float_text ws' h a name c <-> last_headed float_text ws h a name c.
Proof.
  intros Hv. unfold last_headed, header_text. rewrite Hv.
  split; intros (H1 & H2 & H3 & H4); (split; [done|]; split; [done|]; split; [done|]);
    intros c' Hc'; specialize (H4 c' Hc'); by rewrite Hv in *.
Qed.

Lemma call_header_row_cases ws :
  call_header_row float_text ws = 1 \/ call_header_row float_text ws = 2.
Proof.
  unfold call_header_row, locate_headers.
  destruct (read_headers float_text 2 _ ws) as [cm2 ws2].
  destruct (bool_decide (cm2 = ∅)); [|by right].
  destruct (read_headers float_text 1 _ ws2) as [cm1 ws1]. by left.
Qed.

Lemma column_map_last_headed ws name c :
  call_column_map float_text ws !! name = Some c <->
  last_headed float_text ws (call_header_row float_text ws) (S (scan_width ws)) name c.
Proof.
  unfold call_header_row, call_column_map, locate_headers. fold (scan_width ws).
  pose proof (read_headers_spec ws 2 (scan_width ws)) as H2.
  destruct (read_headers float_text 2 (scan_width ws) ws) as [cm2 ws2].
  destruct H2 as [Hv2 Hm2]. cbn [fst snd] in *.
  destruct (bool_decide (cm2 = ∅)); [|by apply Hm2].
  pose proof (read_headers_spec ws2 1 (scan_width ws)) as H1.
  destruct (read_headers float_text 1 (scan_width ws) ws2) as [cm1 ws1].
  destruct H1 as [Hv1 Hm1]. cbn [fst snd] in *.
  rewrite Hm1. by apply last_headed_ext.
Qed.

Lemma column_map_inj ws k1 k2 c :
  call_column_map float_text ws !! k1 = Some c ->
  call_column_map float_text ws !! k2 = Some c -> k1 = k2.
Proof.
  rewrite !column_map_last_headed. intros (_ & _ & <- & _) (_ & _ & <- & _). done.
Qed.

Lemma last_column_exists (f : nat -> string) (name : string) : forall bound c,
  c < bound -> f c = name ->
  exists c', c <= c' < bound /\ f c' = name /\ forall c'', c' < c'' < bound -> f c'' <> name.
Proof.
  induction bound as [|b IH]; intros c Hc Hf; [lia|].
  destruct (decide (f b = name)) as [Hb|Hb].
  - exists b. split; [lia|]. split; [done|]. intros c'' Hc''. lia.
  - assert (c <> b) by (intros ->; done).
    destruct (IH c) as (c' & Hc' & Hf' & Hlast); [lia|done|].
    exists c'. split; [lia|]. split; [done|].
    intros c'' Hc''. destruct (decide (c'' = b)) as [->|]; [done|]. apply Hlast. lia.
Qed.

(** Row 2 is the header row exactly when one of its scanned cells has text. *)
Lemma header_row_2 ws :
  call_header_row float_text ws = 2 <->
  exists c, 1 <= c <= scan_width ws /\ truthy (header_text float_text ws 2 c) = true.
Proof.
  unfold call_header_row, locate_headers. fold (scan_width ws).
  pose proof (read_headers_spec ws 2 (scan_width ws)) as H2.
  destruct (read_headers float_text 2 (scan_width ws) ws) as [cm2 ws2].
  destruct H2 as [Hv2 Hm2]. cbn [fst snd] in *.
  destruct (bool_decide (cm2 = ∅)) eqn:E.
  - apply bool_decide_eq_true in E. subst cm2.
    destruct (read_headers float_text 1 (scan_width ws) ws2) as [cm1 ws1]. cbn [fst].
    split; [done|]. intros (c & Hc & Ht). exfalso.
    destruct (last_column_exists (header_text float_text ws 2)
                (header_text float_text ws 2 c) (S (scan_width ws)) c)
      as (c' & Hc' & Hf' & Hlast); [lia|reflexivity|].
    assert (Hl : (∅ : gmap string nat) !! header_text float_text ws 2 c = Some c').
    { apply Hm2. split; [done|]. split; [lia|]. split; done. }
    by rewrite lookup_empty in Hl.
  - cbn [fst]. split; [|done]. intros _.
    apply bool_decide_eq_false in E.
    destruct (map_choose cm2 E) as (name & c & Hn).
    apply Hm2 in Hn. destruct Hn as (Htr & Hc & Hn & _).
    exists c. split; [lia|]. by rewrite Hn.
Qed.

Lemma cell_value_insert r c v ws r' c' :
  cell_value (<[(r, c) := v]> ws) r' c' =
  if decide ((r, c) = (r', c')) then v else cell_value ws r' c'.
Proof.
  unfold cell_value. destruct (decide ((r, c) = (r', c'))) as [<-|Hne].
  - by rewrite lookup_insert_eq.
  - by rewrite lookup_insert_ne.
Qed.

Lemma copy_format_values cm sr row ws r c :
  cell_value (copy_format cm sr row ws) r c = cell_value ws r c.
Proof.
  unfold copy_format. generalize (range 1 (Nat.max (max_column ws)
    (Nat.max (max_mapped_column cm) 100) + 1)). intros l. revert ws.
  induction l as [|col l IH]; intros ws; cbn [foldl]; [done|].
  rewrite IH. by rewrite !cell_value_touch.
Qed.

Lemma write_fields_frame cm row l : forall ws r c,
  (r <> row \/ forall kv, kv ∈ l -> cm !! fst kv <> Some c) ->
  cell_value (foldl (write_field cm row) ws l) r c = cell_value ws r c.
Proof.
  induction l as [|kv l IH]; intros ws r c H; cbn [foldl]; [done|].
  rewrite IH.
  - unfold write_field. destruct (cm !! fst kv) as [col|] eqn:E; [|done].
    rewrite cell_value_insert. destruct (decide ((row, col) = (r, c))) as [[= <- <-]|]; [|done].
    destruct H as [H|H]; [done|]. exfalso. apply (H kv); [left|done].
  - destruct H as [H|H]; [by left|]. right. intros kv' Hin. apply H. by right.
Qed.

Lemma write_fields_lands cm row l :
  (forall k1 k2 c, cm !! k1 = Some c -> cm !! k2 = Some c -> k1 = k2) ->
  NoDup (fst <$> l) ->
  forall ws k v c, (k, v) ∈ l -> cm !! k = Some c ->
  cell_value (foldl (write_field cm row) ws l) row c = convert_value k v.
Proof.
  intros Hinj. induction l as [|kv l IH]; intros Hnd ws k v c Hin Hc.
  - by apply elem_of_nil in Hin.
  - cbn [foldl]. rewrite fmap_cons in Hnd. apply NoDup_cons in Hnd as [Hnotin Hnd].
    apply elem_of_cons in Hin as [<-|Hin].
    + rewrite write_fields_frame.
      * unfold write_field. cbn [fst snd]. rewrite Hc, cell_value_insert.
        by rewrite decide_True.
      * right. intros kv' Hin' Hc'. apply Hnotin.
        rewrite (Hinj _ _ _ Hc Hc'). apply list_elem_of_fmap. by exists kv'.
    + by apply IH.
Qed.

Lemma write_row_frame cm sr row rec ws r c :
  (r <> row \/ forall k, cm !! k = Some c -> rec !! k = None) ->
  cell_value (write_row cm sr row rec ws) r c = cell_value ws r c.
Proof.
  intros H. unfold write_row. rewrite write_fields_frame.
  - destruct sr as [s|]; [|done]. destruct ((0 <? s) && (s <=? max_row ws)); [|done].
    apply copy_format_values.
  - destruct H as [H|H]; [by left|]. right. intros [k v] Hin Hc. cbn [fst] in Hc.
    apply elem_of_map_to_list in Hin. rewrite (H k Hc) in Hin. done.
Qed.

Lemma write_row_lands cm sr row rec ws k v c :
  (forall k1 k2 c, cm !! k1 = Some c -> cm !! k2 = Some c -> k1 = k2) ->
  rec !! k = Some v -> cm !! k = Some c ->
  cell_value (write_row cm sr row rec ws) row c = convert_value k v.
Proof.
  intros Hinj Hk Hc. unfold write_row.
  apply write_fields_lands; [done|apply NoDup_fst_map_to_list| |done].
  by apply elem_of_map_to_list.
Qed.

Lemma write_rows_frame cm sr rows : forall cur ws r c,
  (forall i rec k, rows !! i = Some rec -> r = cur + i -> cm !! k = Some c -> rec !! k = None) ->
  cell_value (write_rows cm sr cur rows ws) r c = cell_value ws r c.
Proof.
  induction rows as [|rec rows IH]; intros cur ws r c H; cbn [write_rows]; [done|].
  rewrite IH.
  - apply write_row_frame. destruct (decide (r = cur)) as [->|]; [|by left].
    right. intros k Hc. apply (H 0 rec k); [done|lia|done].
  - intros i rec' k Hi Hr Hc. apply (H (S i) rec' k); [done|lia|done].
Qed.

Lemma write_rows_lands cm sr rows :
  (forall k1 k2 c, cm !! k1 = Some c -> cm !! k2 = Some c -> k1 = k2) ->
  forall cur ws i rec k v c,
  rows !! i = Some rec -> rec !! k = Some v -> cm !! k = Some c ->
  cell_value (write_rows cm sr cur rows ws) (cur + i) c = convert_value k v.
Proof.
  intros Hinj. induction rows as [|rec0 rows IH]; intros cur ws i rec k v c Hi Hk Hc.
  - done.
  - cbn [write_rows]. destruct i as [|i].
    + injection Hi as ->. rewrite write_rows_frame.
      * rewrite Nat.add_0_r. by apply write_row_lands.
      * intros i rec' k' _ Hr. lia.
    + replace (cur + S i) with (S cur + i) by lia. by apply (IH _ _ _ rec k v).
Qed.

Lemma first_available_row_below ws cm h : h < first_available_row float_text ws cm h.
Proof.
  unfold first_available_row.
  assert (Hafter : h < (if h <? last_data_row ws cm h
                        then last_data_row ws cm h + 1 else h + 1)).
  { destruct (h <? last_data_row ws cm h) eqn:E; [|lia].
    apply Nat.ltb_lt in E. lia. }
  destruct (cm !! "ID Patient"); [|done]. destruct (cm !! "Œil"); [|done].
  destruct (find _ _) as [row|] eqn:E; [|done].
  apply find_some in E as [Hin _]. apply in_seq in Hin. lia.
Qed.

Lemma merge_unfold ws rows :
  merge_excel_data float_text ws rows =
  match rows_to_add float_text ws rows with
  | [] => snd (locate_headers float_text ws)
  | _ :: _ =>
      write_rows (call_column_map float_text ws)
        (let last := last_data_row (snd (locate_headers float_text ws))
                       (call_column_map float_text ws) (call_header_row float_text ws) in
         if call_header_row float_text ws <? last then Some last
         else if call_header_row float_text ws <=? max_row (snd (locate_headers float_text ws))
              then Some (call_header_row float_text ws) else None)
        (call_first_row float_text ws) (rows_to_add float_text ws rows)
        (snd (locate_headers float_text ws))
  end.
Proof.
  unfold merge_excel_data, rows_to_add, call_keys, call_first_row, call_column_map,
    call_header_row.
  destruct (locate_headers float_text ws) as [[h cm] ws']. cbn [fst snd].
  by destruct (filter_new_rows _ rows).
Qed.

Lemma merge_frame_gen ws rows r c :
  (forall i rec k, rows_to_add float_text ws rows !! i = Some rec ->
     r = call_first_row float_text ws + i ->
     call_column_map float_text ws !! k = Some c -> rec !! k = None) ->
  cell_value (merge_excel_data float_text ws rows) r c = cell_value ws r c.
Proof.
  intros H. rewrite merge_unfold.
  destruct (rows_to_add float_text ws rows) as [|rec rest] eqn:E.
  - apply locate_headers_values.
  - rewrite write_rows_frame; [apply locate_headers_values|done].
Qed.

Lemma space_not_digit c : is_space c = true -> is_digit c = false.
Proof. destruct c as [[] [] [] [] [] [] [] []]; vm_compute; congruence. Qed.

Lemma lstrip_head s : lstrip s = "" \/ exists c t, lstrip s = String c t /\ is_space c = false.
Proof.
  induction s as [|c s IH]; [by left|]. cbn. destruct (is_space c) eqn:E; [done|].
  right. by exists c, s.
Qed.

Lemma rstrip_rstrip s : rstrip (rstrip s) = rstrip s.
Proof.
  induction s as [|c s IH]; [done|]. cbn [rstrip].
  destruct (is_space c && is_empty (rstrip s)) eqn:E; [done|].
  cbn [rstrip]. by rewrite IH, E.
Qed.

Lemma strip_strip s : strip (strip s) = strip s.
Proof.
  unfold strip.
  assert (H : lstrip (rstrip (lstrip s)) = rstrip (lstrip s)).
  { destruct (lstrip_head s) as [->|(c & t & -> & Hc)]; [done|].
    cbn [rstrip]. rewrite Hc. cbn [andb lstrip]. by rewrite Hc. }
  rewrite H. apply rstrip_rstrip.
Qed.

Lemma digits_only_lstrip_eq s : digits_only (lstrip s) = digits_only s.
Proof.
  induction s as [|c s IH]; [done|]. cbn. destruct (is_space c) eqn:E; [|done].
  by rewrite (space_not_digit c E).
Qed.

Lemma digits_only_rstrip_eq s : digits_only (rstrip s) = digits_only s.
Proof.
  induction s as [|c s IH]; [done|]. cbn [rstrip].
  destruct (is_space c && is_empty (rstrip s)) eqn:E.
  - apply andb_true_iff in E as [Hc He]. cbn. rewrite (space_not_digit c Hc), <- IH.
    by destruct (rstrip s).
  - cbn. by rewrite IH.
Qed.

Lemma digits_only_strip_eq s : digits_only (strip s) = digits_only s.
Proof. unfold strip. by rewrite digits_only_rstrip_eq, digits_only_lstrip_eq. Qed.

Lemma digits_only_digits s : str_all is_digit s = true -> digits_only s = s.
Proof.
  induction s as [|c s IH]; [done|]. cbn. intros [Hc Hs]%andb_true_iff.
  by rewrite Hc, IH.
Qed.

Lemma truthy_strip s : truthy (strip s) = true -> is_empty s = false.
Proof. by destruct s. Qed.

(** The text read back from the cell of a patient id. *)
Lemma id_read_back_canonical id :
  canonical_id (strip id) = true -> id_read_back float_text id = strip id.
Proof.
  intros Hc. pose proof (canonical_id_number _ Hc) as Hn.
  assert (Hd : digits_only id = strip id).
  { rewrite <- digits_only_strip_eq. apply digits_only_digits.
    unfold is_number in Hn. by apply andb_true_iff in Hn as [_ ?]. }
  unfold id_read_back, convert_value.
  assert (He : is_empty id = false).
  { apply truthy_strip. unfold is_number in Hn. by apply andb_true_iff in Hn as [? _]. }
  rewrite He. change (String.eqb "ID Patient" "ID Patient") with true. cbv iota.
  rewrite Hd. unfold is_number in Hn. apply andb_true_iff in Hn as [Ht Hall].
  rewrite Ht. rewrite number_int by (unfold is_number; by rewrite Ht, Hall).
  cbn [text_or_empty].
  pose proof (canonical_id_positive _ Hc) as Hnz.
  destruct (Z.eqb_spec (Num.digits_val (strip id)) 0) as [E|_]; [done|].
  rewrite str_int by done. apply strip_strip.
Qed.

Lemma id_read_back_text id :
  truthy (strip id) = true -> digits_only id = "" -> id_read_back float_text id = strip id.
Proof.
  intros Ht Hd. unfold id_read_back, convert_value.
  rewrite (truthy_strip _ Ht). change (String.eqb "ID Patient" "ID Patient") with true.
  cbv iota. rewrite Hd. cbn [truthy is_empty negb text_or_empty]. apply strip_strip.
Qed.

(** *** The extent of a sheet *)

Lemma max_row_ge ws r c : is_Some (ws !! (r, c)) -> r <= max_row ws.
Proof.
  unfold max_row. revert r c.
  apply (map_fold_weak_ind (fun acc (m : gmap (nat * nat) value) =>
           forall r c, is_Some (m !! (r, c)) -> r <= acc)).
  - intros r c [v H]. by rewrite lookup_empty in H.
  - intros i x m acc Hi IH r c H.
    destruct (decide (i = (r, c))) as [->|Hne]; [cbn; lia|].
    rewrite lookup_insert_ne in H by done. specialize (IH r c H). lia.
Qed.

Lemma max_column_ge ws r c : is_Some (ws !! (r, c)) -> c <= max_column ws.
Proof.
  unfold max_column. revert r c.
  apply (map_fold_weak_ind (fun acc (m : gmap (nat * nat) value) =>
           forall r c, is_Some (m !! (r, c)) -> c <= acc)).
  - intros r c [v H]. by rewrite lookup_empty in H.
  - intros i x m acc Hi IH r c H.
    destruct (decide (i = (r, c))) as [->|Hne]; [cbn; lia|].
    rewrite lookup_insert_ne in H by done. specialize (IH r c H). lia.
Qed.

Lemma max_column_least ws n :
  1 <= n -> (forall r c, is_Some (ws !! (r, c)) -> c <= n) -> max_column ws <= n.
Proof.
  intros Hn. unfold max_column.
  apply (map_fold_weak_ind (fun acc (m : gmap (nat * nat) value) =>
           (forall r c, is_Some (m !! (r, c)) -> c <= n) -> acc <= n)).
  - done.
  - intros [r c] x m acc Hi IH H. cbn [snd].
    assert (c <= n) by (apply (H r c); rewrite lookup_insert_eq; eauto).
    assert (acc <= n); [|lia]. apply IH. intros r' c' Hs. apply (H r' c').
    destruct (decide ((r, c) = (r', c'))) as [<-|Hne].
    + rewrite lookup_insert_eq; eauto.
    + by rewrite lookup_insert_ne.
Qed.

Lemma max_row_least ws n :
  1 <= n -> (forall r c, is_Some (ws !! (r, c)) -> r <= n) -> max_row ws <= n.
Proof.
  intros Hn. unfold max_row.
  apply (map_fold_weak_ind (fun acc (m : gmap (nat * nat) value) =>
           (forall r c, is_Some (m !! (r, c)) -> r <= n) -> acc <= n)).
  - done.
  - intros [r c] x m acc Hi IH H. cbn [fst].
    assert (r <= n) by (apply (H r c); rewrite lookup_insert_eq; eauto).
    assert (acc <= n); [|lia]. apply IH. intros r' c' Hs. apply (H r' c').
    destruct (decide ((r, c) = (r', c'))) as [<-|Hne].
    + rewrite lookup_insert_eq; eauto.
    + by rewrite lookup_insert_ne.
Qed.

Lemma max_column_pos ws : 1 <= max_column ws.
Proof.
  unfold max_column.
  apply (map_fold_weak_ind (fun acc (m : gmap (nat * nat) value) => 1 <= acc)); [done|].
  intros i x m acc _ IH. lia.
Qed.

Lemma max_row_pos ws : 1 <= max_row ws.
Proof.
  unfold max_row.
  apply (map_fold_weak_ind (fun acc (m : gmap (nat * nat) value) => 1 <= acc)); [done|].
  intros i x m acc _ IH. lia.
Qed.

Lemma grows_max_column ws ws' : grows ws ws' -> max_column ws <= max_column ws'.
Proof.
  intros H. apply max_column_least; [apply max_column_pos|].
  intros r c Hs. by eapply max_column_ge, H.
Qed.

Lemma grows_max_row ws ws' : grows ws ws' -> max_row ws <= max_row ws'.
Proof.
  intros H. apply max_row_least; [apply max_row_pos|].
  intros r c Hs. by eapply max_row_ge, H.
Qed.

Lemma beyond_max_column ws r c : max_column ws < c -> cell_value ws r c = VNone.
Proof.
  intros H. unfold cell_value. destruct (ws !! (r, c)) eqn:E; [|done].
  assert (c <= max_column ws) by (eapply max_column_ge; eauto). lia.
Qed.

Lemma cell_value_some ws r c : cell_value ws r c <> VNone -> is_Some (ws !! (r, c)).
Proof. unfold cell_value. destruct (ws !! (r, c)); [eauto|done]. Qed.

(** *** A call only adds cells *)

Lemma grows_refl ws : grows ws ws.
Proof. by intros k. Qed.

Lemma grows_trans ws1 ws2 ws3 : grows ws1 ws2 -> grows ws2 ws3 -> grows ws1 ws3.
Proof. intros H1 H2 k Hk. by apply H2, H1. Qed.

Lemma grows_insert k v ws : grows ws (<[k := v]> ws).
Proof.
  intros k' Hk. destruct (decide (k = k')) as [<-|Hne].
  - rewrite lookup_insert_eq. eauto.
  - by rewrite lookup_insert_ne.
Qed.

Lemma grows_touch r c ws : grows ws (touch r c ws).
Proof. unfold touch. destruct (ws !! (r, c)); [apply grows_refl|apply grows_insert]. Qed.

Lemma grows_foldl {A : Type} (f : worksheet -> A -> worksheet) (l : list A) :
  (forall ws x, grows ws (f ws x)) -> forall ws, grows ws (foldl f ws l).
Proof.
  intros Hf. induction l as [|x l IH]; intros ws; cbn [foldl]; [apply grows_refl|].
  eapply grows_trans; [apply Hf|apply IH].
Qed.

Lemma grows_read_headers h n ws : grows ws (snd (read_headers float_text h n ws)).
Proof.
  unfold read_headers. generalize (range 1 (n + 1)). intros l.
  generalize (∅ : gmap string nat). revert ws.
  induction l as [|col l IH]; intros ws cm; cbn [foldl]; [apply grows_refl|].
  unfold read_header at 2.
  destruct (truthy _); (eapply grows_trans; [apply (grows_touch h col)|apply IH]).
Qed.

Lemma grows_locate_headers ws : grows ws (snd (locate_headers float_text ws)).
Proof.
  unfold locate_headers.
  pose proof (grows_read_headers 2 (Nat.max (max_column ws) 100) ws) as H2.
  destruct (read_headers float_text 2 _ ws) as [cm2 ws2]. cbn [snd] in H2.
  destruct (bool_decide (cm2 = ∅)); [|done].
  pose proof (grows_read_headers 1 (Nat.max (max_column ws) 100) ws2) as H1.
  destruct (read_headers float_text 1 _ ws2) as [cm1 ws1]. cbn [snd] in *.
  by eapply grows_trans.
Qed.

Lemma grows_write_row cm sr row rec ws : grows ws (write_row cm sr row rec ws).
Proof.
  unfold write_row. eapply grows_trans; [|apply grows_foldl].
  - destruct sr as [s|]; [|apply grows_refl].
    destruct ((0 <? s) && (s <=? max_row ws)); [|apply grows_refl].
    unfold copy_format. apply grows_foldl. intros ws' col.
    eapply grows_trans; apply grows_touch.
  - intros ws' kv. unfold write_field. destruct (cm !! fst kv); [apply grows_insert|apply grows_refl].
Qed.

Lemma grows_write_rows cm sr rows : forall cur ws, grows ws (write_rows cm sr cur rows ws).
Proof.
  induction rows as [|rec rows IH]; intros cur ws; cbn [write_rows]; [apply grows_refl|].
  eapply grows_trans; [apply grows_write_row|apply IH].
Qed.

Lemma grows_merge ws rows : grows ws (merge_excel_data float_text ws rows).
Proof.
  rewrite merge_unfold. destruct (rows_to_add float_text ws rows).
  - apply grows_locate_headers.
  - eapply grows_trans; [apply grows_locate_headers|apply grows_write_rows].
Qed.

(** *** The pairs a call reads *)

Lemma existing_keys_elem ws cm h ic oc r :
  cm !! "ID Patient" = Some ic -> cm !! "Œil" = Some oc ->
  h + 1 <= r <= max_row ws ->
  truthy (key_text float_text ws r ic) = true ->
  truthy (key_text float_text ws r oc) = true ->
  (key_text float_text ws r ic, key_text float_text ws r oc) ∈ existing_keys float_text ws cm h.
Proof.
  intros Hic Hoc Hr Hti Hto. unfold existing_keys. rewrite Hic, Hoc.
  set (p := (key_text float_text ws r ic, key_text float_text ws r oc)).
  set (f := fun (ks : keys) row_idx => _).
  assert (Hin : r ∈ range (h + 1) (max_row ws + 1)).
  { unfold range. apply elem_of_seq. lia. }
  revert Hin. generalize (range (h + 1) (max_row ws + 1)). intros l.
  assert (Hkeep : forall l ks, p ∈ ks -> p ∈ foldl f ks l).
  { clear. induction l as [|x l IH]; intros ks Hp; cbn [foldl]; [done|].
    apply IH. unfold f. destruct (_ && _); [|done]. by apply elem_of_union_r. }
  generalize (∅ : keys).
  induction l as [|x l IH]; intros ks Hin; [by apply elem_of_nil in Hin|].
  cbn [foldl]. apply elem_of_cons in Hin as [<-|Hin]; [|by apply IH].
  apply Hkeep. unfold f. rewrite Hti, Hto. cbn [andb].
  apply elem_of_union_l. by apply elem_of_singleton.
Qed.

(** *** What a call leaves for the next one *)

Lemma merge_lands_gen ws rows i rec k v c :
  rows_to_add float_text ws rows !! i = Some rec -> rec !! k = Some v ->
  call_column_map float_text ws !! k = Some c ->
  cell_value (merge_excel_data float_text ws rows) (call_first_row float_text ws + i) c =
  convert_value k v.
Proof.
  intros Hi Hk Hc. rewrite merge_unfold.
  destruct (rows_to_add float_text ws rows) as [|rec0 rest] eqn:E; [done|].
  eapply write_rows_lands; [apply column_map_inj|exact Hi|exact Hk|exact Hc].
Qed.

Lemma convert_value_not_none k v : convert_value k v <> VNone.
Proof.
  unfold convert_value. repeat case_match; discriminate.
Qed.

Lemma convert_value_other k v :
  k <> "ID Patient" -> k <> "Modèle implanté" -> k ∉ numeric_fields -> convert_value k v = VStr v.
Proof.
  intros H1 H2 H3. unfold convert_value. destruct (is_empty v); [done|].
  destruct (String.eqb_spec k "ID Patient"); [done|].
  destruct (String.eqb_spec k "Modèle implanté"); [done|].
  destruct (existsb (String.eqb k) numeric_fields) eqn:E; [|done].
  apply existsb_exists in E as (x & Hin & Hx). apply String.eqb_eq in Hx. subst x.
  exfalso. apply H3. by apply list_elem_of_In.
Qed.

Lemma convert_value_eye v : convert_value "Œil" v = VStr v.
Proof.
  apply convert_value_other; [done|done|].
  intros H. apply list_elem_of_In in H. cbn in H.
  repeat (destruct H as [H|H]; [discriminate H|]). done.
Qed.

Lemma kept_valid (ks : keys) rows rec :
  rec ∈ filter_new_rows ks rows -> valid_pair rec = true.
Proof.
  revert ks. induction rows as [|r rows IH]; intros ks; cbn [filter_new_rows].
  - intros H. by apply elem_of_nil in H.
  - fold (valid_pair r). destruct (valid_pair r) eqn:Hv; cbn [andb]; [|apply IH].
    destruct (negb _); [|apply IH].
    intros [->|H]%elem_of_cons; [done|]. by eapply IH.
Qed.

Lemma truthy_key rec k :
  truthy (row_key rec k) = true -> exists v, rec !! k = Some v /\ row_key rec k = strip v.
Proof.
  unfold row_key. destruct (rec !! k) as [v|]; [eauto|done].
Qed.

Lemma call_keys_unfold ws :
  call_keys float_text ws =
  existing_keys float_text (snd (locate_headers float_text ws))
    (call_column_map float_text ws) (call_header_row float_text ws).
Proof.
  unfold call_keys, call_column_map, call_header_row.
  by destruct (locate_headers float_text ws) as [[h cm] ws'].
Qed.

Lemma call_first_row_below ws : call_header_row float_text ws < call_first_row float_text ws.
Proof. apply first_available_row_below. Qed.

Lemma merge_keeps_above ws rows r c :
  r < call_first_row float_text ws ->
  cell_value (merge_excel_data float_text ws rows) r c = cell_value ws r c.
Proof. intros H. apply merge_frame_gen. intros i rec k _ Hr. lia. Qed.

Lemma header_text_beyond ws h c : scan_width ws < c -> header_text float_text ws h c = "".
Proof.
  intros H. unfold header_text. rewrite beyond_max_column; [done|].
  unfold scan_width in H. lia.
Qed.

(** With the headers in row 2, the next call finds the same columns. *)
Lemma header_row_kept ws rows :
  call_header_row float_text ws = 2 ->
  call_header_row float_text (merge_excel_data float_text ws rows) = 2.
Proof.
  intros Hh. pose proof (call_first_row_below ws) as Hf. rewrite Hh in Hf.
  apply header_row_2 in Hh as (c & Hc & Ht). apply header_row_2.
  exists c. split.
  - pose proof (grows_max_column _ _ (grows_merge ws rows)). unfold scan_width in *. lia.
  - unfold header_text in *. rewrite merge_keeps_above by lia. done.
Qed.

Lemma column_map_kept ws rows name c :
  call_header_row float_text ws = 2 ->
  call_column_map float_text ws !! name = Some c ->
  call_column_map float_text (merge_excel_data float_text ws rows) !! name = Some c.
Proof.
  intros Hh Hc. pose proof (call_first_row_below ws) as Hf. rewrite Hh in Hf.
  apply column_map_last_headed. rewrite (header_row_kept ws rows Hh).
  apply column_map_last_headed in Hc. rewrite Hh in Hc.
  destruct Hc as (Ht & Hb & Hn & Hlast).
  pose proof (grows_max_column _ _ (grows_merge ws rows)) as Hg.
  assert (Hsame : forall c', header_text float_text (merge_excel_data float_text ws rows) 2 c' =
                             header_text float_text ws 2 c').
  { intros c'. unfold header_text. by rewrite merge_keeps_above by lia. }
  split; [done|]. split; [unfold scan_width in *; lia|]. split; [by rewrite Hsame|].
  intros c' Hc'. rewrite Hsame.
  destruct (decide (c' <= scan_width ws)) as [Hle|Hgt]; [apply Hlast; lia|].
  rewrite header_text_beyond by lia. intros <-. discriminate Ht.
Qed.

Lemma written_pair_read ws rows i rec :
  call_header_row float_text ws = 2 ->
  is_Some (call_column_map float_text ws !! "ID Patient") ->
  is_Some (call_column_map float_text ws !! "Œil") ->
  rows_to_add float_text ws rows !! i = Some rec ->
  id_read_back float_text (default "" (rec !! "ID Patient")) = row_key rec "ID Patient" ->
  row_pair rec ∈ call_keys float_text (merge_excel_data float_text ws rows).
Proof.
  intros Hh [ic Hic] [oc Hoc] Hi Hback.
  pose proof (call_first_row_below ws) as Hf. rewrite Hh in Hf.
  assert (Hv : valid_pair rec = true).
  { eapply kept_valid. unfold rows_to_add in Hi. eapply list_elem_of_lookup_2, Hi. }
  unfold valid_pair in Hv. apply andb_true_iff in Hv as [Hvi Hvo].
  destruct (truthy_key _ _ Hvi) as (id & Hid & Hidk).
  destruct (truthy_key _ _ Hvo) as (eye & Heye & Heyek).
  rewrite Hid in Hback. cbn [default] in Hback.
  set (ws2 := merge_excel_data float_text ws rows).
  set (r := call_first_row float_text ws + i).
  assert (Hci : cell_value ws2 r ic = convert_value "ID Patient" id)
    by by eapply merge_lands_gen.
  assert (Hco : cell_value ws2 r oc = VStr eye).
  { rewrite <- convert_value_eye. by eapply merge_lands_gen. }
  rewrite call_keys_unfold. fold ws2.
  assert (Hki : key_text float_text (snd (locate_headers float_text ws2)) r ic =
                row_key rec "ID Patient").
  { unfold key_text. by rewrite locate_headers_values, Hci. }
  assert (Hko : key_text float_text (snd (locate_headers float_text ws2)) r oc =
                row_key rec "Œil").
  { unfold key_text. by rewrite locate_headers_values, Hco, Heyek. }
  unfold row_pair. rewrite <- Hki, <- Hko.
  apply existing_keys_elem.
  - by apply column_map_kept.
  - by apply column_map_kept.
  - pose proof (header_row_kept ws rows Hh) as Hk. fold ws2 in Hk. rewrite Hk.
    split; [unfold r; lia|].
    apply (max_row_ge _ r ic), grows_locate_headers, cell_value_some.
    rewrite Hci. apply convert_value_not_none.
  - by rewrite Hki.
  - by rewrite Hko.
Qed.

(** With the headers in row 1, the first record goes to row 2. *)
Lemma first_row_under_row_1 ws :
  call_header_row float_text ws = 1 ->
  is_Some (call_column_map float_text ws !! "ID Patient") ->
  is_Some (call_column_map float_text ws !! "Œil") ->
  call_first_row float_text ws = 2.
Proof.
  intros Hh [ic Hic] [oc Hoc].
  assert (Hempty : forall c, 1 <= c <= scan_width ws ->
            key_text float_text (snd (locate_headers float_text ws)) 2 c = "").
  { intros c Hc. unfold key_text. rewrite locate_headers_values.
    fold (header_text float_text ws 2 c).
    destruct (truthy (header_text float_text ws 2 c)) eqn:E.
    - assert (call_header_row float_text ws = 2) by (apply header_row_2; eauto). congruence.
    - by destruct (header_text float_text ws 2 c). }
  assert (Hbi : 1 <= ic <= scan_width ws).
  { apply column_map_last_headed in Hic as (_ & ? & _). lia. }
  assert (Hbo : 1 <= oc <= scan_width ws).
  { apply column_map_last_headed in Hoc as (_ & ? & _). lia. }
  unfold call_first_row, first_available_row. rewrite Hic, Hoc, Hh.
  set (ws' := snd (locate_headers float_text ws)) in *.
  destruct (decide (2 <= max_row ws')) as [Hm|Hm].
  - unfold range. replace (max_row ws' + 1 - (1 + 1)) with (S (max_row ws' - 2)) by lia.
    cbn [seq find]. by rewrite !Hempty.
  - unfold range. replace (max_row ws' + 1 - (1 + 1)) with 0 by lia. cbn [seq find].
    assert (Hl : last_data_row ws' (call_column_map float_text ws) 1 = 1).
    { unfold last_data_row, range. by replace (max_row ws' + 1 - (1 + 1)) with 0 by lia. }
    rewrite Hl. done.
Qed.

Lemma header_row_taken ws rows rec rest :
  call_header_row float_text ws = 1 ->
  is_Some (call_column_map float_text ws !! "ID Patient") ->
  is_Some (call_column_map float_text ws !! "Œil") ->
  rows_to_add float_text ws rows = rec :: rest ->
  call_header_row float_text (merge_excel_data float_text ws rows) = 2.
Proof.
  intros Hh Hi [oc Hoc] Hrows.
  pose proof (first_row_under_row_1 ws Hh Hi (ex_intro _ oc Hoc)) as Hf.
  assert (Hv : valid_pair rec = true).
  { eapply kept_valid. unfold rows_to_add in Hrows. rewrite Hrows. by left. }
  unfold valid_pair in Hv. apply andb_true_iff in Hv as [_ Hvo].
  destruct (truthy_key _ _ Hvo) as (eye & Heye & Heyek).
  apply header_row_2. exists oc. split.
  - apply column_map_last_headed in Hoc as (_ & ? & _).
    pose proof (grows_max_column _ _ (grows_merge ws rows)). unfold scan_width in *. lia.
  - unfold header_text.
    assert (Hc : cell_value (merge_excel_data float_text ws rows)
                   (call_first_row float_text ws + 0) oc = convert_value "Œil" eye).
    { eapply merge_lands_gen; [by rewrite Hrows|done|done]. }
    rewrite Hf in Hc. cbn [Nat.add] in Hc. rewrite Hc, convert_value_eye.
    cbn [text_or_empty]. by rewrite <- Heyek.
Qed.

(** *** A new workbook *)

Lemma write_cells_lookup {A : Type} (r : nat) (g : A -> value) (l : list A) :
  forall a (ws : worksheet) r' c',
  foldl (fun (ws : worksheet) '(c, x) => <[(r, c) := g x]> ws) ws
        (zip (seq a (List.length l)) l) !! (r', c') =
  if decide (r' = r /\ a <= c' < a + List.length l) then g <$> l !! (c' - a)
  else ws !! (r', c').
Proof.
  induction l as [|x l IH]; intros a ws r' c'.
  - cbn. destruct (decide _) as [[_ H]|_]; [lia|done].
  - cbn [List.length seq zip zip_with foldl]. rewrite IH.
    destruct (decide (r' = r /\ S a <= c' < S a + List.length l)) as [[-> H]|H].
    + rewrite decide_True by (cbn; lia).
      replace (c' - a) with (S (c' - S a)) by lia. done.
    + destruct (decide ((r, a) = (r', c'))) as [[= <- <-]|Hne].
      * rewrite lookup_insert_eq. rewrite decide_True by (cbn; lia).
        by rewrite Nat.sub_diag.
      * rewrite lookup_insert_ne by done.
        destruct (decide _) as [[-> H']|H']; [|done].
        exfalso. destruct (decide (c' = a)) as [->|]; [done|]. apply H. lia.
Qed.

Lemma write_rows_lookup (rows : list record) :
  forall a (ws : worksheet) r' c',
  foldl (fun (ws : worksheet) '(row_idx, row_data) =>
           foldl (fun (ws : worksheet) '(col_idx, col_name) =>
                    <[(row_idx, col_idx) := VStr (default "" (row_data !! col_name))]> ws)
                 ws (enumerate 1 columns))
        ws (zip (seq a (List.length rows)) rows) !! (r', c') =
  match rows !! (r' - a), columns !! (c' - 1) with
  | Some rec, Some name =>
      if decide (a <= r' /\ 1 <= c') then Some (VStr (default "" (rec !! name)))
      else ws !! (r', c')
  | _, _ => ws !! (r', c')
  end.
Proof.
  induction rows as [|rec rows IH]; intros a ws r' c'.
  - done.
  - cbn [List.length seq zip zip_with foldl]. rewrite IH.
    unfold enumerate. rewrite write_cells_lookup.
    destruct (decide (r' = a)) as [->|Hne].
    + rewrite Nat.sub_diag. cbn [lookup list_lookup].
      replace (a - S a) with 0 by lia.
      destruct (decide (a = a /\ 1 <= c' < 1 + List.length columns)) as [[_ Hc]|Hc].
      * destruct (columns !! (c' - 1)) as [name|] eqn:En.
        -- rewrite decide_True by lia. cbn [fmap option_fmap option_map].
           destruct (rows !! 0); [rewrite decide_False by lia|]; done.
        -- apply lookup_ge_None in En. lia.
      * destruct (columns !! (c' - 1)) as [name|] eqn:En.
        -- apply lookup_lt_Some in En.
           assert (c' = 0) by lia. subst c'.
           rewrite decide_False by lia.
           destruct (rows !! 0); [rewrite decide_False by lia|]; done.
        -- by destruct (rows !! 0).
    + destruct (decide (a < r')) as [Hlt|Hge].
      * replace (r' - a) with (S (r' - S a)) by lia. cbn [lookup list_lookup].
        rewrite decide_False by lia.
        destruct (rows !! (r' - S a)) as [rec'|]; [|done].
        destruct (columns !! (c' - 1)); [|done].
        destruct (decide (S a <= r' /\ 1 <= c')) as [H|H];
          destruct (decide (a <= r' /\ 1 <= c')) as [H'|H']; try done; lia.
      * replace (r' - S a) with 0 by lia. replace (r' - a) with 0 by lia.
        cbn [lookup list_lookup]. rewrite decide_False by lia.
        destruct (rows !! 0) as [rec'|].
        -- destruct (columns !! (c' - 1)); [|done]. by rewrite !decide_False by lia.
        -- destruct (columns !! (c' - 1)); [|done]. by rewrite decide_False by lia.
Qed.

Lemma create_lookup rows r c :
  create_excel_from_rows rows !! (r, c) =
  match columns !! (c - 1) with
  | Some name =>
      if decide (c = 0) then None
      else match r with
           | 0 => None
           | 1 => Some (VStr "")
           | 2 => Some (VStr name)
           | _ => rec ← rows !! (r - 3); Some (VStr (default "" (rec !! name)))
           end
  | None => None
  end.
Proof.
  unfold create_excel_from_rows.
  change (enumerate 3 rows) with (zip (seq 3 (List.length rows)) rows).
  rewrite write_rows_lookup.
  unfold enumerate. rewrite !write_cells_lookup. rewrite lookup_empty.
  destruct (columns !! (c - 1)) as [name|] eqn:En.
  - pose proof (lookup_lt_Some _ _ _ En) as Hlt.
    destruct (decide (c = 0)) as [->|Hc].
    + rewrite !decide_False by lia.
      destruct (rows !! (r - 3)); [by rewrite decide_False by lia|done].
    + destruct r as [|[|[|r]]].
      * rewrite !decide_False by lia. destruct (rows !! _); [by rewrite decide_False by lia|done].
      * rewrite decide_False by lia. rewrite decide_True by lia.
        destruct (rows !! _); [by rewrite decide_False by lia|done].
      * rewrite decide_True by lia. cbn [fmap option_fmap option_map].
        destruct (rows !! _); [by rewrite decide_False by lia|done].
      * replace (S (S (S r)) - 3) with r by lia.
        destruct (rows !! r) as [rec|]; cbn; [by rewrite decide_True by lia|].
        by rewrite !decide_False by lia.
  - pose proof (lookup_ge_None_1 _ _ En) as Hge.
    destruct (rows !! (r - 3)); by rewrite !decide_False by lia.
Qed.

Lemma columns_plain : Forall (fun name => strip name = name /\ truthy name = true) columns.
Proof. unfold columns. repeat (apply Forall_cons_2; [by vm_compute|]). apply Forall_nil_2. Qed.

Lemma columns_NoDup : NoDup columns.
Proof. apply (bool_decide_unpack _). by vm_compute. Qed.

Lemma create_header_text rows c :
  header_text float_text (create_excel_from_rows rows) 2 c =
  if decide (c = 0) then "" else default "" (columns !! (c - 1)).
Proof.
  unfold header_text, cell_value. rewrite create_lookup.
  destruct (columns !! (c - 1)) as [name|] eqn:En.
  - destruct (decide (c = 0)); [done|]. cbn.
    pose proof columns_plain as Hp. rewrite Forall_forall in Hp.
    by destruct (Hp name (list_elem_of_lookup_2 _ _ _ En)).
  - by destruct (decide (c = 0)).
Qed.

Lemma create_header_row rows :
  call_header_row float_text (create_excel_from_rows rows) = 2.
Proof.
  apply header_row_2. exists 1. split; [unfold scan_width; lia|].
  by rewrite create_header_text.
Qed.

Lemma create_column_map rows j name :
  columns !! j = Some name ->
  call_column_map float_text (create_excel_from_rows rows) !! name = Some (S j).
Proof.
  intros Hj. apply column_map_last_headed. rewrite create_header_row.
  pose proof columns_plain as Hp. rewrite Forall_forall in Hp.
  destruct (Hp name (list_elem_of_lookup_2 _ _ _ Hj)) as [Hs Ht].
  pose proof (lookup_lt_Some _ _ _ Hj) as Hlt. cbn in Hlt.
  split; [done|]. split; [unfold scan_width; lia|]. split.
  - rewrite create_header_text. rewrite decide_False by lia.
    replace (S j - 1) with j by lia. by rewrite Hj.
  - intros c' Hc'. rewrite create_header_text. rewrite decide_False by lia.
    destruct (columns !! (c' - 1)) as [name'|] eqn:En; cbn.
    + intros ->. pose proof (NoDup_lookup _ _ _ _ columns_NoDup Hj En). lia.
    + intros <-. discriminate Ht.
Qed.

Lemma filter_all_known (ks : keys) rows :
  (forall rec, rec ∈ rows -> valid_pair rec = true -> row_pair rec ∈ ks) ->
  filter_new_rows ks rows = [].
Proof.
  induction rows as [|r rows IH]; intros H; cbn [filter_new_rows]; [done|].
  fold (valid_pair r). fold (row_pair r).
  destruct (valid_pair r) eqn:Hv; cbn [andb].
  - rewrite bool_decide_eq_true_2 by (apply H; [by left|done]). cbn [negb].
    apply IH. intros rec Hin. apply H. by right.
  - apply IH. intros rec Hin. apply H. by right.
Qed.

Lemma create_keys rows rec :
  rec ∈ rows -> valid_pair rec = true ->
  row_pair rec ∈ call_keys float_text (create_excel_from_rows rows).
Proof.
  intros Hin Hv. apply list_elem_of_lookup_1 in Hin as [i Hi].
  unfold valid_pair in Hv. apply andb_true_iff in Hv as [Hvi Hvo].
  set (ws := create_excel_from_rows rows).
  assert (Hcell : forall j name, columns !! j = Some name ->
            ws !! (3 + i, S j) = Some (VStr (default "" (rec !! name)))).
  { intros j name Hj. unfold ws. rewrite create_lookup.
    replace (S j - 1) with j by lia. rewrite Hj. rewrite decide_False by lia.
    cbn [Nat.add]. replace (S (S (S i)) - 3) with i by lia. by rewrite Hi. }
  assert (Hkey : forall j name, columns !! j = Some name ->
            key_text float_text (snd (locate_headers float_text ws)) (3 + i) (S j) =
            row_key rec name).
  { intros j name Hj. unfold key_text. rewrite locate_headers_values.
    unfold cell_value. by rewrite (Hcell j name Hj). }
  rewrite call_keys_unfold. fold ws. unfold row_pair.
  rewrite <- (Hkey 0 "ID Patient") by done. rewrite <- (Hkey 2 "Œil") by done.
  apply existing_keys_elem.
  - by apply create_column_map.
  - by apply create_column_map.
  - unfold ws. rewrite create_header_row. split; [lia|].
    apply (max_row_ge _ (3 + i) 1), grows_locate_headers.
    fold ws. rewrite (Hcell 0 "ID Patient") by done. eauto.
  - by rewrite (Hkey 0 "ID Patient").
  - by rewrite (Hkey 2 "Œil").
Qed.

Lemma create_then_add rows :
  rows_to_add float_text (create_excel_from_rows rows) rows = [].
Proof.
  unfold rows_to_add. apply filter_all_known. intros rec Hin Hv. by apply create_keys.
Qed.

(** *** The duplicate check of one call *)





(** *** The header scan *)

(** The header row is row 2 when one of its scanned cells has text and row 1
    otherwise; the scan covers [max(max_column, 100)] columns. The column map
    sends a name to a column exactly when the name is the stripped, non-empty
    text of that column's header cell and of no later scanned column: of
    several columns with the same header, the last one is used. *)
Theorem header_scan_last_column (ws : gmap (nat * nat) value) (name : string) (c : nat) :
  (call_header_row float_text ws = 2 <->
   exists c0, 1 <= c0 <= scan_width ws /\ truthy (header_text float_text ws 2 c0) = true) /\
  (call_header_row float_text ws = 1 \/ call_header_row float_text ws = 2) /\
  (call_column_map float_text ws !! name = Some c <->
   last_headed float_text ws (call_header_row float_text ws) (S (scan_width ws)) name c).
Proof.
  split; [apply header_row_2|]. split; [apply call_header_row_cases|].
  apply column_map_last_headed.
Qed.

(** *** What a merge changes *)

(** A merge leaves a cell's value as it was when the cell lies in the header
    row or above, above the first row written, below the last row written,
    in a column no header name is mapped to, or in the column of a field the
    record written to that row does not have. *)
Theorem merge_keeps_other_cells (ws : gmap (nat * nat) value)
    (new_rows : list (gmap string string)) (r c : nat) :
  r <= call_header_row float_text ws \/
  r < call_first_row float_text ws \/
  call_first_row float_text ws + List.length (rows_to_add float_text ws new_rows) <= r \/
  (forall name, call_column_map float_text ws !! name <> Some c) \/
  (exists rec, rows_to_add float_text ws new_rows !! (r - call_first_row float_text ws) = Some rec /\
               forall name, call_column_map float_text ws !! name = Some c -> rec !! name = None) ->
  cell_value (merge_excel_data float_text ws new_rows) r c = cell_value ws r c.
Proof.
  intros H. apply merge_frame_gen. intros i rec k Hi Hr Hc.
  pose proof (call_first_row_below ws) as Hb.
  pose proof (lookup_lt_Some _ _ _ Hi) as Hlen.
  destruct H as [H|[H|[H|[H|(rec' & Hrec & H)]]]]; try lia.
  - by destruct (H k).
  - replace (r - call_first_row float_text ws) with i in Hrec by lia.
    rewrite Hi in Hrec. injection Hrec as <-. by apply H.
Qed.

(** The [i]-th record a merge keeps is written to the row [i] rows below
    the first available row: each of its fields whose name heads a column is
    stored there, converted by the rules of the field. *)
Theorem merge_writes_fields (ws : gmap (nat * nat) value)
    (new_rows : list (gmap string string)) (i : nat) (rec : gmap string string)
    (name val : string) (c : nat) :
  rows_to_add float_text ws new_rows !! i = Some rec ->
  rec !! name = Some val ->
  call_column_map float_text ws !! name = Some c ->
  call_header_row float_text ws < call_first_row float_text ws + i /\
  cell_value (merge_excel_data float_text ws new_rows) (call_first_row float_text ws + i) c =
  convert_value name val.
Proof.
  intros Hi Hk Hc. split; [pose proof (call_first_row_below ws); lia|].
  by eapply merge_lands_gen.
Qed.

(** *** From one call to the next *)

(** A patient id that is a run of digits without a leading zero, or that
    has no digit at all, is read back from its cell as the stripped text a
    record carries; this is the text the duplicate check compares. *)
Theorem patient_id_reads_back (id : string) :
  truthy (strip id) = true ->
  canonical_id (strip id) = true \/ digits_only id = "" ->
  id_read_back float_text id = strip id.
Proof.
  intros Ht [H|H]; [by apply id_read_back_canonical|by apply id_read_back_text].
Qed.

(** On a sheet with its headers in row 2 and both key columns, a record a
    merge has written is found by the next call: its pair is among the pairs
    that call reads, and no list of records makes that call write the pair
    again, provided the patient id reads back as itself. *)
Theorem written_record_found_again (ws : gmap (nat * nat) value)
    (new_rows later : list (gmap string string)) (i : nat) (rec : gmap string string) :
  call_header_row float_text ws = 2 ->
  is_Some (call_column_map float_text ws !! "ID Patient") ->
  is_Some (call_column_map float_text ws !! "Œil") ->
  rows_to_add float_text ws new_rows !! i = Some rec ->
  canonical_id (row_key rec "ID Patient") = true \/ digits_only (row_key rec "ID Patient") = "" ->
  row_pair rec ∈ call_keys float_text (merge_excel_data float_text ws new_rows) /\
  row_pair rec ∉ (row_pair <$>
    rows_to_add float_text (merge_excel_data float_text ws new_rows) later).
Proof.
  intros Hh Hic Hoc Hi Hid.
  assert (Hin : row_pair rec ∈ call_keys float_text (merge_excel_data float_text ws new_rows)).
  { apply (written_pair_read ws new_rows i rec Hh Hic Hoc Hi).
    assert (Hv : valid_pair rec = true).
    { eapply kept_valid. unfold rows_to_add in Hi. eapply list_elem_of_lookup_2, Hi. }
    unfold valid_pair in Hv. apply andb_true_iff in Hv as [Hvi _].
    destruct (truthy_key _ _ Hvi) as (id & Hrec & Hkey).
    rewrite Hrec. cbn [default]. rewrite Hkey in *.
    destruct Hid as [Hc|Hd].
    - by apply id_read_back_canonical.
    - apply id_read_back_text; [done|]. by rewrite <- digits_only_strip_eq. }
  split; [done|]. unfold rows_to_add at 1.
  destruct (filter_new_rows_spec later
              (call_keys float_text (merge_excel_data float_text ws new_rows)))
    as (_ & _ & Hmem).
  intros H. apply Hmem in H as [Hnot _]. by apply Hnot.
Qed.

(** On a sheet with its headers in row 1 and both key columns, the first
    record kept is written to row 2, and the next call takes row 2, with
    that record in it, for the header row. *)
Theorem row_1_headers_replaced (ws : gmap (nat * nat) value)
    (new_rows : list (gmap string string)) :
  call_header_row float_text ws = 1 ->
  is_Some (call_column_map float_text ws !! "ID Patient") ->
  is_Some (call_column_map float_text ws !! "Œil") ->
  rows_to_add float_text ws new_rows <> [] ->
  call_first_row float_text ws = 2 /\
  call_header_row float_text (merge_excel_data float_text ws new_rows) = 2.
Proof.
  intros Hh Hic Hoc Hne. split; [by apply first_row_under_row_1|].
  destruct (rows_to_add float_text ws new_rows) as [|rec rest] eqn:E; [done|].
  by eapply header_row_taken.
Qed.

(** *** New workbooks *)

(** The sheet of a new workbook: ten columns, empty strings in row 1, the
    column names in row 2, and the [i]-th record in row [3 + i], each value
    as the text the record has (the empty string for a missing field),
    without any conversion or duplicate check; no other cell exists, so the
    fields "K1", "K2", "Axe" and "Modèle implanté" are not stored. *)
Theorem create_cells (new_rows : list (gmap string string)) (r c : nat) :
  create_excel_from_rows new_rows !! (r, c) =
  match columns !! (c - 1) with
  | Some name =>
      if decide (c = 0) then None
      else match r with
           | 0 => None
           | 1 => Some (VStr "")
           | 2 => Some (VStr name)
           | _ => rec ← new_rows !! (r - 3); Some (VStr (default "" (rec !! name)))
           end
  | None => None
  end.
Proof. apply create_lookup. Qed.

(** A workbook created from a list of records already holds all of them
    for the duplicate check: merging the same list into it keeps no record
    and changes no cell value. *)
Theorem create_then_merge_adds_nothing (new_rows : list (gmap string string)) (r c : nat) :
  rows_to_add float_text (create_excel_from_rows new_rows) new_rows = [] /\
  cell_value (merge_excel_data float_text (create_excel_from_rows new_rows) new_rows) r c =
  cell_value (create_excel_from_rows new_rows) r c.
Proof.
  split; [apply create_then_add|]. apply merge_frame_gen.
  intros i rec k Hi. by rewrite create_then_add in Hi.
Qed.

(** *** The endpoint *)

Lemma all_rows_concat today pdf_files :
  Main.all_rows today pdf_files = List.concat (parse today <$> pdf_files).
Proof.
  unfold Main.all_rows.
  assert (H : forall acc, foldl (fun all_rows pdf_file => (all_rows ++ parse today pdf_file)%list)
                            acc pdf_files = (acc ++ List.concat (parse today <$> pdf_files))%list).
  { induction pdf_files as [|pdf rest IH]; intros acc; cbn [foldl fmap list_fmap List.concat].
    - by rewrite app_nil_r.
    - by rewrite IH, app_assoc. }
  apply H.
Qed.

Lemma parse_pair today pdf :
  exists od os, parse today pdf = [od; os] /\
    od !! "Œil" = Some "OD" /\ os !! "Œil" = Some "OS" /\
    od !! "ID Patient" = Some (patient_id_of pdf) /\
    os !! "ID Patient" = Some (patient_id_of pdf).
Proof.
  unfold parse. rewrite parse_with_path_cases.
  destruct (nonempty _ || nonempty _); cbn [snd]; eexists; eexists;
    (split; [reflexivity|]).
  - rewrite !finalize_eye. repeat split; apply finalize_identity.
  - rewrite !text_record_eye. repeat split; apply text_record_identity.
Qed.

Lemma all_rows_lookup today pdf_files : forall j pdf,
  pdf_files !! j = Some pdf ->
  exists od os, parse today pdf = [od; os] /\
    Main.all_rows today pdf_files !! (2 * j) = Some od /\
    Main.all_rows today pdf_files !! (2 * j + 1) = Some os.
Proof.
  rewrite all_rows_concat.
  induction pdf_files as [|p rest IH]; intros j pdf Hj; [done|].
  cbn [fmap list_fmap List.concat].
  destruct (parse_pair today p) as (od0 & os0 & Hp & _).
  destruct j as [|j].
  - injection Hj as ->. exists od0, os0. rewrite Hp. done.
  - destruct (IH j pdf Hj) as (od & os & Hpdf & Hod & Hos).
    exists od, os. split; [done|]. rewrite Hp.
    replace (2 * S j) with (S (S (2 * j))) by lia.
    replace (S (S (2 * j)) + 1) with (S (S (2 * j + 1))) by lia. done.
Qed.

(** Without an uploaded workbook every report gives two rows of the new
    sheet, in the order of the upload: the right eye of the [j]-th report
    in row [3 + 2j] and its left eye in the next row, each with the
    report's patient id as text. No duplicate check applies: a report
    uploaded twice fills four rows. *)
Theorem extract_data_new_workbook (today : date) (pdf_files : list (list page))
    (j : nat) (pdf : list page) :
  pdf_files !! j = Some pdf ->
  exists ws, Main.extract_data float_text today "IOL700" pdf_files None = Main.Response ws /\
    cell_value ws (3 + 2 * j) 1 = VStr (patient_id_of pdf) /\
    cell_value ws (3 + 2 * j) 3 = VStr "OD" /\
    cell_value ws (4 + 2 * j) 1 = VStr (patient_id_of pdf) /\
    cell_value ws (4 + 2 * j) 3 = VStr "OS".
Proof.
  intros Hj. destruct pdf_files as [|p0 rest] eqn:E; [done|]. rewrite <- E in *.
  exists (create_excel_from_rows (Main.all_rows today pdf_files)).
  split; [by rewrite E|].
  destruct (all_rows_lookup today pdf_files j pdf Hj) as (od & os & Hp & Hod & Hos).
  destruct (parse_pair today pdf) as (od' & os' & Hp' & Hode & Hose & Hodi & Hosi).
  rewrite Hp in Hp'. injection Hp' as <- <-.
  unfold cell_value. rewrite !create_lookup.
  change (columns !! (1 - 1)) with (Some "ID Patient").
  change (columns !! (3 - 1)) with (Some "Œil"). cbv beta iota.
  rewrite !decide_False by lia.
  replace (3 + 2 * j) with (S (S (S (2 * j)))) by lia.
  replace (4 + 2 * j) with (S (S (S (2 * j + 1)))) by lia.
  replace (S (S (S (2 * j))) - 3) with (2 * j) by lia.
  replace (S (S (S (2 * j + 1))) - 3) with (2 * j + 1) by lia.
  rewrite Hod, Hos. cbn [mbind option_bind default].
  by rewrite Hode, Hose, Hodi, Hosi.
Qed.

End SheetFacts.

(** ** Instances on the sample sheets *)

Section SheetInstances.

Import Py IOL700Parser Props MoreProps ExcelHandler SheetProps.

(** The instance at the header cell of the first column. *)
Lemma merge_keeps_other_cells_witness :
  cell_value (merge_excel_data Samples.float_text Samples.keyed_sheet [Samples.od_record "7"]) 2 1 =
  cell_value Samples.keyed_sheet 2 1.
Proof.
  apply (merge_keeps_other_cells Samples.float_text Samples.keyed_sheet [Samples.od_record "7"] 2 1).
  left. vm_compute. lia.
Defined.

(** The instance at the axial length of the one record written. *)
Lemma merge_writes_fields_witness :
  call_header_row Samples.float_text Samples.keyed_sheet <
    call_first_row Samples.float_text Samples.keyed_sheet + 0 /\
  cell_value (merge_excel_data Samples.float_text Samples.keyed_sheet [Samples.od_record "7"])
    (call_first_row Samples.float_text Samples.keyed_sheet + 0) 3 =
  convert_value "AL" "23.5".
Proof.
  apply (merge_writes_fields Samples.float_text Samples.keyed_sheet [Samples.od_record "7"] 0
           (Samples.od_record "7") "AL" "23.5" 3); vm_compute; reflexivity.
Defined.

(** The instance at an id with blanks around it. *)
Lemma patient_id_reads_back_witness :
  id_read_back Samples.float_text " 42 " = strip " 42 ".
Proof.
  apply (patient_id_reads_back Samples.float_text " 42 ").
  - vm_compute. reflexivity.
  - left. vm_compute. reflexivity.
Defined.

(** The instance at the patient 7 on the sheet with both key columns. *)
Lemma written_record_found_again_witness :
  row_pair (Samples.od_record "7") ∈
    call_keys Samples.float_text
      (merge_excel_data Samples.float_text Samples.keyed_sheet [Samples.od_record "7"]) /\
  row_pair (Samples.od_record "7") ∉
    (row_pair <$> rows_to_add Samples.float_text
      (merge_excel_data Samples.float_text Samples.keyed_sheet [Samples.od_record "7"])
      [Samples.od_record "7"]).
Proof.
  apply (written_record_found_again Samples.float_text Samples.keyed_sheet
           [Samples.od_record "7"] [Samples.od_record "7"] 0 (Samples.od_record "7")).
  - vm_compute. reflexivity.
  - vm_compute. eexists. reflexivity.
  - vm_compute. eexists. reflexivity.
  - vm_compute. reflexivity.
  - left. vm_compute. reflexivity.
Defined.

(** The instance at the sheet with its headers in row 1. *)
Lemma row_1_headers_replaced_witness :
  call_first_row Samples.float_text MoreSamples.row_1_sheet = 2 /\
  call_header_row Samples.float_text
    (merge_excel_data Samples.float_text MoreSamples.row_1_sheet [Samples.od_record "7"]) = 2.
Proof.
  apply (row_1_headers_replaced Samples.float_text MoreSamples.row_1_sheet [Samples.od_record "7"]).
  - vm_compute. reflexivity.
  - vm_compute. eexists. reflexivity.
  - vm_compute. eexists. reflexivity.
  - vm_compute. intros H. discriminate H.
Defined.

(** The instance at the second of two reports without pages. *)
Lemma extract_data_new_workbook_witness :
  exists ws,
    Main.extract_data Samples.float_text Samples.today "IOL700" [[]; []] None = Main.Response ws /\
    cell_value ws (3 + 2 * 1) 1 = VStr (patient_id_of []) /\
    cell_value ws (3 + 2 * 1) 3 = VStr "OD" /\
    cell_value ws (4 + 2 * 1) 1 = VStr (patient_id_of []) /\
    cell_value ws (4 + 2 * 1) 3 = VStr "OS".
Proof.
  apply (extract_data_new_workbook Samples.float_text Samples.today [[]; []] 1 []).
  reflexivity.
Defined.

End SheetInstances.
